(** * Knowledge-graph backend (assignment1/backend_code-app.py)

    A shallow embedding of the Flask handlers of the knowledge-graph service
    and of the parts of the libraries they call (the networkx [DiGraph], the
    unweighted [shortest_path], [degree_centrality], Flask's [jsonify], the
    missing-value rule of [pandas.read_csv]), followed by the properties of
    the handlers.

    Conventions of the embedding:
    - a Python [str] is the list of its code points;
    - a Python [dict] is an association list in insertion order, as the
      iteration order of a dict is its insertion order;
    - a computation that can raise is a [result];
    - a Python [float] is a binary64 number, written as a rational:
      [PFloat q] is the binary64 number nearest to [q].  The quotient of
      two integers, which Python rounds once and correctly, is written
      with the exact quotient; where the code computes with floats in
      several steps, each step is rounded with [round64], and [q] is then
      the float itself;
    - the module-level [knowledge_graph] is threaded through the handlers:
      a handler maps the graph and the request to a response and the graph
      it leaves behind. *)

From Stdlib Require Import String Ascii DecimalString.
From Stdlib Require Import List Bool Arith ZArith NArith QArith Lia.
Import ListNotations.

Set Warnings "-register-all".
Close Scope Q_scope.
Local Open Scope nat_scope.
Local Open Scope list_scope.

(* ================================================================== *)
(** * Python values *)
(* ================================================================== *)

Module Py.

(** A [str]: its code points. *)
Definition pystr := list N.

(** A literal of the source, written as a Rocq string of ASCII characters. *)
Definition py (s : string) : pystr :=
  List.map N_of_ascii (list_ascii_of_string s).

Definition str_eqb (a b : pystr) : bool :=
  if list_eq_dec N.eq_dec a b then true else false.

(** [ch.isspace()], the test [str.strip()] applies to each end: the ASCII
    separators 9-13 and 28-32, and the Unicode white space above them. *)
Definition is_space (c : N) : bool :=
  ((9 <=? c) && (c <=? 13) || (28 <=? c) && (c <=? 32)
   || (c =? 133) || (c =? 160) || (c =? 5760)
   || (8192 <=? c) && (c <=? 8202)
   || (c =? 8232) || (c =? 8233) || (c =? 8239) || (c =? 8287)
   || (c =? 12288))%N.

Fixpoint lstrip (s : pystr) : pystr :=
  match s with
  | [] => []
  | c :: s' => if is_space c then lstrip s' else s
  end.

Definition rstrip (s : pystr) : pystr := rev (lstrip (rev s)).

(** [s.strip()] *)
Definition strip (s : pystr) : pystr := rstrip (lstrip s).

(** Truth value of a [str]: [not s] holds exactly for the empty string. *)
Definition is_empty (s : pystr) : bool :=
  match s with [] => true | _ => false end.

(** [str(n)] for a non-negative [int]. *)
Definition str_of_nat (n : nat) : pystr :=
  py (NilEmpty.string_of_uint (Nat.to_uint n)).

(** [str(z)] for an [int]. *)
Definition str_of_Z (z : Z) : pystr :=
  py (NilZero.string_of_int (Z.to_int z)).

(** [sep.join(l)] *)
Fixpoint join (sep : pystr) (l : list pystr) : pystr :=
  match l with
  | [] => []
  | [x] => x
  | x :: l' => x ++ sep ++ join sep l'
  end.

(** ** Dictionaries *)

Definition dict (V : Type) := list (pystr * V).

(** [d.get(k)] *)
Fixpoint dict_get {V} (d : dict V) (k : pystr) : option V :=
  match d with
  | [] => None
  | (k', v) :: d' => if str_eqb k k' then Some v else dict_get d' k
  end.

(** [k in d] *)
Definition dict_contains {V} (d : dict V) (k : pystr) : bool :=
  match dict_get d k with Some _ => true | None => false end.

(** [d[k] = v]: a present key keeps its place, a new key goes last. *)
Fixpoint dict_set {V} (d : dict V) (k : pystr) (v : V) : dict V :=
  match d with
  | [] => [(k, v)]
  | (k', v') :: d' =>
      if str_eqb k k' then (k', v) :: d' else (k', v') :: dict_set d' k v
  end.

(** [list(d)], the keys in iteration order. *)
Definition dict_keys {V} (d : dict V) : list pystr := List.map fst d.

(** [d.get(k, default)] *)
Definition dict_get_default {V} (d : dict V) (k : pystr) (default : V) : V :=
  match dict_get d k with Some v => v | None => default end.

(** ** Exceptions *)

Inductive exn_class :=
| AttributeError
| TypeError
| KeyError
| IndexError
| HTTPException      (* werkzeug: request.json on a body that is not JSON *)
| PandasError        (* whatever pd.read_csv raises on a file it rejects *)
| NetworkXError
| NodeNotFound
| NetworkXNoPath
| LoopBound.         (* the embedding's bound on a while loop was reached;
                        NxFacts.search_ok shows it never is *)

(** An exception: its class and [str(e)]. *)
Record exn := mk_exn { exn_cls : exn_class; exn_str : pystr }.

Definition exn_class_eqb (a b : exn_class) : bool :=
  match a, b with
  | AttributeError, AttributeError | TypeError, TypeError
  | KeyError, KeyError | IndexError, IndexError
  | HTTPException, HTTPException
  | PandasError, PandasError | NetworkXError, NetworkXError
  | NodeNotFound, NodeNotFound | NetworkXNoPath, NetworkXNoPath
  | LoopBound, LoopBound => true
  | _, _ => false
  end.

(** A computation that returns or raises. *)
Inductive result (A : Type) :=
| Ok (a : A)
| Raise (e : exn).
Arguments Ok {A} a.
Arguments Raise {A} e.

Definition bind {A B} (m : result A) (f : A -> result B) : result B :=
  match m with
  | Ok a => f a
  | Raise e => Raise e
  end.

(** [try: m  except Exception as e: h e] *)
Definition try_except {A} (m : result A) (h : exn -> A) : A :=
  match m with
  | Ok a => a
  | Raise e => h e
  end.

(** [d[k]] on a dict: the value, or [KeyError(k)], whose [str] is the
    [repr] of the key (quoting is not modelled beyond the two quotes). *)
Definition dict_item {V} (d : dict V) (k : pystr) : result V :=
  match dict_get d k with
  | Some v => Ok v
  | None => Raise (mk_exn KeyError (py "'" ++ k ++ py "'"))
  end.

(** ** Floats

    The arithmetic of Python's [float] is that of IEEE 754 binary64: the
    exact result of an operation is rounded to the nearest number
    [k * 2^u] with [|k| <= 2^53], [u >= -1074] and as small as the size of
    the number allows; a tie goes to the even [k].  Overflow is not
    modelled: the numbers rounded here are sizes of dicts, which Python
    keeps below [2^63], and quotients of such sizes. *)

(** [floor (log2 (a / b))] *)
Definition log2_floor (a b : positive) : Z :=
  (let e := Z.log2 (Zpos a) - Z.log2 (Zpos b) in
   if Zpos a * 2 ^ Z.max 0 (- e) <? Zpos b * 2 ^ Z.max 0 e then e - 1 else e)%Z.

(** The integer nearest to [n / d], the even one of two that are equally
    near ([0 <= n], [0 < d]). *)
Definition nearest_even (n d : Z) : Z :=
  (let k := n / d in
   match 2 * (n mod d) ?= d with
   | Lt => k
   | Gt => k + 1
   | Eq => if Z.even k then k else k + 1
   end)%Z.

(** The binary64 number nearest to [a / b]: with [2^e <= a / b < 2^(e+1)],
    a multiple of [2^(e - 52)], and of [2^(-1074)] below [2^(-1022)]. *)
Definition round64_pos (a b : positive) : Q :=
  (let u := Z.max (log2_floor a b) (-1022) - 52 in
   if 0 <=? u then
     inject_Z (nearest_even (Zpos a) (Zpos b * 2 ^ u) * 2 ^ u)
   else
     Qred (Qmake (nearest_even (Zpos a * 2 ^ (- u)) (Zpos b))
                 (Z.to_pos (2 ^ (- u)))))%Z.

Definition round64 (q : Q) : Q :=
  match Qnum q with
  | Z0 => 0%Q
  | Zpos a => round64_pos a (Qden q)
  | Zneg a => Qopp (round64_pos a (Qden q))
  end.

(** [float(n)] for an [int], as in [n - 1.0] and [d * s]. *)
Definition float_of_int (n : Z) : Q := round64 (inject_Z n).

(** [x - y], [x / y] and [x * y] on floats. *)
Definition float_sub (x y : Q) : Q := round64 (x - y)%Q.

Definition float_div (x y : Q) : Q := round64 (x / y)%Q.

Definition float_mul (x y : Q) : Q := round64 (x * y)%Q.

(** ** The values the handlers receive and build *)

(** [PResponse] is a [flask.Response] object, the value a route function
    returns. *)
Inductive pyval :=
| PNone
| PBool (b : bool)
| PInt (n : Z)
| PFloat (q : Q)
| PStr (s : pystr)
| PList (l : list pyval)
| PDict (d : list (pystr * pyval))
| PResponse (status : nat) (body : pyval).

(** [type(v).__name__] *)
Definition type_name (v : pyval) : pystr :=
  match v with
  | PNone => py "NoneType"
  | PBool _ => py "bool"
  | PInt _ => py "int"
  | PFloat _ => py "float"
  | PStr _ => py "str"
  | PList _ => py "list"
  | PDict _ => py "dict"
  | PResponse _ _ => py "Response"
  end.

Definition no_attribute (v : pyval) (attr : string) : exn :=
  mk_exn AttributeError
    (py "'" ++ type_name v ++ py "' object has no attribute '" ++ py attr ++ py "'").

(** [data.get(key, default)], for a [data] that may be any value: only a
    dict has the method. *)
Definition py_get (data : pyval) (key : pystr) (default : pyval) : result pyval :=
  match data with
  | PDict d => Ok (dict_get_default d key default)
  | _ => Raise (no_attribute data "get")
  end.

(** [v.strip()], for a [v] that may be any value: only a [str] has the
    method. *)
Definition py_strip (v : pyval) : result pystr :=
  match v with
  | PStr s => Ok (strip s)
  | _ => Raise (no_attribute v "strip")
  end.

(** [v == 'literal'] *)
Definition eq_str (v : pyval) (s : pystr) : bool :=
  match v with
  | PStr s' => str_eqb s' s
  | _ => false
  end.

(** The first value [json.dumps] rejects, in the order it walks the value. *)
Fixpoint first_unserializable (v : pyval) : option pyval :=
  match v with
  | PList l =>
      (fix first (l : list pyval) : option pyval :=
         match l with
         | [] => None
         | x :: l' =>
             match first_unserializable x with
             | Some r => Some r
             | None => first l'
             end
         end) l
  | PDict d =>
      (fix first (d : list (pystr * pyval)) : option pyval :=
         match d with
         | [] => None
         | (_, x) :: d' =>
             match first_unserializable x with
             | Some r => Some r
             | None => first d'
             end
         end) d
  | PResponse _ _ => Some v
  | _ => None
  end.

(** What [json.dumps] accepts: a value with no [Response] object at any
    depth. *)
Definition json_serializable (v : pyval) : bool :=
  match first_unserializable v with None => true | Some _ => false end.

(** Truth value of a value, as [if v:] takes it. *)
Definition truthy (v : pyval) : bool :=
  match v with
  | PNone => false
  | PBool b => b
  | PInt n => negb (Z.eqb n 0)
  | PFloat q => negb (Qeq_bool q 0)
  | PStr s => negb (is_empty s)
  | PList l => match l with [] => false | _ => true end
  | PDict d => match d with [] => false | _ => true end
  | PResponse _ _ => true
  end.

End Py.

Export Py.

Declare Scope result_scope.
Delimit Scope result_scope with result.
Notation "x <- m ;; k" := (bind m (fun x => k))
  (at level 61, m at next level, right associativity) : result_scope.
Notation "' pat <- m ;; k" := (bind m (fun x => match x with pat => k end))
  (at level 61, pat pattern, m at next level, right associativity) : result_scope.
Local Open Scope result_scope.

(* ================================================================== *)
(** * networkx: the directed graph and the algorithms the service calls *)
(* ================================================================== *)

Module Nx.

(** The data dict of an edge (or of a node): attribute name to value. *)
Definition attrs := dict pystr.

(** [_succ] and [_pred]: node, to neighbour, to the edge's data dict. *)
Definition adjacency := dict (dict attrs).

(** [nx.DiGraph]: the three dicts of the object. *)
Record DiGraph := mk_DiGraph {
  g_node : dict attrs;
  g_succ : adjacency;
  g_pred : adjacency
}.

(** [nx.DiGraph()] *)
Definition empty : DiGraph := mk_DiGraph [] [] [].

(** [n in G] *)
Definition contains (G : DiGraph) (n : pystr) : bool := dict_contains (g_node G) n.

(** [G.nodes()] in iteration order. *)
Definition nodes (G : DiGraph) : list pystr := dict_keys (g_node G).

(** [G.number_of_nodes()], [len(G)] *)
Definition number_of_nodes (G : DiGraph) : nat := length (g_node G).

(** [d.update(other)] *)
Definition dict_update {V} (d other : dict V) : dict V :=
  fold_left (fun acc kv => dict_set acc (fst kv) (snd kv)) other d.

(** The node-creating step of [add_edge]:
    [if u not in self._succ: self._succ[u] = {}; self._pred[u] = {};
     self._node[u] = {}]. *)
Definition add_missing_node (G : DiGraph) (u : pystr) : DiGraph :=
  if dict_contains (g_succ G) u then G
  else mk_DiGraph (dict_set (g_node G) u [])
                  (dict_set (g_succ G) u [])
                  (dict_set (g_pred G) u []).

(** [G.add_edge(u, v, **attr)].  The result pairs the outcome with the
    graph the call leaves: the assignment to [_succ] stays when the one to
    [_pred] raises.  The data dict is one object shared by [_succ[u][v]]
    and [_pred[v][u]]; both entries are written here with the updated
    dict, which is what a later read through either sees. *)
Definition add_edge (u v : pystr) (attr : attrs) (G : DiGraph)
  : result unit * DiGraph :=
  let G1 := add_missing_node (add_missing_node G u) v in
  match dict_item (g_succ G1) u with
  | Raise e => (Raise e, G1)
  | Ok nbrs_u =>
      let datadict := dict_update (dict_get_default nbrs_u v []) attr in
      let G2 := mk_DiGraph (g_node G1)
                  (dict_set (g_succ G1) u (dict_set nbrs_u v datadict))
                  (g_pred G1) in
      match dict_item (g_pred G2) v with
      | Raise e => (Raise e, G2)
      | Ok nbrs_v =>
          (Ok tt, mk_DiGraph (g_node G2) (g_succ G2)
                    (dict_set (g_pred G2) v (dict_set nbrs_v u datadict)))
      end
  end.

(** [G.degree()]: for each node, [len(self._succ[n]) + len(self._pred[n])]. *)
Fixpoint degree_of (G : DiGraph) (ns : list pystr) : result (list (pystr * nat)) :=
  match ns with
  | [] => Ok []
  | n :: ns' =>
      succs <- dict_item (g_succ G) n ;;
      preds <- dict_item (g_pred G) n ;;
      rest <- degree_of G ns' ;;
      Ok ((n, length succs + length preds) :: rest)
  end.

Definition degree (G : DiGraph) : result (list (pystr * nat)) :=
  degree_of G (nodes G).

(** [G.size()]: [sum(d for v, d in self.degree()) // 2]. *)
Definition size (G : DiGraph) : result nat :=
  ds <- degree G ;;
  Ok (Nat.div (list_sum (List.map snd ds)) 2).

(** [G.number_of_edges()] *)
Definition number_of_edges (G : DiGraph) : result nat := size G.

(** [G.edges(data=True)]: every [(n, nbr, dd)] of [_succ], in order. *)
Definition edges (G : DiGraph) : list (pystr * pystr * attrs) :=
  flat_map (fun '(n, nbrs) => List.map (fun '(nbr, dd) => (n, nbr, dd)) nbrs)
           (g_succ G).

Definition not_in_digraph (n : pystr) : exn :=
  mk_exn NetworkXError (py "The node " ++ n ++ py " is not in the digraph.").

(** [list(G.successors(n))] *)
Definition successors (G : DiGraph) (n : pystr) : result (list pystr) :=
  match dict_get (g_succ G) n with
  | Some nbrs => Ok (dict_keys nbrs)
  | None => Raise (not_in_digraph n)
  end.

(** [list(G.predecessors(n))] *)
Definition predecessors (G : DiGraph) (n : pystr) : result (list pystr) :=
  match dict_get (g_pred G) n with
  | Some nbrs => Ok (dict_keys nbrs)
  | None => Raise (not_in_digraph n)
  end.

(** [G[u][v]], the data dict of the edge. *)
Definition edge_data (G : DiGraph) (u v : pystr) : result attrs :=
  nbrs <- dict_item (g_succ G) u ;;
  dict_item nbrs v.

(** ** Unweighted shortest path: [bidirectional_shortest_path] *)

(** The [pred] and [succ] dicts of the search: a node to the node it was
    reached from, [None] for the end the search started at. *)
Definition tree := dict (option pystr).

Inductive scan :=
| Next (mine : tree) (fringe : list pystr)
| Meet (mine : tree) (w : pystr).

(** [for w in nbrs: if w not in mine: fringe.append(w); mine[w] = v
                   if w in other: return ...] *)
Fixpoint scan_nbrs (v : pystr) (nbrs : list pystr)
    (mine other : tree) (fringe : list pystr) : scan :=
  match nbrs with
  | [] => Next mine fringe
  | w :: nbrs' =>
      let mine' := if dict_contains mine w then mine else dict_set mine w (Some v) in
      let fringe' := if dict_contains mine w then fringe else fringe ++ [w] in
      if dict_contains other w then Meet mine' w
      else scan_nbrs v nbrs' mine' other fringe'
  end.

(** [for v in this_level: for w in adj[v]: ...] *)
Fixpoint scan_level (adj : adjacency) (this_level : list pystr)
    (mine other : tree) (fringe : list pystr) : result scan :=
  match this_level with
  | [] => Ok (Next mine fringe)
  | v :: level' =>
      nbrs <- dict_item adj v ;;
      match scan_nbrs v (dict_keys nbrs) mine other fringe with
      | Meet mine' w => Ok (Meet mine' w)
      | Next mine' fringe' => scan_level adj level' mine' other fringe'
      end
  end.

Definition no_path (source target : pystr) : exn :=
  mk_exn NetworkXNoPath
    (py "No path between " ++ source ++ py " and " ++ target ++ py ".").

Definition loop_bound : exn := mk_exn LoopBound [].

(** [while forward_fringe and reverse_fringe: ...], one unfolding per
    iteration; after the loop, [raise NetworkXNoPath]. *)
Fixpoint search (fuel : nat) (G : DiGraph) (source target : pystr)
    (pred succ : tree) (forward_fringe reverse_fringe : list pystr)
  : result (tree * tree * pystr) :=
  match forward_fringe, reverse_fringe with
  | [], _ | _, [] => Raise (no_path source target)
  | _, _ =>
      match fuel with
      | O => Raise loop_bound
      | S fuel' =>
          if length forward_fringe <=? length reverse_fringe then
            r <- scan_level (g_succ G) forward_fringe pred succ [] ;;
            match r with
            | Meet pred' w => Ok (pred', succ, w)
            | Next pred' fringe' =>
                search fuel' G source target pred' succ fringe' reverse_fringe
            end
          else
            r <- scan_level (g_pred G) reverse_fringe succ pred [] ;;
            match r with
            | Meet succ' w => Ok (pred, succ', w)
            | Next succ' fringe' =>
                search fuel' G source target pred succ' forward_fringe fringe'
            end
      end
  end.

(** [_bidirectional_pred_succ(G, source, target)] *)
Definition bidirectional_pred_succ (G : DiGraph) (source target : pystr)
  : result (tree * tree * pystr) :=
  if str_eqb target source then
    Ok ([(target, None)], [(source, None)], source)
  else
    search (2 * number_of_nodes G) G source target
           [(source, None)] [(target, None)] [source] [target].

(** [while w is not None: path.append(w); w = t[w]] *)
Fixpoint walk (fuel : nat) (t : tree) (w : option pystr) (path : list pystr)
  : result (list pystr) :=
  match w with
  | None => Ok path
  | Some x =>
      match fuel with
      | O => Raise loop_bound
      | S fuel' =>
          nxt <- dict_item t x ;;
          walk fuel' t nxt (path ++ [x])
      end
  end.

(** [path[-1]] *)
Definition last_item (path : list pystr) : result pystr :=
  match rev path with
  | x :: _ => Ok x
  | [] => Raise (mk_exn IndexError (py "list index out of range"))
  end.

Definition not_in_G (source target : pystr) : exn :=
  mk_exn NodeNotFound
    (py "Either source " ++ source ++ py " or target " ++ target ++ py " is not in G").

(** [nx.bidirectional_shortest_path(G, source, target)] *)
Definition bidirectional_shortest_path (G : DiGraph) (source target : pystr)
  : result (list pystr) :=
  if negb (contains G source) || negb (contains G target) then
    Raise (not_in_G source target)
  else
    '(pred, succ, w) <- bidirectional_pred_succ G source target ;;
    path <- walk (length pred) pred (Some w) [] ;;
    let path := rev path in
    l <- last_item path ;;
    w' <- dict_item succ l ;;
    walk (length succ) succ w' path.

(** [nx.shortest_path(G, source, target)]: no weight, so the unweighted
    method. *)
Definition shortest_path (G : DiGraph) (source target : pystr)
  : result (list pystr) :=
  bidirectional_shortest_path G source target.

(** ** [nx.degree_centrality(G)]

    [if len(G) <= 1: return {n: 1 for n in G}
     s = 1.0 / (len(G) - 1.0)
     return {n: d * s for n, d in G.degree()}]

    [len(G)] and [d] are ints, made floats by the subtraction and the
    product; the subtraction, the division and the product each round. *)
Definition degree_centrality (G : DiGraph) : result (dict pyval) :=
  if number_of_nodes G <=? 1 then
    Ok (List.map (fun n => (n, PInt 1)) (nodes G))
  else
    let s := float_div 1 (float_sub (float_of_int (Z.of_nat (number_of_nodes G))) 1) in
    ds <- degree G ;;
    Ok (List.map (fun '(n, d) => (n, PFloat (float_mul (float_of_int (Z.of_nat d)) s)))
                 ds).

(** ** The invariant of a [DiGraph] object and directed paths *)

(** [adj[u][v]] when both keys are there. *)
Definition adj_get (adj : adjacency) (u v : pystr) : option attrs :=
  match dict_get adj u with
  | Some nbrs => dict_get nbrs v
  | None => None
  end.

(** What the methods of the class maintain: the three dicts have the same
    keys in the same order, and [_pred] mirrors [_succ] with the same data
    dict. *)
Record wf (G : DiGraph) : Prop := mk_wf {
  wf_succ_keys : dict_keys (g_succ G) = dict_keys (g_node G);
  wf_pred_keys : dict_keys (g_pred G) = dict_keys (g_node G);
  wf_mirror : forall u v, adj_get (g_succ G) u v = adj_get (g_pred G) v u
}.

(** There is an edge from [u] to [v]. *)
Definition has_edge (G : DiGraph) (u v : pystr) : Prop :=
  adj_get (g_succ G) u v <> None.

(** [x :: rest] follows edges of [G] from each node to the next. *)
Fixpoint follows_edges (G : DiGraph) (x : pystr) (rest : list pystr) : Prop :=
  match rest with
  | [] => True
  | y :: rest' => has_edge G x y /\ follows_edges G y rest'
  end.

(** [p] is a directed path of [G] from [source] to [target]. *)
Definition path_between (G : DiGraph) (source target : pystr) (p : list pystr)
  : Prop :=
  exists rest,
    p = source :: rest /\ last p source = target /\ follows_edges G source rest.

(** [target] can be reached from [source] along edges. *)
Definition reachable (G : DiGraph) (source target : pystr) : Prop :=
  exists p, path_between G source target p.

(** ** The shape of the search dicts

    [pred] (and [succ]) is a tree rooted at the end its search started
    from: the root maps to [None], and every later entry maps a new node
    to a node already in the dict, from which it was reached along [E]. *)
Inductive tree_ok (E : pystr -> pystr -> Prop) (root : pystr) : tree -> Prop :=
| tree_root : tree_ok E root [(root, None)]
| tree_grow (t : tree) (v w : pystr) :
    tree_ok E root t ->
    dict_contains t v = true ->
    dict_contains t w = false ->
    E v w ->
    tree_ok E root (t ++ [(w, Some v)]).

(** [x :: rest] climbs the tree: each node is followed by the node it was
    reached from. *)
Fixpoint climbs (E : pystr -> pystr -> Prop) (x : pystr) (rest : list pystr)
  : Prop :=
  match rest with
  | [] => True
  | y :: rest' => E y x /\ climbs E y rest'
  end.

(** [w] is a neighbour of [v] in the adjacency [adj]. *)
Definition nbr_in (adj : adjacency) (v w : pystr) : Prop :=
  adj_get adj v w <> None.

(** Each element of [l] is related to the next one. *)
Fixpoint chain (R : pystr -> pystr -> Prop) (l : list pystr) : Prop :=
  match l with
  | x :: l' =>
      match l' with
      | y :: _ => R x y /\ chain R l'
      | [] => True
      end
  | [] => True
  end.

(** Every key of [t] is a key of [t']. *)
Definition sub_dict {V W} (t : dict V) (t' : dict W) : Prop :=
  forall k, dict_contains t k = true -> dict_contains t' k = true.

(** Every node of [l] is a key of [t]. *)
Definition all_in {V} (l : list pystr) (t : dict V) : Prop :=
  forall x, In x l -> dict_contains t x = true.

(** Every neighbour recorded in [adj] is itself a key of [adj]. *)
Definition closed (adj : adjacency) : Prop :=
  forall v w, nbr_in adj v w -> dict_contains adj w = true.

(** What a scan of neighbours establishes, from the dict [mine] and the
    fringe it started with. *)
Definition scan_post (adj : adjacency) (root : pystr)
    (other mine : tree) (fringe : list pystr) (r : scan) : Prop :=
  match r with
  | Next mine' fringe' =>
      tree_ok (nbr_in adj) root mine'
      /\ sub_dict mine mine'
      /\ all_in fringe' mine'
      /\ sub_dict mine' adj
      /\ length mine' + length fringe = length mine + length fringe'
  | Meet mine' w =>
      tree_ok (nbr_in adj) root mine'
      /\ sub_dict mine mine'
      /\ sub_dict mine' adj
      /\ dict_contains mine' w = true
      /\ dict_contains other w = true
  end.

(** What the search returns when it returns: two trees that meet in [w]. *)
Definition meet_ok (G : DiGraph) (source target : pystr)
    (r : tree * tree * pystr) : Prop :=
  let '(pred, succ, w) := r in
  tree_ok (nbr_in (g_succ G)) source pred
  /\ tree_ok (nbr_in (g_pred G)) target succ
  /\ dict_contains pred w = true
  /\ dict_contains succ w = true.

(** The label the service reads off an edge's data dict:
    [data.get('relationship', 'unknown')]. *)
Definition relationship_of (data : attrs) : pystr :=
  dict_get_default data (py "relationship") (py "unknown").

(** The label of the edge from [u] to [v], when there is one. *)
Definition edge_label (G : DiGraph) (u v : pystr) : option pystr :=
  option_map relationship_of (adj_get (g_succ G) u v).

(** The graph [add_edge] leaves behind. *)
Definition with_edge (G : DiGraph) (u v : pystr) (attr : attrs) : DiGraph :=
  snd (add_edge u v attr G).

(** The data dict [add_edge] stores: the former one, or a new one, updated. *)
Definition stored_data (G : DiGraph) (u v : pystr) (attr : attrs) : attrs :=
  dict_update
    (match adj_get (g_succ G) u v with Some dd => dd | None => [] end) attr.

(** [len(self._succ[n])] and [len(self._pred[n])]: the number of edges out
    of [n] and into [n]. *)
Definition out_degree (G : DiGraph) (n : pystr) : nat :=
  length (dict_get_default (g_succ G) n []).

Definition in_degree (G : DiGraph) (n : pystr) : nat :=
  length (dict_get_default (g_pred G) n []).

(** The sum of the degrees of all nodes, and half of it. *)
Definition total_degree (G : DiGraph) : nat :=
  list_sum (List.map (fun n => out_degree G n + in_degree G n) (nodes G)).

Definition edge_count (G : DiGraph) : nat := Nat.div (total_degree G) 2.

End Nx.

(* ================================================================== *)
(** * pandas: the frame [pd.read_csv] hands to the loader *)
(* ================================================================== *)

Module Pd.

(** A value of a frame read from a CSV file: text, a missing value, or a
    number or boolean of a column that parsed as such. *)
Inductive cell :=
| CStr (s : pystr)
| CNaN
| CInt (z : Z)
| CFloat (repr : pystr)   (* a float other than nan, with its [str] *)
| CBool (b : bool).

(** [str(x)] *)
Definition str_of_cell (x : cell) : pystr :=
  match x with
  | CStr s => s
  | CNaN => py "nan"
  | CInt z => str_of_Z z
  | CFloat repr => repr
  | CBool true => py "True"
  | CBool false => py "False"
  end.

Record DataFrame := mk_DataFrame {
  columns : list pystr;
  rows : list (list cell)
}.

(** [row[col]] for a row of [df.iterrows()]: the cell under the column
    labelled [col]. *)
Fixpoint row_item (cols : list pystr) (row : list cell) (col : pystr)
  : result cell :=
  match cols, row with
  | c :: cols', x :: row' =>
      if str_eqb col c then Ok x else row_item cols' row' col
  | _, _ => Raise (mk_exn KeyError (py "'" ++ col ++ py "'"))
  end.

(** [df.iterrows()] with the default [RangeIndex]. *)
Definition iterrows (df : DataFrame) : list (nat * list cell) :=
  combine (seq 0 (length (rows df))) (rows df).

(** The fields [read_csv] takes for missing by default
    ([keep_default_na=True], no [na_values]). *)
Definition default_na_values : list pystr :=
  [ []; py "#N/A"; py "#N/A N/A"; py "#NA"; py "-1.#IND"; py "-1.#QNAN";
    py "-NaN"; py "-nan"; py "1.#IND"; py "1.#QNAN"; py "<NA>"; py "N/A";
    py "NA"; py "NULL"; py "NaN"; py "None"; py "n/a"; py "nan"; py "null" ].

(** A field of a text column as [read_csv] stores it: a missing-value
    marker becomes NaN, anything else stays the text of the field. *)
Definition read_text_field (field : pystr) : cell :=
  if existsb (str_eqb field) default_na_values then CNaN else CStr field.

(** [pd.read_csv] on a file whose records all have one field per header
    column and whose columns are text columns (each holds a field that is
    neither a number, a boolean nor a missing-value marker, so that no
    column is converted to a numeric or boolean dtype). *)
Definition read_csv_text (header : list pystr) (records : list (list pystr))
  : DataFrame :=
  mk_DataFrame header (List.map (List.map read_text_field) records).

End Pd.

(* ================================================================== *)
(** * Flask: [jsonify] and what a view function returns *)
(* ================================================================== *)

Module Flask.

(** [jsonify(v)]: a [Response] with status 200 whose body is [v]
    serialised; [TypeError] when [v] holds an object [json.dumps] does not
    know. *)
Definition jsonify (v : pyval) : result pyval :=
  match first_unserializable v with
  | None => Ok (PResponse 200 v)
  | Some bad =>
      Raise (mk_exn TypeError
               (py "Object of type " ++ type_name bad
                ++ py " is not JSON serializable"))
  end.

(** The value a view function returns: [return r] or [return r, status]. *)
Inductive view_return :=
| Resp (r : pyval)
| RespStatus (r : pyval) (status : nat).

(** A view's return value as a Python object: the response, or the tuple. *)
Definition as_value (r : view_return) : pyval :=
  match r with
  | Resp r => r
  | RespStatus r status => PList [r; PInt (Z.of_nat status)]
  end.

(** The status and the JSON body the client receives. *)
Definition sent (r : view_return) : option (nat * pyval) :=
  match r with
  | Resp (PResponse status body) => Some (status, body)
  | RespStatus (PResponse _ body) status => Some (status, body)
  | _ => None
  end.

(** An uploaded file of [request.files]: its name and what
    [pd.read_csv(file)] makes of its content. *)
Record FileStorage := mk_FileStorage {
  filename : pystr;
  read_csv : result Pd.DataFrame
}.

End Flask.

(* ================================================================== *)
(** * The application: backend_code-app.py *)
(* ================================================================== *)

Module App.

Import Nx Pd Flask.

(** ** Code that reads and writes the global [knowledge_graph]

    A computation takes the graph the global is bound to and gives its
    outcome and the graph it leaves; what was written before an exception
    stays written. *)
Definition M (A : Type) := DiGraph -> result A * DiGraph.

Definition ret {A} (a : A) : M A := fun G => (Ok a, G).

Definition mbind {A B} (m : M A) (f : A -> M B) : M B :=
  fun G =>
    match m G with
    | (Ok a, G') => f a G'
    | (Raise e, G') => (Raise e, G')
    end.

(** A computation that does not touch the graph. *)
Definition lift {A} (r : result A) : M A := fun G => (r, G).

(** A read of the graph. *)
Definition read {A} (f : DiGraph -> A) : M A := fun G => (Ok (f G), G).

(** A read of the graph that can raise. *)
Definition read_r {A} (f : DiGraph -> result A) : M A := fun G => (f G, G).

(** [knowledge_graph = G'] *)
Definition rebind (G' : DiGraph) : M unit := fun _ => (Ok tt, G').

(** [try: m  except Exception as e: h e] *)
Definition catch {A} (m : M A) (h : exn -> M A) : M A :=
  fun G =>
    match m G with
    | (Ok a, G') => (Ok a, G')
    | (Raise e, G') => h e G'
    end.

Declare Scope M_scope.
Delimit Scope M_scope with M.
Notation "x <~ m ;; k" := (mbind m (fun x => k))
  (at level 61, m at next level, right associativity) : M_scope.
Notation "' pat <~ m ;; k" :=
  (mbind m (fun x => match x with pat => k end))
  (at level 61, pat pattern, m at next level, right associativity) : M_scope.
Notation "m ;;; k" := (mbind m (fun _ => k))
  (at level 61, right associativity) : M_scope.
Local Open Scope M_scope.

(** A view function: the graph before, the value returned (or the
    exception that escapes the view) and the graph after. *)
Definition view := M view_return.

(** ** Sample data *)

Definition sample_relationships : list (pystr * pystr * pystr) :=
  [ (py "John Doe", py "enrolled_in", py "Computer Science");
    (py "John Doe", py "advised_by", py "Dr. Smith");
    (py "Jane Smith", py "enrolled_in", py "Computer Science");
    (py "Jane Smith", py "advised_by", py "Dr. Smith");
    (py "Dr. Smith", py "teaches", py "Machine Learning");
    (py "Dr. Smith", py "belongs_to", py "Computer Science");
    (py "Dr. Johnson", py "teaches", py "Data Structures");
    (py "Dr. Johnson", py "belongs_to", py "Computer Science");
    (py "Machine Learning", py "offered_by", py "Computer Science");
    (py "Data Structures", py "offered_by", py "Computer Science");
    (py "Computer Science", py "part_of", py "Engineering Department");
    (py "Research Group A", py "led_by", py "Dr. Smith");
    (py "John Doe", py "member_of", py "Research Group A") ].

(** The keyword argument [relationship=relationship] of [add_edge]. *)
Definition relationship_attr (relationship : pystr) : attrs :=
  [(py "relationship", relationship)].

(** [for entity1, relationship, entity2 in rels:
       knowledge_graph.add_edge(entity1, entity2, relationship=relationship)] *)
Fixpoint add_all (rels : list (pystr * pystr * pystr)) : M unit :=
  match rels with
  | [] => ret tt
  | (entity1, relationship, entity2) :: rels' =>
      add_edge entity1 entity2 (relationship_attr relationship) ;;;
      add_all rels'
  end.

Definition initialize_sample_data : M nat :=
  add_all sample_relationships ;;;
  ret (length sample_relationships).

(** The graph after the module is loaded:
    [knowledge_graph = nx.DiGraph(); initialize_sample_data()]. *)
Definition knowledge_graph : DiGraph := snd (initialize_sample_data Nx.empty).

(** ** Helper: the visualisation snapshot *)

Definition node_entry (node : pystr) : pyval :=
  PDict [ (py "id", PStr node);
          (py "label", PStr node);
          (py "title", PStr (py "Entity: " ++ node)) ].

Definition edge_entry (e : pystr * pystr * attrs) : pyval :=
  let '(source, target, data) := e in
  let relationship := dict_get_default data (py "relationship") (py "unknown") in
  PDict [ (py "from", PStr source);
          (py "to", PStr target);
          (py "label", PStr relationship);
          (py "arrows", PStr (py "to"));
          (py "title",
           PStr (source ++ py " --[" ++ relationship ++ py "]--> " ++ target)) ].

Definition get_graph_data_dict (G : DiGraph) : dict pyval :=
  try_except
    (let nodes := List.map node_entry (Nx.nodes G) in
     let edges := List.map edge_entry (Nx.edges G) in
     total_edges <- number_of_edges G ;;
     Ok [ (py "success", PBool true);
          (py "nodes", PList nodes);
          (py "edges", PList edges);
          (py "stats",
           PDict [ (py "total_nodes", PInt (Z.of_nat (number_of_nodes G)));
                   (py "total_edges", PInt (Z.of_nat total_edges)) ]) ])%result
    (fun e =>
       [ (py "success", PBool false);
         (py "message", PStr (py "Error getting graph data: " ++ exn_str e)) ]).

(** [return jsonify(payload), status] *)
Definition respond (status : nat) (payload : pyval) : M view_return :=
  r <~ lift (jsonify payload) ;;
  ret (RespStatus r status).

(** The [except Exception as e] clause every route ends with. *)
Definition internal_error (prefix : string) (e : exn) : M view_return :=
  respond 500
    (PDict [ (py "success", PBool false);
             (py "message", PStr (py prefix ++ exn_str e)) ]).

(** ** Route: POST /api/add_relationship *)

(** [request_json] is what [request.json] evaluates to: the parsed body, or
    the exception werkzeug raises for a body that is not JSON. *)
Definition add_relationship (request_json : result pyval) : view :=
  catch
    (data <~ lift request_json ;;
     v1 <~ lift (py_get data (py "entity1") (PStr [])) ;;
     entity1 <~ lift (py_strip v1) ;;
     v2 <~ lift (py_get data (py "relationship") (PStr [])) ;;
     relationship <~ lift (py_strip v2) ;;
     v3 <~ lift (py_get data (py "entity2") (PStr [])) ;;
     entity2 <~ lift (py_strip v3) ;;
     if is_empty entity1 || is_empty relationship || is_empty entity2 then
       respond 400
         (PDict [ (py "success", PBool false);
                  (py "message",
                   PStr (py "All fields (Entity 1, Relationship, Entity 2) are required")) ])
     else
       add_edge entity1 entity2 (relationship_attr relationship) ;;;
       graph_data <~ read get_graph_data_dict ;;
       r <~ lift (jsonify
              (PDict [ (py "success", PBool true);
                       (py "message",
                        PStr (py "Relationship added: " ++ entity1 ++ py " --["
                              ++ relationship ++ py "]--> " ++ entity2));
                       (py "graph_data", PDict graph_data) ])) ;;
       ret (Resp r))
    (internal_error "Error adding relationship: ").

(** ** Route: POST /api/upload_csv *)

Definition required_columns : list pystr :=
  [py "Entity1"; py "Relationship"; py "Entity2"].

(** The body of the [try] of one row; returns whether the row was added. *)
Definition import_row (cols : list pystr) (row : list cell) : M bool :=
  c1 <~ lift (row_item cols row (py "Entity1")) ;;
  let entity1 := strip (str_of_cell c1) in
  c2 <~ lift (row_item cols row (py "Relationship")) ;;
  let relationship := strip (str_of_cell c2) in
  c3 <~ lift (row_item cols row (py "Entity2")) ;;
  let entity2 := strip (str_of_cell c3) in
  if negb (is_empty entity1) && negb (is_empty relationship)
     && negb (is_empty entity2) then
    add_edge entity1 entity2 (relationship_attr relationship) ;;;
    ret true
  else ret false.

(** [for index, row in df.iterrows(): try: ... except Exception as e:
       errors.append(f'Row {index + 1}: {str(e)}')] *)
Fixpoint import_rows (cols : list pystr) (rs : list (nat * list cell))
    (added_count : nat) (errors : list pystr) : M (nat * list pystr) :=
  match rs with
  | [] => ret (added_count, errors)
  | (index, row) :: rs' =>
      '(added_count', errors') <~
        catch (added <~ import_row cols row ;;
               ret (if added : bool then added_count + 1 else added_count, errors))
              (fun e =>
                 ret (added_count,
                      errors ++ [py "Row " ++ str_of_nat (index + 1)
                                 ++ py ": " ++ exn_str e])) ;;
      import_rows cols rs' added_count' errors'
  end.

(** [files] is [request.files]. *)
Definition upload_csv (files : dict FileStorage) : view :=
  catch
    (match dict_get files (py "file") with
     | None =>
         respond 400
           (PDict [ (py "success", PBool false);
                    (py "message", PStr (py "No file provided")) ])
     | Some file =>
         if is_empty (filename file) then
           respond 400
             (PDict [ (py "success", PBool false);
                      (py "message", PStr (py "No file selected")) ])
         else
           df <~ lift (read_csv file) ;;
           if negb (forallb (fun col => existsb (str_eqb col) (columns df))
                            required_columns) then
             respond 400
               (PDict [ (py "success", PBool false);
                        (py "message",
                         PStr (py "CSV must contain columns: "
                               ++ join (py ", ") required_columns)) ])
           else
             '(added_count, errors) <~
               import_rows (columns df) (iterrows df) 0 [] ;;
             graph_data <~ read get_graph_data_dict ;;
             r <~ lift (jsonify
                    (PDict [ (py "success", PBool true);
                             (py "message",
                              PStr (py "Successfully added " ++ str_of_nat added_count
                                    ++ py " relationships from CSV"));
                             (py "added_count", PInt (Z.of_nat added_count));
                             (py "errors",
                              match errors with
                              | [] => PNone
                              | _ => PList (List.map PStr errors)
                              end);
                             (py "graph_data", PDict graph_data) ])) ;;
             ret (Resp r)
     end)
    (internal_error "Error processing CSV: ").

(** ** Route: POST /api/query *)

Section Query.

(** [nx.betweenness_centrality]: a function of the graph to a dict of
    floats, called for its value only; the query echoes it. *)
Variable betweenness_centrality : DiGraph -> dict Q.

Definition neighbor_entry (entity relationship : pystr) : pyval :=
  PDict [ (py "entity", PStr entity); (py "relationship", PStr relationship) ].

(** [[{'entity': pred,
       'relationship': knowledge_graph[pred][entity].get('relationship', 'unknown')}
      for pred in predecessors]] *)
Fixpoint incoming (G : DiGraph) (entity : pystr) (predecessors : list pystr)
  : result (list pyval) :=
  match predecessors with
  | [] => Ok []
  | pred :: rest =>
      data <- edge_data G pred entity ;;
      entries <- incoming G entity rest ;;
      Ok (neighbor_entry pred
            (dict_get_default data (py "relationship") (py "unknown")) :: entries)
  end%result.

(** [[{'entity': succ,
       'relationship': knowledge_graph[entity][succ].get('relationship', 'unknown')}
      for succ in successors]] *)
Fixpoint outgoing (G : DiGraph) (entity : pystr) (successors : list pystr)
  : result (list pyval) :=
  match successors with
  | [] => Ok []
  | succ :: rest =>
      data <- edge_data G entity succ ;;
      entries <- outgoing G entity rest ;;
      Ok (neighbor_entry succ
            (dict_get_default data (py "relationship") (py "unknown")) :: entries)
  end%result.

Definition neighbors (G : DiGraph) (entity : pystr) : result pyval :=
  (predecessors <- Nx.predecessors G entity ;;
   successors <- Nx.successors G entity ;;
   inc <- incoming G entity predecessors ;;
   out <- outgoing G entity successors ;;
   Ok (PDict [ (py "incoming", PList inc); (py "outgoing", PList out) ]))%result.

(** [for target in knowledge_graph.nodes():
       if target != entity:
         try: paths[target] = nx.shortest_path(knowledge_graph, entity, target)
         except nx.NetworkXNoPath: pass] *)
Fixpoint collect_paths (G : DiGraph) (entity : pystr) (targets : list pystr)
    (paths : dict (list pystr)) : result (dict (list pystr)) :=
  match targets with
  | [] => Ok paths
  | target :: rest =>
      if negb (str_eqb target entity) then
        match shortest_path G entity target with
        | Ok path => collect_paths G entity rest (dict_set paths target path)
        | Raise e =>
            if exn_class_eqb (exn_cls e) NetworkXNoPath
            then collect_paths G entity rest paths
            else Raise e
        end
      else collect_paths G entity rest paths
  end.

Definition shortest_paths (G : DiGraph) (entity : pystr)
  : result (dict (list pystr)) :=
  collect_paths G entity (Nx.nodes G) [].

Definition paths_value (paths : dict (list pystr)) : pyval :=
  PDict (List.map (fun '(target, path) => (target, PList (List.map PStr path)))
                  paths).

Definition centrality (G : DiGraph) (entity : pystr) : result pyval :=
  (degree_centrality <- Nx.degree_centrality G ;;
   let betweenness := betweenness_centrality G in
   Ok (PDict
         [ (py "degree", dict_get_default degree_centrality entity (PInt 0));
           (py "betweenness",
            match dict_get betweenness entity with
            | Some b => PFloat b
            | None => PInt 0
            end) ]))%result.

(** The three [if query_type == ... or query_type == 'all'] blocks. *)
Definition query_results (G : DiGraph) (query_type : pyval) (entity : pystr)
  : result (dict pyval) :=
  (let results := [] in
   results <-
     (if eq_str query_type (py "neighbors") || eq_str query_type (py "all") then
        n <- neighbors G entity ;;
        Ok (dict_set results (py "neighbors") n)
      else Ok results) ;;
   results <-
     (if eq_str query_type (py "shortest_path") || eq_str query_type (py "all") then
        if 1 <? length (Nx.nodes G) then
          paths <- shortest_paths G entity ;;
          Ok (dict_set results (py "shortest_paths") (paths_value paths))
        else Ok results
      else Ok results) ;;
   results <-
     (if eq_str query_type (py "centrality") || eq_str query_type (py "all") then
        c <- centrality G entity ;;
        Ok (dict_set results (py "centrality") c)
      else Ok results) ;;
   Ok results)%result.

(** The double quote of [f'Entity "{entity}" not found in the graph']. *)
Definition dquote : pystr := [34%N].

Definition query_graph (request_json : result pyval) : view :=
  catch
    (data <~ lift request_json ;;
     query_type <~ lift (py_get data (py "query_type") (PStr [])) ;;
     v <~ lift (py_get data (py "entity") (PStr [])) ;;
     entity <~ lift (py_strip v) ;;
     if is_empty entity then
       respond 400
         (PDict [ (py "success", PBool false);
                  (py "message", PStr (py "Entity name is required for query")) ])
     else
       present <~ read (fun G => contains G entity) ;;
       if negb present then
         respond 404
           (PDict [ (py "success", PBool false);
                    (py "message",
                     PStr (py "Entity " ++ dquote ++ entity ++ dquote
                           ++ py " not found in the graph")) ])
       else
         results <~ read_r (fun G => query_results G query_type entity) ;;
         r <~ lift (jsonify
                (PDict [ (py "success", PBool true);
                         (py "entity", PStr entity);
                         (py "query_type", query_type);
                         (py "results", PDict results) ])) ;;
         ret (Resp r))
    (internal_error "Error querying graph: ").

(** ** Route: GET /api/graph_data *)

Definition get_graph_data : view :=
  data <~ read get_graph_data_dict ;;
  success <~ lift (dict_item data (py "success")) ;;
  if truthy success then
    r <~ lift (jsonify (PDict data)) ;;
    ret (Resp r)
  else respond 500 (PDict data).

(** ** Route: POST /api/clear_graph *)

Definition clear_graph : view :=
  catch
    (node_count <~ read number_of_nodes ;;
     edge_count <~ read_r number_of_edges ;;
     rebind Nx.empty ;;;
     initialize_sample_data ;;;
     graph_data <~ get_graph_data ;;
     r <~ lift (jsonify
            (PDict [ (py "success", PBool true);
                     (py "message",
                      PStr (py "Graph cleared and reset. Removed "
                            ++ str_of_nat node_count ++ py " nodes and "
                            ++ str_of_nat edge_count ++ py " edges."));
                     (py "graph_data", as_value graph_data) ])) ;;
     ret (Resp r))
    (internal_error "Error clearing graph: ").

(** ** The service as a whole

    The requests that reach the graph (GET / serves a file and
    GET /api/graph_stats only reads the graph; neither is needed below). *)
Inductive request :=
| AddRelationship (request_json : result pyval)
| UploadCsv (files : dict FileStorage)
| QueryGraph (request_json : result pyval)
| GetGraphData
| ClearGraph.

Definition serve (r : request) : view :=
  match r with
  | AddRelationship request_json => add_relationship request_json
  | UploadCsv files => upload_csv files
  | QueryGraph request_json => query_graph request_json
  | GetGraphData => get_graph_data
  | ClearGraph => clear_graph
  end.

(** The graph after a sequence of requests. *)
Fixpoint serve_all (rs : list request) (G : DiGraph) : DiGraph :=
  match rs with
  | [] => G
  | r :: rs' => serve_all rs' (snd (serve r G))
  end.

End Query.

End App.

(* ================================================================== *)
(** * Specification-side definitions *)
(* ================================================================== *)

Module Spec.
Import Nx Pd Flask.
(** The request body [d] carries the text [s] under [key]: the field is a
    string, or is left out, which the handlers read as the empty string. *)
Definition text_field (d : dict pyval) (key : string) (s : pystr) : Prop :=
  dict_get_default d (py key) (PStr []) = PStr s.

(** The entry of the snapshot's edge list for an edge from [source] to
    [target] labelled [relationship]. *)
Definition edge_record (source relationship target : pystr) : pyval :=
  PDict [ (py "from", PStr source);
          (py "to", PStr target);
          (py "label", PStr relationship);
          (py "arrows", PStr (py "to"));
          (py "title",
           PStr (source ++ py " --[" ++ relationship ++ py "]--> " ++ target)) ].

(** The snapshot of a graph whose edge count can be read. *)
Definition snapshot (G : DiGraph) : dict pyval :=
  [ (py "success", PBool true);
    (py "nodes", PList (List.map App.node_entry (nodes G)));
    (py "edges", PList (List.map App.edge_entry (edges G)));
    (py "stats",
     PDict [ (py "total_nodes", PInt (Z.of_nat (number_of_nodes G)));
             (py "total_edges", PInt (Z.of_nat (edge_count G))) ]) ].

(** ** Queries for unknown entities

    The query for [entity] of type [query_type] is answered with status
    404. *)
Definition answers_not_found
    (betweenness_centrality : DiGraph -> dict Q) (G : DiGraph)
    (entity query_type : pystr) : Prop :=
  exists r body,
    fst (App.query_graph betweenness_centrality
           (Ok (PDict [ (py "entity", PStr entity);
                        (py "query_type", PStr query_type) ]))
           G) = Ok r
    /\ sent r = Some (404, body).

(** ** Bulk import: the file of the example

    [Entity1,Relationship,Entity2 / X,y,Z / ,bad,Q]: the second record has
    an empty first field. *)
Definition example_csv : FileStorage :=
  mk_FileStorage (py "rows.csv")
    (Ok (read_csv_text
           [py "Entity1"; py "Relationship"; py "Entity2"]
           [ [py "X"; py "y"; py "Z"];
             [[]; py "bad"; py "Q"] ])).

(** ** Degree centrality as the specification words it

    [n] is another entity joined to [entity] by an edge in either
    direction. *)
Definition connected (G : DiGraph) (entity n : pystr) : bool :=
  negb (str_eqb n entity)
  && (match adj_get (g_succ G) entity n with Some _ => true | None => false end
      || match adj_get (g_succ G) n entity with Some _ => true | None => false end).

(** The number of other entities joined to [entity], over the number of
    other entities. *)
Definition connected_fraction (G : DiGraph) (entity : pystr) : Q :=
  (inject_Z (Z.of_nat (length (filter (connected G entity) (nodes G))))
   / inject_Z (Z.of_nat (number_of_nodes G - 1)))%Q.

(** The request of a centrality query for [entity]. *)
Definition centrality_request (entity : pystr) : result pyval :=
  Ok (PDict [ (py "entity", PStr entity);
              (py "query_type", PStr (py "centrality")) ]).

(** The [degree] value in the answer to a centrality query. *)
Definition reported_degree (r : result view_return) : option pyval :=
  match r with
  | Ok (Resp (PResponse _ (PDict body))) =>
      match dict_get body (py "results") with
      | Some (PDict results) =>
          match dict_get results (py "centrality") with
          | Some (PDict c) => dict_get c (py "degree")
          | _ => None
          end
      | _ => None
      end
  | _ => None
  end.

(** The [outgoing] list in the answer to a neighbours query. *)
Definition reported_outgoing (r : result view_return) : option (list pyval) :=
  match r with
  | Ok (Resp (PResponse _ (PDict body))) =>
      match dict_get body (py "results") with
      | Some (PDict results) =>
          match dict_get results (py "neighbors") with
          | Some (PDict n) =>
              match dict_get n (py "outgoing") with
              | Some (PList out) => Some out
              | _ => None
              end
          | _ => None
          end
      | _ => None
      end
  | _ => None
  end.

(** The claim as worded: the degree value reported for [entity] is the
    connected fraction. *)
Definition degree_is_connected_fraction
    (betweenness_centrality : DiGraph -> dict Q) (G : DiGraph) (entity : pystr)
  : Prop :=
  exists q,
    reported_degree
      (fst (App.query_graph betweenness_centrality (centrality_request entity) G))
    = Some (PFloat q)
    /\ (q == connected_fraction G entity)%Q.

(** The seeded graph with one more relationship, from Dr. Smith back to
    John Doe, who is advised by Dr. Smith. *)
Definition reciprocal_graph : DiGraph :=
  snd (App.add_relationship
         (Ok (PDict [ (py "entity1", PStr (py "Dr. Smith"));
                      (py "relationship", PStr (py "advises"));
                      (py "entity2", PStr (py "John Doe")) ]))
         App.knowledge_graph).

(** What [nx.degree_centrality] gives a node: one for a graph of at most
    one node, else the number of edges out of and into the node times the
    float [1.0 / (n - 1.0)], the product being rounded in its turn. *)
Definition degree_value (G : DiGraph) (entity : pystr) : pyval :=
  if number_of_nodes G <=? 1 then PInt 1
  else PFloat
         (float_mul
            (float_of_int (Z.of_nat (out_degree G entity + in_degree G entity)))
            (float_div 1
               (float_sub (float_of_int (Z.of_nat (number_of_nodes G))) 1))).

(** The paths a query collects are directed paths from the entity to
    entities other than itself. *)
Definition paths_ok (G : DiGraph) (entity : pystr) (paths : dict (list pystr))
  : Prop :=
  forall t p, dict_get paths t = Some p ->
              t <> entity /\ path_between G entity t p.

(** A computation leaves the graph as it found it. *)
Definition read_only {A} (m : App.M A) : Prop :=
  forall G, snd (m G) = G.

(** A computation on the graph keeps it well-formed. *)
Definition keeps_wf {A} (m : App.M A) : Prop :=
  forall G, wf G -> wf (snd (m G)).

(** The edges of a graph as (source, label, target). *)
Definition label_triples (G : DiGraph) : list (pystr * pystr * pystr) :=
  List.map (fun '(u, v, dd) => (u, relationship_of dd, v)) (edges G).

End Spec.

(* ================================================================== *)
(** * The remaining route and the invariants of the reachable graphs *)
(* ================================================================== *)

Module Ext.

Import Nx Pd Flask App Spec.
Local Open Scope M_scope.

(** ** Route: GET /api/graph_stats *)

(** [nx.density(G)] on a directed graph:
    [n = number_of_nodes(G); m = number_of_edges(G)
     if m == 0 or n <= 1: return 0
     return m / (n * (n - 1))] *)
Definition density (G : DiGraph) : result pyval :=
  (let n := number_of_nodes G in
   m <- number_of_edges G ;;
   if (m =? 0) || (n <=? 1) then Ok (PInt 0)
   else Ok (PFloat (inject_Z (Z.of_nat m) / inject_Z (Z.of_nat (n * (n - 1))))%Q))%result.

(** [dict(pairs)] *)
Definition dict_of_pairs {V} (pairs : list (pystr * V)) : dict V :=
  fold_left (fun acc kv => dict_set acc (fst kv) (snd kv)) pairs [].

(** [sum(dict(G.degree()).values()) / G.number_of_nodes()
     if G.number_of_nodes() > 0 else 0] *)
Definition average_degree (G : DiGraph) : result pyval :=
  (if 0 <? number_of_nodes G then
     ds <- degree G ;;
     Ok (PFloat (inject_Z (Z.of_nat (list_sum (List.map snd (dict_of_pairs ds))))
                 / inject_Z (Z.of_nat (number_of_nodes G)))%Q)
   else Ok (PInt 0))%result.

Section Stats.

(** [nx.is_weakly_connected]: a function of the graph that returns a
    boolean or raises (it raises on the graph with no node); the route
    reports its value. *)
Variable is_weakly_connected : DiGraph -> result bool.

Definition get_graph_stats : view :=
  catch
    (total_nodes <~ read number_of_nodes ;;
     total_edges <~ read_r number_of_edges ;;
     is_connected <~ read_r is_weakly_connected ;;
     d <~ read_r density ;;
     avg <~ read_r average_degree ;;
     r <~ lift (jsonify
            (PDict [ (py "success", PBool true);
                     (py "stats",
                      PDict [ (py "total_nodes", PInt (Z.of_nat total_nodes));
                              (py "total_edges", PInt (Z.of_nat total_edges));
                              (py "is_connected", PBool is_connected);
                              (py "density", d);
                              (py "average_degree", avg) ]) ])) ;;
     ret (Resp r))
    (internal_error "Error getting graph stats: ").

End Stats.

(** ** What the routes store *)

(** A name as the routes store it: not empty, and trimmed. *)
Definition clean_name (s : pystr) : Prop := s <> [] /\ strip s = s.

(** The graphs made from the seeded graph by adding edges whose two
    entities and label are clean names. *)
Inductive built : DiGraph -> Prop :=
| built_seed : built knowledge_graph
| built_add (G : DiGraph) (entity1 relationship entity2 : pystr) :
    built G ->
    clean_name entity1 -> clean_name relationship -> clean_name entity2 ->
    built (with_edge G entity1 entity2 (relationship_attr relationship)).

(** A computation on the graph keeps [P]. *)
Definition keeps (P : DiGraph -> Prop) {A} (m : M A) : Prop :=
  forall G, P G -> P (snd (m G)).

(** The number of neighbour entries of an adjacency. *)
Definition entries_total (adj : adjacency) : nat :=
  list_sum (List.map (fun e => length (snd e)) adj).

(** A well-formed graph whose dicts have no repeated key, with as many
    entries in [_pred] as in [_succ]. *)
Record tidy (G : DiGraph) : Prop := mk_tidy {
  tidy_wf : wf G;
  tidy_nodes : NoDup (nodes G);
  tidy_succ : forall u nbrs, In (u, nbrs) (g_succ G) -> NoDup (dict_keys nbrs);
  tidy_pred : forall v nbrs, In (v, nbrs) (g_pred G) -> NoDup (dict_keys nbrs);
  tidy_balance : entries_total (g_pred G) = entries_total (g_succ G)
}.

(** Every node is a clean name. *)
Definition named (G : DiGraph) : Prop :=
  forall n, In n (nodes G) -> clean_name n.

(** Every edge carries a [relationship] attribute that is a clean name. *)
Definition labelled (G : DiGraph) : Prop :=
  forall u v dd,
    adj_get (g_succ G) u v = Some dd ->
    exists r, dict_get dd (py "relationship") = Some r /\ clean_name r.

(** [G'] has every node and every edge of [G]. *)
Definition extends (G G' : DiGraph) : Prop :=
  (forall n, contains G n = true -> contains G' n = true)
  /\ (forall u v, has_edge G u v -> has_edge G' u v).

(** The (source, target) pairs of the edges, in the order of the snapshot. *)
Definition edge_pairs (G : DiGraph) : list (pystr * pystr) :=
  List.map (fun '(u, v, _) => (u, v)) (edges G).

(** ** Bulk import, row by row *)

(** The body a POST /api/add_relationship would carry for a row. *)
Definition row_request (cols : list pystr) (row : list cell) : result pyval :=
  (c1 <- row_item cols row (py "Entity1") ;;
   c2 <- row_item cols row (py "Relationship") ;;
   c3 <- row_item cols row (py "Entity2") ;;
   Ok (PDict [ (py "entity1", PStr (str_of_cell c1));
               (py "relationship", PStr (str_of_cell c2));
               (py "entity2", PStr (str_of_cell c3)) ]))%result.

(** The frame has the three columns the loader reads. *)
Definition has_required_columns (df : DataFrame) : bool :=
  forallb (fun col => existsb (str_eqb col) (columns df)) required_columns.

(** The edge a request to POST /api/add_relationship asks for: the three
    trimmed fields, when the body is an object whose three fields are text
    that is not blank. *)
Definition requested_edge (request_json : result pyval)
  : option (pystr * pystr * pystr) :=
  match request_json with
  | Ok (PDict d) =>
      match dict_get_default d (py "entity1") (PStr []),
            dict_get_default d (py "relationship") (PStr []),
            dict_get_default d (py "entity2") (PStr []) with
      | PStr s1, PStr s2, PStr s3 =>
          if is_empty (strip s1) || is_empty (strip s2) || is_empty (strip s3)
          then None
          else Some (strip s1, strip s2, strip s3)
      | _, _, _ => None
      end
  | _ => None
  end.

(** The graph with the requested edge, if any. *)
Definition apply_request (G : DiGraph) (request_json : result pyval) : DiGraph :=
  match requested_edge request_json with
  | Some (e1, r, e2) => with_edge G e1 e2 (relationship_attr r)
  | None => G
  end.

(** The frame an upload is read into, when the request passes the checks
    of the route: a file under [file], with a name, that pandas reads,
    with the three columns. *)
Definition accepted_frame (files : dict FileStorage) : option DataFrame :=
  match dict_get files (py "file") with
  | Some file =>
      if is_empty (filename file) then None
      else match read_csv file with
           | Ok df => if has_required_columns df then Some df else None
           | Raise _ => None
           end
  | None => None
  end.

(** The three cells of the row are text that is not blank. *)
Definition row_filled (cols : list pystr) (row : list cell) : bool :=
  match row_item cols row (py "Entity1"), row_item cols row (py "Relationship"),
        row_item cols row (py "Entity2") with
  | Ok c1, Ok c2, Ok c3 =>
      negb (is_empty (strip (str_of_cell c1)))
      && negb (is_empty (strip (str_of_cell c2)))
      && negb (is_empty (strip (str_of_cell c3)))
  | _, _, _ => false
  end.

(** The three cells of a row can be read. *)
Definition readable (cols : list pystr) (row : list cell) : Prop :=
  exists c1 c2 c3,
    row_item cols row (py "Entity1") = Ok c1
    /\ row_item cols row (py "Relationship") = Ok c2
    /\ row_item cols row (py "Entity2") = Ok c3.

(** Every row has a cell for every column. *)
Definition rectangular (df : DataFrame) : Prop :=
  forall row, In row (rows df) -> length row = length (columns df).

(** The [added_count] and the [errors] of an upload's answer. *)
Definition reported_import (r : result view_return) : option (pyval * pyval) :=
  match r with
  | Ok (Resp (PResponse 200 (PDict body))) =>
      match dict_get body (py "added_count"), dict_get body (py "errors") with
      | Some n, Some e => Some (n, e)
      | _, _ => None
      end
  | _ => None
  end.

(** The status of an answer. *)
Definition status_of (r : result view_return) : option nat :=
  match r with
  | Ok v => option_map fst (sent v)
  | Raise _ => None
  end.

(** ** Distances in the search

    [b] is reached from [a] in [n] steps along [E]. *)
Inductive hops (E : pystr -> pystr -> Prop) (a : pystr) : pystr -> nat -> Prop :=
| hops_here : hops E a a 0
| hops_step b c n : hops E a b n -> E b c -> hops E a c (S n).

(** The number of entries of a search dict one climbs from [x] to the
    entry that maps to [None]. *)
Inductive at_depth (t : tree) : pystr -> nat -> Prop :=
| depth_root r : dict_get t r = Some None -> at_depth t r 0
| depth_child x v n :
    dict_get t x = Some (Some v) -> at_depth t v n -> at_depth t x (S n).

(** Between two levels of the search: the dict holds every node within
    [D] steps of the root, at a depth of at most [D], and the nodes off
    the fringe lie strictly below [D]. *)
Definition covered (adj : adjacency) (root : pystr) (mine : tree)
    (fringe : list pystr) (D : nat) : Prop :=
  (forall x, dict_contains mine x = true ->
             exists n, at_depth mine x n /\ n <= D /\ (~ In x fringe -> S n <= D))
  /\ (forall x n, hops (nbr_in adj) root x n -> n <= D ->
                  dict_contains mine x = true).

(** While a level is scanned: the nodes found in this scan are on the new
    fringe, one step deeper. *)
Definition growing (D : nat) (mine : tree) (fringe : list pystr) : Prop :=
  forall x, dict_contains mine x = true ->
            exists n, at_depth mine x n /\ n <= S D /\ (~ In x fringe -> n <= D).

(** The two search dicts share no node. *)
Definition apart (mine other : tree) : Prop :=
  forall x, dict_contains mine x = true -> dict_contains other x = false.

(** [p] is a directed path from [source] to [target] and no directed path
    between the two has fewer nodes. *)
Definition shortest_between (G : DiGraph) (source target : pystr)
    (p : list pystr) : Prop :=
  path_between G source target p
  /\ forall q, path_between G source target q -> length p <= length q.

(** The [results] of a query's answer. *)
Definition reported_results (r : result view_return) : option (dict pyval) :=
  match r with
  | Ok (Resp (PResponse 200 (PDict body))) =>
      match dict_get body (py "results") with
      | Some (PDict results) => Some results
      | _ => None
      end
  | _ => None
  end.

(** The request body of a query. *)
Definition query_request (entity query_type : pystr) : result pyval :=
  Ok (PDict [ (py "entity", PStr entity); (py "query_type", PStr query_type) ]).

(** The graph the service holds after the requests [rs], from start-up. *)
Definition reached (betweenness_centrality : DiGraph -> dict Q)
    (rs : list request) : DiGraph :=
  serve_all betweenness_centrality rs knowledge_graph.

(** The text a query is asked with: the [entity] field of a JSON object,
    when it is a string (or is left out, which reads as the empty
    string). *)
Definition entity_text (request_json : result pyval) : option pystr :=
  match request_json with
  | Ok (PDict d) =>
      match dict_get_default d (py "entity") (PStr []) with
      | PStr s => Some s
      | _ => None
      end
  | _ => None
  end.

End Ext.

(* ================================================================== *)
(** * Facts about strings and dictionaries *)
(* ================================================================== *)

Module PyFacts.

Lemma str_eqb_eq (a b : pystr) : str_eqb a b = true <-> a = b.
Proof.
  unfold str_eqb. destruct (list_eq_dec N.eq_dec a b); split; congruence.
Qed.

Lemma str_eqb_refl (a : pystr) : str_eqb a a = true.
Proof. now apply str_eqb_eq. Qed.

Lemma str_eqb_neq (a b : pystr) : str_eqb a b = false <-> a <> b.
Proof.
  unfold str_eqb. destruct (list_eq_dec N.eq_dec a b); split; congruence.
Qed.

Lemma str_eqb_sym (a b : pystr) : str_eqb a b = str_eqb b a.
Proof.
  destruct (str_eqb b a) eqn:E.
  - apply str_eqb_eq in E. subst. apply str_eqb_refl.
  - apply str_eqb_neq in E. apply str_eqb_neq. congruence.
Qed.

Lemma is_empty_nil (s : pystr) : is_empty s = true <-> s = [].
Proof. destruct s; simpl; split; congruence. Qed.

Lemma is_empty_false (s : pystr) : is_empty s = false <-> s <> [].
Proof. destruct s; simpl; split; congruence. Qed.

(** ** Trimming *)

Lemma lstrip_head (s : pystr) (c : N) (t : pystr) :
  lstrip s = c :: t -> is_space c = false.
Proof.
  induction s as [|a s IH]; cbn [lstrip]; [discriminate|].
  destruct (is_space a) eqn:E; [exact IH|].
  intros [= <- <-]. exact E.
Qed.

Lemma lstrip_fixed (c : N) (t : pystr) :
  is_space c = false -> lstrip (c :: t) = c :: t.
Proof. intros H. cbn [lstrip]. now rewrite H. Qed.

Lemma lstrip_idempotent (s : pystr) : lstrip (lstrip s) = lstrip s.
Proof.
  destruct (lstrip s) as [|c t] eqn:E; [reflexivity|].
  apply lstrip_fixed. exact (lstrip_head s c t E).
Qed.

Lemma lstrip_snoc (l : pystr) (c : N) :
  is_space c = false -> exists l', lstrip (l ++ [c]) = l' ++ [c].
Proof.
  intros H. induction l as [|a l IH].
  - exists []. cbn. now rewrite H.
  - cbn [app lstrip]. destruct (is_space a); [exact IH|].
    now exists (a :: l).
Qed.

Lemma rstrip_idempotent (s : pystr) : rstrip (rstrip s) = rstrip s.
Proof.
  unfold rstrip. now rewrite rev_involutive, lstrip_idempotent.
Qed.

(** Trimming the right end leaves a trimmed left end trimmed. *)
Lemma lstrip_rstrip (c : N) (t : pystr) :
  is_space c = false -> lstrip (rstrip (c :: t)) = rstrip (c :: t).
Proof.
  intros H. unfold rstrip. cbn [rev].
  destruct (lstrip_snoc (rev t) c H) as (l' & ->).
  rewrite rev_app_distr. cbn [rev app]. now apply lstrip_fixed.
Qed.

(** [s.strip().strip() == s.strip()] *)
Lemma strip_idempotent (s : pystr) : strip (strip s) = strip s.
Proof.
  unfold strip. destruct (lstrip s) as [|c t] eqn:E; [reflexivity|].
  rewrite (lstrip_rstrip c t (lstrip_head s c t E)).
  apply rstrip_idempotent.
Qed.

Section Dict.
Context {V : Type}.
Implicit Types (d : dict V) (k : pystr) (v : V).

Lemma dict_get_set_same d k v : dict_get (dict_set d k v) k = Some v.
Proof.
  induction d as [|[k' v'] d IH]; simpl.
  - now rewrite str_eqb_refl.
  - destruct (str_eqb k k') eqn:E; simpl; rewrite E; auto.
Qed.

Lemma dict_get_set_other d k k' v :
  k <> k' -> dict_get (dict_set d k v) k' = dict_get d k'.
Proof.
  intros Hne. induction d as [|[k0 v0] d IH]; simpl.
  - assert (str_eqb k' k = false) as -> by (apply str_eqb_neq; congruence).
    reflexivity.
  - destruct (str_eqb k k0) eqn:E; simpl.
    + apply str_eqb_eq in E. subst k0.
      assert (str_eqb k' k = false) as -> by (apply str_eqb_neq; congruence).
      reflexivity.
    + destruct (str_eqb k' k0); auto.
Qed.

Lemma dict_get_set d k k' v :
  dict_get (dict_set d k v) k' = if str_eqb k' k then Some v else dict_get d k'.
Proof.
  destruct (str_eqb k' k) eqn:E.
  - apply str_eqb_eq in E. subst. apply dict_get_set_same.
  - apply str_eqb_neq in E. apply dict_get_set_other. congruence.
Qed.

Lemma dict_contains_In d k : dict_contains d k = true <-> In k (dict_keys d).
Proof.
  unfold dict_contains. induction d as [|[k' v'] d IH]; simpl.
  - split; [discriminate | tauto].
  - destruct (str_eqb k k') eqn:E.
    + apply str_eqb_eq in E. subst. tauto.
    + apply str_eqb_neq in E. rewrite IH. split; [tauto|].
      intros [H|H]; [congruence | assumption].
Qed.

Lemma dict_contains_not_In d k : dict_contains d k = false <-> ~ In k (dict_keys d).
Proof.
  rewrite <- dict_contains_In. destruct (dict_contains d k); split; congruence.
Qed.

Lemma dict_get_Some_contains d k v : dict_get d k = Some v -> dict_contains d k = true.
Proof. unfold dict_contains. now intros ->. Qed.

Lemma dict_get_None_contains d k : dict_get d k = None <-> dict_contains d k = false.
Proof. unfold dict_contains. destruct (dict_get d k); split; congruence. Qed.

Lemma dict_contains_get d k : dict_contains d k = true -> exists v, dict_get d k = Some v.
Proof. unfold dict_contains. destruct (dict_get d k); [eauto | discriminate]. Qed.

Lemma dict_get_In d k v : dict_get d k = Some v -> In (k, v) d.
Proof.
  induction d as [|[k' v'] d IH]; simpl; [discriminate|].
  destruct (str_eqb k k') eqn:E.
  - apply str_eqb_eq in E. subst. intros [= ->]. now left.
  - intros H. right. auto.
Qed.

Lemma dict_set_present d k v :
  dict_contains d k = true -> dict_keys (dict_set d k v) = dict_keys d.
Proof.
  unfold dict_contains.
  induction d as [|[k' v'] d IH]; simpl; [discriminate|].
  destruct (str_eqb k k') eqn:E; simpl; [reflexivity|].
  intros H. now rewrite IH.
Qed.

Lemma dict_set_absent d k v :
  dict_contains d k = false -> dict_set d k v = d ++ [(k, v)].
Proof.
  unfold dict_contains.
  induction d as [|[k' v'] d IH]; simpl; [reflexivity|].
  destruct (str_eqb k k') eqn:E; simpl; [discriminate|].
  intros H. now rewrite IH.
Qed.

Lemma dict_set_length_present d k v :
  dict_contains d k = true -> length (dict_set d k v) = length d.
Proof.
  intros H. pose proof (dict_set_present d k v H) as E.
  apply (f_equal (@length _)) in E.
  unfold dict_keys in E. now rewrite !length_map in E.
Qed.

Lemma dict_contains_set d k k' v :
  dict_contains (dict_set d k v) k' = str_eqb k' k || dict_contains d k'.
Proof.
  unfold dict_contains. rewrite dict_get_set.
  destruct (str_eqb k' k); reflexivity.
Qed.

Lemma dict_get_app_l d d' k :
  dict_contains d k = true -> dict_get (d ++ d') k = dict_get d k.
Proof.
  unfold dict_contains.
  induction d as [|[k' v'] d IH]; simpl; [discriminate|].
  destruct (str_eqb k k'); auto.
Qed.

Lemma dict_get_app_r d d' k :
  dict_contains d k = false -> dict_get (d ++ d') k = dict_get d' k.
Proof.
  unfold dict_contains.
  induction d as [|[k' v'] d IH]; simpl; [reflexivity|].
  destruct (str_eqb k k'); [discriminate | auto].
Qed.

Lemma dict_item_Ok d k v : dict_get d k = Some v -> dict_item d k = Ok v.
Proof. unfold dict_item. now intros ->. Qed.

End Dict.

(** ** Floats *)

(** [1 / 10] rounds to the float [0.1]. *)
Example round64_tenth :
  round64 (1 # 10) = (3602879701896397 # 36028797018963968)%Q.
Proof. vm_compute. reflexivity. Qed.

(** [3 * (1.0 / (11 - 1.0))] is [0.30000000000000004], one step above the
    float nearest to [3 / 10]: the product is of the rounded quotient. *)
Example product_of_rounded_quotient :
  float_mul (float_of_int 3) (float_div 1 (float_sub (float_of_int 11) 1))
  = (1351079888211149 # 4503599627370496)%Q
  /\ round64 (3 # 10) = (5404319552844595 # 18014398509481984)%Q.
Proof. split; vm_compute; reflexivity. Qed.

End PyFacts.

(* ================================================================== *)
(** * Facts about the graph object *)
(* ================================================================== *)

Module NxFacts.

Import Nx PyFacts.

Lemma contains_keys {V W} (d : dict V) (d' : dict W) (k : pystr) :
  dict_keys d = dict_keys d' -> dict_contains d k = dict_contains d' k.
Proof.
  intros E. destruct (dict_contains d' k) eqn:H.
  - apply dict_contains_In. rewrite E. now apply dict_contains_In.
  - apply dict_contains_not_In. rewrite E. now apply dict_contains_not_In.
Qed.

Lemma wf_contains_succ G n (W : wf G) : dict_contains (g_succ G) n = contains G n.
Proof. apply contains_keys, W. Qed.

Lemma wf_contains_pred G n (W : wf G) : dict_contains (g_pred G) n = contains G n.
Proof. apply contains_keys, W. Qed.

Lemma adj_get_set (adj : adjacency) u v nbrs dd x y
    (Hu : dict_get adj u = Some nbrs) :
  adj_get (dict_set adj u (dict_set nbrs v dd)) x y
  = if str_eqb x u && str_eqb y v then Some dd else adj_get adj x y.
Proof.
  unfold adj_get. rewrite dict_get_set.
  destruct (str_eqb x u) eqn:Ex; simpl.
  - apply str_eqb_eq in Ex. subst x. rewrite Hu, dict_get_set.
    destruct (str_eqb y v); reflexivity.
  - reflexivity.
Qed.

Lemma adj_get_fresh (adj : adjacency) u x y :
  dict_contains adj u = false ->
  adj_get (dict_set adj u []) x y = adj_get adj x y.
Proof.
  intros Hu. unfold adj_get. rewrite dict_get_set.
  destruct (str_eqb x u) eqn:Ex; [|reflexivity].
  apply str_eqb_eq in Ex. subst x.
  apply dict_get_None_contains in Hu. now rewrite Hu.
Qed.

Lemma adj_get_contains_l (adj : adjacency) u v dd :
  adj_get adj u v = Some dd -> dict_contains adj u = true.
Proof.
  unfold adj_get, dict_contains. destruct (dict_get adj u); [auto | discriminate].
Qed.

Lemma wf_empty : wf Nx.empty.
Proof. split; reflexivity. Qed.

Lemma keys_set_fresh {V} (d : dict V) k v :
  dict_contains d k = false -> dict_keys (dict_set d k v) = dict_keys d ++ [k].
Proof.
  intros H. rewrite (dict_set_absent _ _ _ H). unfold dict_keys.
  now rewrite map_app.
Qed.

Lemma add_missing_node_wf G u : wf G -> wf (add_missing_node G u).
Proof.
  intros W. unfold add_missing_node.
  destruct (dict_contains (g_succ G) u) eqn:Hu; [assumption|].
  assert (Hn : dict_contains (g_node G) u = false)
    by (rewrite <- Hu; symmetry; apply contains_keys, W).
  assert (Hp : dict_contains (g_pred G) u = false)
    by (rewrite <- Hu; apply contains_keys; rewrite (wf_pred_keys _ W); symmetry; apply W).
  split; simpl.
  - rewrite !keys_set_fresh by assumption. now rewrite (wf_succ_keys _ W).
  - rewrite !keys_set_fresh by assumption. now rewrite (wf_pred_keys _ W).
  - intros x y. rewrite !adj_get_fresh by assumption. apply W.
Qed.

Lemma add_missing_node_contains G u n :
  wf G -> contains (add_missing_node G u) n = str_eqb n u || contains G n.
Proof.
  intros W. unfold add_missing_node.
  destruct (dict_contains (g_succ G) u) eqn:Hu.
  - destruct (str_eqb n u) eqn:E; [|reflexivity].
    apply str_eqb_eq in E. subst. simpl.
    now rewrite <- (wf_contains_succ _ u W).
  - unfold contains; simpl. apply dict_contains_set.
Qed.

Lemma add_missing_node_adj G u x y :
  adj_get (g_succ (add_missing_node G u)) x y = adj_get (g_succ G) x y.
Proof.
  unfold add_missing_node.
  destruct (dict_contains (g_succ G) u) eqn:Hu; [reflexivity|].
  simpl. now apply adj_get_fresh.
Qed.

Lemma add_edge_spec G u v attr :
  wf G ->
  add_edge u v attr G = (Ok tt, with_edge G u v attr)
  /\ wf (with_edge G u v attr)
  /\ (forall x y,
        adj_get (g_succ (with_edge G u v attr)) x y
        = if str_eqb x u && str_eqb y v then Some (stored_data G u v attr)
          else adj_get (g_succ G) x y)
  /\ (forall n, contains (with_edge G u v attr) n
                = str_eqb n u || str_eqb n v || contains G n).
Proof.
  intros W. unfold with_edge, add_edge.
  set (G1 := add_missing_node (add_missing_node G u) v).
  assert (W1 : wf G1) by (apply add_missing_node_wf, add_missing_node_wf, W).
  assert (C1 : forall n, contains G1 n = str_eqb n u || str_eqb n v || contains G n).
  { intros n. unfold G1. rewrite add_missing_node_contains
      by (apply add_missing_node_wf, W).
    rewrite add_missing_node_contains by assumption.
    destruct (str_eqb n u), (str_eqb n v); reflexivity. }
  assert (A1 : forall x y, adj_get (g_succ G1) x y = adj_get (g_succ G) x y).
  { intros x y. unfold G1. now rewrite !add_missing_node_adj. }
  assert (Hu : dict_contains (g_succ G1) u = true).
  { rewrite (wf_contains_succ _ u W1), C1, str_eqb_refl. reflexivity. }
  assert (Hv : dict_contains (g_pred G1) v = true).
  { rewrite (wf_contains_pred _ v W1), C1, str_eqb_refl.
    now rewrite orb_true_r. }
  destruct (dict_contains_get _ _ Hu) as [nbrs_u Eu].
  destruct (dict_contains_get _ _ Hv) as [nbrs_v Ev].
  set (dd := dict_update (dict_get_default nbrs_u v []) attr).
  assert (D : stored_data G u v attr = dd).
  { unfold stored_data, dd. rewrite <- A1. unfold adj_get, dict_get_default.
    now rewrite Eu. }
  rewrite D.
  unfold dict_item. rewrite Eu. cbn [g_pred g_succ g_node]. rewrite Ev.
  cbn [snd g_pred g_succ g_node]. fold dd.
  split; [reflexivity|]. split; [|split].
  - split; cbn [g_pred g_succ g_node].
    + rewrite dict_set_present by assumption. apply W1.
    + rewrite dict_set_present by assumption. apply W1.
    + intros x y. rewrite (adj_get_set _ _ v _ _ x y Eu), (adj_get_set _ _ u _ _ y x Ev).
      rewrite (andb_comm (str_eqb y v)).
      destruct (str_eqb x u && str_eqb y v); [reflexivity | apply W1].
  - intros x y. rewrite (adj_get_set _ _ v _ _ x y Eu), A1. reflexivity.
  - intros n. unfold contains. cbn [g_node]. apply C1.
Qed.

Lemma adj_get_In (adj : adjacency) u v dd :
  adj_get adj u v = Some dd ->
  exists nbrs, In (u, nbrs) adj /\ In (v, dd) nbrs.
Proof.
  unfold adj_get. destruct (dict_get adj u) as [nbrs|] eqn:E; [|discriminate].
  intros H. exists nbrs. split; now apply dict_get_In.
Qed.

Lemma edges_In G u v dd :
  adj_get (g_succ G) u v = Some dd -> In (u, v, dd) (edges G).
Proof.
  intros H. destruct (adj_get_In _ _ _ _ H) as (nbrs & H1 & H2).
  unfold edges. apply in_flat_map. exists (u, nbrs). split; [assumption|].
  apply in_map_iff. exists (v, dd). split; [reflexivity | assumption].
Qed.

(** ** Degrees and the number of edges *)

Lemma degree_of_ok G ns :
  (forall n, In n ns -> dict_contains (g_succ G) n = true
                        /\ dict_contains (g_pred G) n = true) ->
  degree_of G ns
  = Ok (List.map (fun n => (n, out_degree G n + in_degree G n)) ns).
Proof.
  induction ns as [|n ns IH]; intros H; [reflexivity|].
  cbn [degree_of List.map].
  destruct (H n (or_introl eq_refl)) as [Hs Hp].
  destruct (dict_contains_get _ _ Hs) as [succs Es].
  destruct (dict_contains_get _ _ Hp) as [preds Ep].
  unfold dict_item, out_degree, in_degree, dict_get_default.
  rewrite Es, Ep. cbn [bind].
  rewrite IH by (intros m Hm; apply H; now right).
  reflexivity.
Qed.

Lemma degree_ok G :
  wf G ->
  degree G = Ok (List.map (fun n => (n, out_degree G n + in_degree G n)) (nodes G)).
Proof.
  intros W. apply degree_of_ok. intros n Hn.
  rewrite (wf_contains_succ _ n W), (wf_contains_pred _ n W).
  unfold contains. split; apply dict_contains_In; exact Hn.
Qed.

Lemma number_of_edges_ok G :
  wf G -> number_of_edges G = Ok (edge_count G).
Proof.
  intros W. unfold number_of_edges, size. rewrite (degree_ok _ W). cbn [bind].
  unfold edge_count, total_degree. now rewrite map_map.
Qed.

(** ** Adding an edge between two nodes that are already joined *)

Lemma add_missing_node_present G u :
  dict_contains (g_succ G) u = true -> add_missing_node G u = G.
Proof. unfold add_missing_node. now intros ->. Qed.

Lemma get_set_length {V} (adj : dict (dict V)) u nbrs nbrs' n :
  dict_get adj u = Some nbrs ->
  length nbrs' = length nbrs ->
  length (dict_get_default (dict_set adj u nbrs') n [])
  = length (dict_get_default adj n []).
Proof.
  intros Hu Hl. unfold dict_get_default. rewrite dict_get_set.
  destruct (str_eqb n u) eqn:E; [|reflexivity].
  apply str_eqb_eq in E. subst n. now rewrite Hu.
Qed.

Lemma flat_map_set_length {V W} (f : pystr * dict V -> list W)
    (adj : dict (dict V)) u nbrs nbrs' :
  dict_get adj u = Some nbrs ->
  (forall k, length (f (k, nbrs')) = length (f (k, nbrs))) ->
  length (flat_map f (dict_set adj u nbrs')) = length (flat_map f adj).
Proof.
  intros Hu Hf. induction adj as [|[k nb] adj IH]; [discriminate|].
  cbn [dict_get] in Hu. cbn [dict_set].
  destruct (str_eqb u k) eqn:E.
  - injection Hu as ->. cbn [flat_map]. now rewrite !length_app, Hf.
  - cbn [flat_map]. rewrite !length_app. now rewrite IH.
Qed.

Lemma add_edge_existing G u v attr dd0 :
  wf G ->
  adj_get (g_succ G) u v = Some dd0 ->
  nodes (with_edge G u v attr) = nodes G
  /\ (forall n, out_degree (with_edge G u v attr) n = out_degree G n)
  /\ (forall n, in_degree (with_edge G u v attr) n = in_degree G n)
  /\ length (edges (with_edge G u v attr)) = length (edges G).
Proof.
  intros W He.
  assert (He' : adj_get (g_pred G) v u = Some dd0) by (now rewrite <- (wf_mirror _ W)).
  pose proof (adj_get_contains_l _ _ _ _ He) as Hu.
  pose proof (adj_get_contains_l _ _ _ _ He') as Hv.
  assert (Hv' : dict_contains (g_succ G) v = true).
  { rewrite (wf_contains_succ _ v W), <- (wf_contains_pred _ v W). exact Hv. }
  unfold with_edge, add_edge.
  rewrite (add_missing_node_present _ _ Hu), (add_missing_node_present _ _ Hv').
  destruct (dict_contains_get _ _ Hu) as [nbrs_u Eu].
  destruct (dict_contains_get _ _ Hv) as [nbrs_v Ev].
  unfold dict_item. rewrite Eu. cbn [g_pred g_succ g_node]. rewrite Ev.
  cbn [snd].
  assert (Lu : forall x, length (dict_set nbrs_u v x) = length nbrs_u).
  { intros x. apply dict_set_length_present. unfold adj_get in He.
    rewrite Eu in He. now apply dict_get_Some_contains in He. }
  assert (Lv : forall x, length (dict_set nbrs_v u x) = length nbrs_v).
  { intros x. apply dict_set_length_present. unfold adj_get in He'.
    rewrite Ev in He'. now apply dict_get_Some_contains in He'. }
  split; [reflexivity|]. split; [|split].
  - intros n. unfold out_degree. cbn [g_succ].
    now apply get_set_length with (nbrs := nbrs_u).
  - intros n. unfold in_degree. cbn [g_pred].
    now apply get_set_length with (nbrs := nbrs_v).
  - unfold edges. cbn [g_succ].
    apply flat_map_set_length with (nbrs := nbrs_u); [assumption|].
    intros k. now rewrite !length_map, Lu.
Qed.

Lemma add_edge_existing_count G u v attr dd0 :
  wf G ->
  adj_get (g_succ G) u v = Some dd0 ->
  edge_count (with_edge G u v attr) = edge_count G.
Proof.
  intros W He.
  destruct (add_edge_existing G u v attr dd0 W He) as (Hn & Ho & Hi & _).
  unfold edge_count, total_degree. rewrite Hn. f_equal. f_equal.
  apply map_ext. intros n. now rewrite Ho, Hi.
Qed.

(** The label [add_edge] stores is the one it was given. *)
Lemma stored_relationship G u v r :
  relationship_of (stored_data G u v [(py "relationship", r)]) = r.
Proof.
  unfold stored_data, dict_update, relationship_of, dict_get_default.
  cbn [fold_left fst snd]. now rewrite dict_get_set_same.
Qed.

(** ** The search trees of the bidirectional search *)

Lemma last_cons_default {A} (x : A) (l : list A) (d d' : A) :
  last (x :: l) d = last (x :: l) d'.
Proof.
  revert x. induction l as [|y l IH]; intros x; [reflexivity|].
  change (last (y :: l) d = last (y :: l) d'). apply IH.
Qed.

Section Trees.

Variable E : pystr -> pystr -> Prop.
Variable root : pystr.

Lemma tree_ok_root_in t : tree_ok E root t -> dict_contains t root = true.
Proof.
  induction 1 as [|t v w Ht IH Hv Hw He].
  - unfold dict_contains. cbn. now rewrite str_eqb_refl.
  - unfold dict_contains. rewrite dict_get_app_l by assumption. exact IH.
Qed.

Lemma tree_ok_NoDup t : tree_ok E root t -> NoDup (dict_keys t).
Proof.
  induction 1 as [|t v w Ht IH Hv Hw He].
  - cbn. constructor; [tauto | constructor].
  - unfold dict_keys in *. rewrite map_app. cbn [List.map fst].
    apply NoDup_app; [assumption | constructor; [tauto | constructor] |].
    intros x Hx [<-|[]]. apply dict_contains_not_In in Hw. contradiction.
Qed.

Lemma tree_ok_set t v w :
  tree_ok E root t -> dict_contains t v = true -> dict_contains t w = false ->
  E v w -> tree_ok E root (dict_set t w (Some v)).
Proof.
  intros Ht Hv Hw He. rewrite dict_set_absent by assumption.
  now constructor.
Qed.

(** Looking a node of [t] up in a longer dict gives what [t] gives. *)
Lemma walk_app fuel (t ext : tree) w acc p :
  walk fuel t w acc = Ok p -> walk fuel (t ++ ext) w acc = Ok p.
Proof.
  revert w acc. induction fuel as [|fuel IH]; intros [x|] acc; cbn [walk];
    try discriminate; try (intros H; exact H).
  unfold dict_item. destruct (dict_get t x) as [nxt|] eqn:Ex; [|discriminate].
  cbn [bind]. intros H.
  rewrite dict_get_app_l, Ex by (eapply dict_get_Some_contains; eassumption).
  cbn [bind]. now apply IH.
Qed.

(** Climbing from any node of the tree ends at the root, within as many
    steps as the tree has entries. *)
Lemma walk_tree t :
  tree_ok E root t ->
  forall w, dict_contains t w = true ->
  exists rest,
    (forall fuel acc, length t <= fuel ->
       walk fuel t (Some w) acc = Ok (acc ++ w :: rest))
    /\ last (w :: rest) w = root
    /\ climbs E w rest.
Proof.
  induction 1 as [|t v w0 Ht IH Hv Hw He]; intros w Hin.
  - assert (w = root) as ->.
    { unfold dict_contains in Hin. cbn in Hin.
      destruct (str_eqb w root) eqn:Ex; [now apply str_eqb_eq | discriminate]. }
    exists []. split; [|split; [reflexivity | exact I]].
    intros [|fuel] acc Hf; [cbn in Hf; lia|].
    cbn [walk]. unfold dict_item. cbn [dict_get]. rewrite str_eqb_refl.
    cbn [bind]. destruct fuel; reflexivity.
  - destruct (dict_contains t w) eqn:Hwt.
    + destruct (IH w Hwt) as (rest & Hwalk & Hlast & Hcl).
      exists rest. split; [|split; assumption].
      intros fuel acc Hf. apply walk_app. apply Hwalk.
      rewrite length_app in Hf. cbn in Hf. lia.
    + assert (w = w0) as ->.
      { unfold dict_contains in Hin, Hwt.
        rewrite dict_get_app_r in Hin by (unfold dict_contains; now rewrite <- Hwt; destruct (dict_get t w)).
        cbn in Hin. destruct (str_eqb w w0) eqn:Ex;
          [now apply str_eqb_eq | discriminate]. }
      destruct (IH v Hv) as (rest & Hwalk & Hlast & Hcl).
      exists (v :: rest). split; [|split].
      * intros [|fuel] acc Hf; [rewrite length_app in Hf; cbn in Hf; lia|].
        cbn [walk]. unfold dict_item.
        rewrite dict_get_app_r by assumption. cbn [dict_get].
        rewrite str_eqb_refl. cbn [bind].
        rewrite (walk_app fuel t [(w0, Some v)] (Some v) (acc ++ [w0])
                   ((acc ++ [w0]) ++ v :: rest)).
        -- now rewrite <- app_assoc.
        -- apply Hwalk. rewrite length_app in Hf. cbn in Hf. lia.
      * change (last (v :: rest) w0 = root).
        now rewrite (last_cons_default v rest w0 v).
      * cbn [climbs]. split; assumption.
Qed.

End Trees.

(** ** One level of the search *)

Lemma sub_dict_refl {V} (t : dict V) : sub_dict t t.
Proof. intros k H. exact H. Qed.

Lemma sub_dict_trans {U V W} (a : dict U) (b : dict V) (c : dict W) :
  sub_dict a b -> sub_dict b c -> sub_dict a c.
Proof. intros H1 H2 k H. apply H2, H1, H. Qed.

Lemma sub_dict_set {V} (t : dict V) k v : sub_dict t (dict_set t k v).
Proof.
  intros x H. rewrite dict_contains_set, H. apply orb_true_r.
Qed.

Lemma scan_nbrs_post adj root other v :
  closed adj ->
  forall nbrs mine fringe,
    (forall w, In w nbrs -> nbr_in adj v w) ->
    tree_ok (nbr_in adj) root mine ->
    dict_contains mine v = true ->
    all_in fringe mine ->
    sub_dict mine adj ->
    scan_post adj root other mine fringe (scan_nbrs v nbrs mine other fringe).
Proof.
  intros Hcl. induction nbrs as [|w nbrs IH]; intros mine fringe Hn Ht Hv Hf Hs.
  - cbn. repeat split; try assumption. apply sub_dict_refl.
  - cbn [scan_nbrs].
    set (mine' := if dict_contains mine w then mine else dict_set mine w (Some v)).
    set (fringe' := if dict_contains mine w then fringe else fringe ++ [w]).
    assert (Hw : nbr_in adj v w) by (apply Hn; now left).
    assert (Ht' : tree_ok (nbr_in adj) root mine').
    { unfold mine'. destruct (dict_contains mine w) eqn:Ew; [assumption|].
      now apply tree_ok_set. }
    assert (Hsub : sub_dict mine mine').
    { unfold mine'. destruct (dict_contains mine w);
        [apply sub_dict_refl | apply sub_dict_set]. }
    assert (Hw' : dict_contains mine' w = true).
    { unfold mine'. destruct (dict_contains mine w) eqn:Ew; [assumption|].
      rewrite dict_contains_set, str_eqb_refl. reflexivity. }
    assert (Hs' : sub_dict mine' adj).
    { unfold mine'. destruct (dict_contains mine w) eqn:Ew; [assumption|].
      intros k Hk. rewrite dict_contains_set in Hk.
      destruct (str_eqb k w) eqn:Ek.
      - apply str_eqb_eq in Ek. subst k. now apply (Hcl v).
      - apply Hs. exact Hk. }
    assert (Hf' : all_in fringe' mine').
    { unfold fringe'. destruct (dict_contains mine w) eqn:Ew.
      - intros x Hx. apply Hsub, Hf, Hx.
      - intros x Hx. apply in_app_or in Hx. destruct Hx as [Hx|[<-|[]]].
        + apply Hsub, Hf, Hx.
        + exact Hw'. }
    assert (Hlen : length mine' + length fringe = length mine + length fringe').
    { unfold mine', fringe'. destruct (dict_contains mine w) eqn:Ew; [reflexivity|].
      rewrite dict_set_absent by assumption. rewrite !length_app. cbn. lia. }
    destruct (dict_contains other w) eqn:Eo.
    + cbn. repeat split; assumption.
    + specialize (IH mine' fringe').
      assert (P : scan_post adj root other mine' fringe'
                    (scan_nbrs v nbrs mine' other fringe')).
      { apply IH; try assumption.
        - intros x Hx. apply Hn. now right.
        - apply Hsub, Hv. }
      destruct (scan_nbrs v nbrs mine' other fringe') as [m f|m x]; cbn in *.
      * destruct P as (P1 & P2 & P3 & P4 & P5).
        repeat split; try assumption; [eapply sub_dict_trans; eassumption | lia].
      * destruct P as (P1 & P2 & P3 & P4 & P5).
        repeat split; try assumption. eapply sub_dict_trans; eassumption.
Qed.

Lemma scan_level_post adj root other :
  closed adj ->
  forall level mine fringe,
    tree_ok (nbr_in adj) root mine ->
    all_in level mine ->
    all_in fringe mine ->
    sub_dict mine adj ->
    exists r,
      scan_level adj level mine other fringe = Ok r
      /\ scan_post adj root other mine fringe r.
Proof.
  intros Hcl. induction level as [|v level IH]; intros mine fringe Ht Hl Hf Hs.
  - eexists. split; [reflexivity|]. cbn. repeat split; try assumption.
    apply sub_dict_refl.
  - cbn [scan_level].
    assert (Hv : dict_contains mine v = true) by (apply Hl; now left).
    destruct (dict_contains_get _ _ (Hs v Hv)) as [nbrs En].
    unfold dict_item. rewrite En. cbn [bind].
    assert (P : scan_post adj root other mine fringe
                  (scan_nbrs v (dict_keys nbrs) mine other fringe)).
    { apply scan_nbrs_post; try assumption.
      intros w Hw. unfold nbr_in, adj_get. rewrite En.
      apply dict_contains_In in Hw. unfold dict_contains in Hw.
      destruct (dict_get nbrs w); [discriminate | discriminate]. }
    destruct (scan_nbrs v (dict_keys nbrs) mine other fringe) as [m f|m x].
    + cbn in P. destruct P as (P1 & P2 & P3 & P4 & P5).
      destruct (IH m f) as (r & Er & Pr); try assumption.
      { intros x Hx. apply P2, Hl. now right. }
      exists r. split; [assumption|].
      destruct r as [m' f'|m' x]; cbn in *.
      * destruct Pr as (Q1 & Q2 & Q3 & Q4 & Q5).
        repeat split; try assumption; [eapply sub_dict_trans; eassumption | lia].
      * destruct Pr as (Q1 & Q2 & Q3 & Q4 & Q5).
        repeat split; try assumption. eapply sub_dict_trans; eassumption.
    + eexists. split; [reflexivity | exact P].
Qed.

(** ** The search as a whole *)

Lemma wf_closed_succ G : wf G -> closed (g_succ G).
Proof.
  intros W v w H. unfold nbr_in in H. rewrite (wf_mirror _ W) in H.
  rewrite (wf_contains_succ _ w W), <- (wf_contains_pred _ w W).
  unfold adj_get in H. unfold dict_contains.
  destruct (dict_get (g_pred G) w); [reflexivity | congruence].
Qed.

Lemma wf_closed_pred G : wf G -> closed (g_pred G).
Proof.
  intros W v w H. unfold nbr_in in H. rewrite <- (wf_mirror _ W) in H.
  rewrite (wf_contains_pred _ w W), <- (wf_contains_succ _ w W).
  unfold adj_get in H. unfold dict_contains.
  destruct (dict_get (g_succ G) w); [reflexivity | congruence].
Qed.

Lemma tree_size E root (t : tree) {V} (adj : dict V) :
  tree_ok E root t -> sub_dict t adj -> length t <= length adj.
Proof.
  intros Ht Hs.
  rewrite <- (length_map fst t), <- (length_map fst adj).
  apply NoDup_incl_length; [exact (tree_ok_NoDup E root t Ht)|].
  intros k Hk. apply dict_contains_In, Hs, dict_contains_In, Hk.
Qed.

Lemma succ_size G : wf G -> length (g_succ G) = number_of_nodes G.
Proof.
  intros W. unfold number_of_nodes.
  rewrite <- (length_map fst (g_succ G)), <- (length_map fst (g_node G)).
  f_equal. apply W.
Qed.

Lemma pred_size G : wf G -> length (g_pred G) = number_of_nodes G.
Proof.
  intros W. unfold number_of_nodes.
  rewrite <- (length_map fst (g_pred G)), <- (length_map fst (g_node G)).
  f_equal. apply W.
Qed.

Lemma search_empty_l fuel G source target pred succ rf :
  search fuel G source target pred succ [] rf = Raise (no_path source target).
Proof. destruct fuel; reflexivity. Qed.

Lemma search_empty_r fuel G source target pred succ ff :
  search fuel G source target pred succ ff [] = Raise (no_path source target).
Proof. destruct fuel, ff; reflexivity. Qed.

(** The search returns two trees that meet, or raises [NetworkXNoPath]:
    its lookups never fail and the bound on its loop is never reached. *)
Lemma search_ok G source target :
  wf G ->
  forall fuel pred succ ff rf,
    tree_ok (nbr_in (g_succ G)) source pred ->
    tree_ok (nbr_in (g_pred G)) target succ ->
    all_in ff pred ->
    all_in rf succ ->
    sub_dict pred (g_succ G) ->
    sub_dict succ (g_pred G) ->
    2 * number_of_nodes G + 1 <= fuel + length pred + length succ ->
    (exists r, search fuel G source target pred succ ff rf = Ok r
               /\ meet_ok G source target r)
    \/ search fuel G source target pred succ ff rf = Raise (no_path source target).
Proof.
  intros W. induction fuel as [|fuel IH];
    intros pred succ ff rf Tp Ts Fp Fs Sp Ss Hfuel.
  - exfalso.
    pose proof (tree_size _ _ _ _ Tp Sp) as L1.
    pose proof (tree_size _ _ _ _ Ts Ss) as L2.
    rewrite (succ_size _ W) in L1. rewrite (pred_size _ W) in L2. lia.
  - destruct ff as [|f0 ff]; [right; apply search_empty_l|].
    destruct rf as [|r0 rf]; [right; apply search_empty_r|].
    cbn [search].
    destruct (length (f0 :: ff) <=? length (r0 :: rf)).
    + destruct (scan_level_post (g_succ G) source succ (wf_closed_succ _ W)
                  (f0 :: ff) pred [] Tp Fp) as (r & Er & Pr);
        [intros x [] | assumption |].
      rewrite Er. cbn [bind]. destruct r as [pred' ff'|pred' w]; cbn in Pr.
      * destruct Pr as (P1 & P2 & P3 & P4 & P5).
        destruct ff' as [|f1 ff']; [right; apply search_empty_l|].
        apply IH; try assumption. cbn [length] in P5. lia.
      * destruct Pr as (P1 & P2 & P3 & P4 & P5).
        left. eexists. split; [reflexivity|]. repeat split; assumption.
    + destruct (scan_level_post (g_pred G) target pred (wf_closed_pred _ W)
                  (r0 :: rf) succ [] Ts Fs) as (r & Er & Pr);
        [intros x [] | assumption |].
      rewrite Er. cbn [bind]. destruct r as [succ' rf'|succ' w]; cbn in Pr.
      * destruct Pr as (P1 & P2 & P3 & P4 & P5).
        destruct rf' as [|r1 rf']; [right; apply search_empty_r|].
        apply IH; try assumption. cbn [length] in P5. lia.
      * destruct Pr as (P1 & P2 & P3 & P4 & P5).
        left. eexists. split; [reflexivity|]. repeat split; assumption.
Qed.

Lemma singleton_tree E root : tree_ok E root [(root, None)].
Proof. constructor. Qed.

Lemma all_in_singleton {V} (x : pystr) (v : V) : all_in [x] [(x, v)].
Proof.
  intros y [<-|[]]. unfold dict_contains. cbn. now rewrite str_eqb_refl.
Qed.

Lemma sub_dict_singleton {V W} (x : pystr) (v : V) (adj : dict W) :
  dict_contains adj x = true -> sub_dict [(x, v)] adj.
Proof.
  intros H k Hk. unfold dict_contains in Hk. cbn in Hk.
  destruct (str_eqb k x) eqn:E; [|discriminate].
  apply str_eqb_eq in E. now subst.
Qed.

Lemma bidirectional_pred_succ_ok G source target :
  wf G -> contains G source = true -> contains G target = true ->
  (exists r, bidirectional_pred_succ G source target = Ok r
             /\ meet_ok G source target r)
  \/ bidirectional_pred_succ G source target = Raise (no_path source target).
Proof.
  intros W Hs Ht. unfold bidirectional_pred_succ.
  destruct (str_eqb target source) eqn:E.
  - apply str_eqb_eq in E. subst target. left. eexists. split; [reflexivity|].
    cbn. repeat split; try apply singleton_tree;
      unfold dict_contains; cbn; now rewrite str_eqb_refl.
  - apply search_ok; try assumption; try apply singleton_tree;
      try apply all_in_singleton.
    + apply sub_dict_singleton. now rewrite (wf_contains_succ _ source W).
    + apply sub_dict_singleton. now rewrite (wf_contains_pred _ target W).
    + cbn [length]. lia.
Qed.

(** ** From the two trees to the path *)

Lemma chain_app_mid R (l1 : list pystr) (w : pystr) (l2 : list pystr) :
  chain R (l1 ++ [w]) -> chain R (w :: l2) -> chain R (l1 ++ w :: l2).
Proof.
  induction l1 as [|x l1 IH]; intros H1 H2; [exact H2|].
  destruct l1 as [|y l1].
  - cbn in *. destruct H1 as [H1 _]. split; assumption.
  - change (chain R (x :: y :: (l1 ++ [w]))) in H1.
    change (chain R (x :: y :: (l1 ++ w :: l2))).
    cbn [chain] in H1 |- *. destruct H1 as [Hxy H1]. split; [assumption|].
    apply IH; assumption.
Qed.

Lemma chain_snoc R (l : list pystr) (x y : pystr) :
  chain R (l ++ [x]) -> R x y -> chain R ((l ++ [x]) ++ [y]).
Proof.
  intros H Hxy. rewrite <- app_assoc. cbn [app].
  apply chain_app_mid; [assumption|]. cbn. split; [assumption | exact I].
Qed.

(** A climb read backwards goes along [E]. *)
Lemma climbs_rev E (x : pystr) (rest : list pystr) :
  climbs E x rest -> chain E (rev (x :: rest)).
Proof.
  revert x. induction rest as [|y rest IH]; intros x H; [exact I|].
  cbn [climbs] in H. destruct H as [Hyx H].
  change (rev (x :: y :: rest)) with (rev (y :: rest) ++ [x]).
  specialize (IH y H). cbn [rev] in IH |- *.
  apply chain_snoc; assumption.
Qed.

Lemma climbs_chain E (R : pystr -> pystr -> Prop) (x : pystr) (rest : list pystr) :
  (forall a b, E b a -> R a b) -> climbs E x rest -> chain R (x :: rest).
Proof.
  intros H. revert x. induction rest as [|y rest IH]; intros x Hc; [exact I|].
  cbn [climbs] in Hc. destruct Hc as [Hyx Hc]. cbn [chain].
  split; [now apply H | now apply IH].
Qed.

Lemma chain_follows G (x : pystr) (rest : list pystr) :
  chain (has_edge G) (x :: rest) -> follows_edges G x rest.
Proof.
  revert x. induction rest as [|y rest IH]; intros x H; [exact I|].
  cbn [chain] in H. destruct H as [Hxy H]. cbn [follows_edges].
  split; [assumption | now apply IH].
Qed.

Lemma rev_head (x : pystr) (rest : list pystr) :
  exists rest', rev (x :: rest) = last (x :: rest) x :: rest'.
Proof.
  revert x. induction rest as [|y rest IH]; intros x; [now exists []|].
  destruct (IH y) as (rest' & E).
  exists (rest' ++ [x]).
  change (rev (x :: y :: rest)) with (rev (y :: rest) ++ [x]).
  rewrite E. change (last (x :: y :: rest) x) with (last (y :: rest) x).
  now rewrite (last_cons_default y rest x y).
Qed.

Lemma last_app_cons {A} (l : list A) (x : A) (l' : list A) (d : A) :
  last (l ++ x :: l') d = last (x :: l') d.
Proof.
  induction l as [|y l IH]; [reflexivity|].
  cbn [app]. destruct (l ++ x :: l') eqn:E.
  - destruct l; discriminate.
  - rewrite <- E in *. change (last (y :: l ++ x :: l') d) with
      (match l ++ x :: l' with [] => y | _ :: _ => last (l ++ x :: l') d end).
    rewrite E in *. now rewrite <- IH.
Qed.

(** [nx.shortest_path] on a well-formed graph, between two of its nodes,
    returns a directed path from the source to the target or raises
    [NetworkXNoPath]; it raises nothing else. *)
Lemma shortest_path_ok G source target :
  wf G -> contains G source = true -> contains G target = true ->
  (exists p, shortest_path G source target = Ok p
             /\ path_between G source target p)
  \/ shortest_path G source target = Raise (no_path source target).
Proof.
  intros W Hs Ht. unfold shortest_path, bidirectional_shortest_path.
  rewrite Hs, Ht. cbn [negb orb].
  destruct (bidirectional_pred_succ_ok G source target W Hs Ht)
    as [([[pred succ] w] & E & Tp & Ts & Wp & Ws) | E];
    rewrite E; cbn [bind]; [left | now right].
  destruct (walk_tree _ _ _ Tp w Wp) as (rest1 & Hw1 & Hl1 & Hc1).
  destruct (walk_tree _ _ _ Ts w Ws) as (rest2 & Hw2 & Hl2 & Hc2).
  rewrite (Hw1 (length pred) [] (le_n _)). cbn [bind app].
  unfold last_item. rewrite rev_involutive. cbn [bind].
  destruct (dict_contains_get _ _ Ws) as [nxt En].
  unfold dict_item. rewrite En. cbn [bind].
  specialize (Hw2 (S (length succ)) (rev rest1) (le_S _ _ (le_n _))).
  cbn [walk] in Hw2. unfold dict_item in Hw2. rewrite En in Hw2.
  cbn [bind] in Hw2. cbn [rev]. rewrite Hw2.
  eexists. split; [reflexivity|].
  destruct (rev_head w rest1) as (rest' & Er). rewrite Hl1 in Er.
  cbn [rev] in Er.
  assert (Ep : rev rest1 ++ w :: rest2 = source :: (rest' ++ rest2)).
  { change (w :: rest2) with ([w] ++ rest2). rewrite app_assoc, Er.
    reflexivity. }
  exists (rest' ++ rest2). split; [exact Ep|]. split.
  - rewrite last_app_cons. now rewrite (last_cons_default w rest2 source w).
  - apply chain_follows. rewrite <- Ep. apply chain_app_mid.
    + apply (climbs_rev _ w rest1 Hc1).
    + apply (climbs_chain (nbr_in (g_pred G))); [|exact Hc2].
      intros a b H. unfold has_edge. unfold nbr_in in H.
      now rewrite (wf_mirror _ W).
Qed.

End NxFacts.

(* ================================================================== *)
(** * Facts about the handlers *)
(* ================================================================== *)

Module AppFacts.

Import Nx Pd Flask App PyFacts NxFacts Spec.
Local Open Scope M_scope.

Ltac run_view :=
  unfold catch, mbind, lift, read, read_r, ret, respond, internal_error, rebind;
  cbn beta iota.

Lemma first_unserializable_list (l : list pyval) :
  (forall x, In x l -> first_unserializable x = None) ->
  first_unserializable (PList l) = None.
Proof.
  induction l as [|x l IH]; intros H; [reflexivity|].
  cbn. rewrite (H x) by now left.
  apply IH. intros y Hy. apply H. now right.
Qed.

Lemma first_unserializable_dict (d : list (pystr * pyval)) :
  (forall k x, In (k, x) d -> first_unserializable x = None) ->
  first_unserializable (PDict d) = None.
Proof.
  induction d as [|[k x] d IH]; intros H; [reflexivity|].
  cbn. rewrite (H k x) by now left.
  apply IH. intros k' y Hy. apply (H k'). now right.
Qed.

Lemma first_unserializable_dict_inv (d : list (pystr * pyval)) k x :
  first_unserializable (PDict d) = None -> In (k, x) d ->
  first_unserializable x = None.
Proof.
  induction d as [|[k' y] d IH]; intros H Hin; [destruct Hin|].
  destruct Hin as [E|Hin].
  - injection E as -> ->. cbn in H.
    destruct (first_unserializable x); [discriminate | reflexivity].
  - apply IH; [|assumption]. cbn in H.
    destruct (first_unserializable y); [discriminate | exact H].
Qed.

Lemma get_default_serializable d k :
  json_serializable (PDict d) = true ->
  first_unserializable (dict_get_default d k (PStr [])) = None.
Proof.
  unfold json_serializable. intros H.
  destruct (first_unserializable (PDict d)) eqn:E; [discriminate|].
  unfold dict_get_default. destruct (dict_get d k) eqn:Eg; [|reflexivity].
  eapply first_unserializable_dict_inv; [exact E|].
  apply dict_get_In. exact Eg.
Qed.

Section Handlers.

Variable betweenness_centrality : DiGraph -> dict Q.

(** C2. A request to POST /api/add_relationship in which one of the three
    fields is empty after trimming is answered with status 400 and
    [success = false], and the graph is left as it was. *)
Theorem add_relationship_blank_field (G : DiGraph) (d : dict pyval)
    (s1 s2 s3 : pystr) :
  text_field d "entity1" s1 ->
  text_field d "relationship" s2 ->
  text_field d "entity2" s3 ->
  strip s1 = [] \/ strip s2 = [] \/ strip s3 = [] ->
  add_relationship (Ok (PDict d)) G
  = (Ok (RespStatus
           (PResponse 200
              (PDict [ (py "success", PBool false);
                       (py "message",
                        PStr (py "All fields (Entity 1, Relationship, Entity 2) are required")) ]))
           400),
     G).
Proof.
  unfold text_field. intros H1 H2 H3 Hblank.
  unfold add_relationship. run_view. cbn [py_get].
  rewrite H1, H2, H3. cbn [py_strip].
  assert (E : is_empty (strip s1) || is_empty (strip s2) || is_empty (strip s3) = true).
  { destruct Hblank as [H|[H|H]]; rewrite H; cbn;
      rewrite ?orb_true_r; reflexivity. }
  rewrite E. reflexivity.
Qed.

(** The guard before the lookup: a query whose entity is empty after
    trimming is answered with status 400, whatever the graph holds. *)
Lemma query_blank_entity (G : DiGraph) (d : dict pyval) (s : pystr) :
  text_field d "entity" s ->
  strip s = [] ->
  query_graph betweenness_centrality (Ok (PDict d)) G
  = (Ok (RespStatus
           (PResponse 200
              (PDict [ (py "success", PBool false);
                       (py "message",
                        PStr (py "Entity name is required for query")) ]))
           400),
     G).
Proof.
  unfold text_field. intros H Hb.
  unfold query_graph. run_view. cbn [py_get]. rewrite H. cbn [py_strip].
  rewrite Hb. reflexivity.
Qed.

(** C3, as the code has it.  A query for an entity name that is not empty
    after trimming and whose trimmed form is not in the graph is answered
    with status 404 and [success = false], whatever the query type, and
    carries no results. *)
Theorem query_unknown_entity (G : DiGraph) (d : dict pyval) (s : pystr) :
  text_field d "entity" s ->
  strip s <> [] ->
  contains G (strip s) = false ->
  query_graph betweenness_centrality (Ok (PDict d)) G
  = (Ok (RespStatus
           (PResponse 200
              (PDict [ (py "success", PBool false);
                       (py "message",
                        PStr (py "Entity " ++ dquote ++ strip s ++ dquote
                              ++ py " not found in the graph")) ]))
           404),
     G).
Proof.
  unfold text_field. intros H Hne Habs.
  unfold query_graph. run_view. cbn [py_get]. rewrite H. cbn [py_strip].
  apply is_empty_false in Hne. rewrite Hne, Habs. reflexivity.
Qed.

(** C10. A query for an entity of the graph whose [query_type] is none of
    [neighbors], [shortest_path], [centrality], [all] (or is left out) is
    answered with status 200, [success = true] and an empty [results]. *)
Theorem query_other_type (G : DiGraph) (d : dict pyval) (s : pystr) :
  json_serializable (PDict d) = true ->
  text_field d "entity" s ->
  strip s <> [] ->
  contains G (strip s) = true ->
  eq_str (dict_get_default d (py "query_type") (PStr [])) (py "neighbors") = false ->
  eq_str (dict_get_default d (py "query_type") (PStr [])) (py "shortest_path") = false ->
  eq_str (dict_get_default d (py "query_type") (PStr [])) (py "centrality") = false ->
  eq_str (dict_get_default d (py "query_type") (PStr [])) (py "all") = false ->
  query_graph betweenness_centrality (Ok (PDict d)) G
  = (Ok (Resp
           (PResponse 200
              (PDict [ (py "success", PBool true);
                       (py "entity", PStr (strip s));
                       (py "query_type",
                        dict_get_default d (py "query_type") (PStr []));
                       (py "results", PDict []) ]))),
     G).
Proof.
  unfold text_field. intros Hj H Hne Hin N1 N2 N3 N4.
  unfold query_graph. run_view. cbn [py_get]. rewrite H. cbn [py_strip].
  apply is_empty_false in Hne. rewrite Hne, Hin. cbn [negb].
  unfold query_results. rewrite N1, N2, N3, N4. cbn [orb bind].
  unfold jsonify.
  assert (S : first_unserializable
                (PDict [ (py "success", PBool true);
                         (py "entity", PStr (strip s));
                         (py "query_type",
                          dict_get_default d (py "query_type") (PStr []));
                         (py "results", PDict []) ]) = None).
  { apply first_unserializable_dict. intros k x Hx.
    cbn [In] in Hx.
    destruct Hx as [E|[E|[E|[E|[]]]]]; injection E as <- <-; try reflexivity.
    now apply get_default_serializable. }
  rewrite S. reflexivity.
Qed.

(** ** The snapshot *)

Lemma get_graph_data_dict_ok G : wf G -> get_graph_data_dict G = snapshot G.
Proof.
  intros W. unfold get_graph_data_dict. rewrite (number_of_edges_ok _ W).
  reflexivity.
Qed.

Lemma node_entry_serializable n : first_unserializable (node_entry n) = None.
Proof. reflexivity. Qed.

Lemma edge_entry_serializable e : first_unserializable (edge_entry e) = None.
Proof. destruct e as [[s t] dd]. reflexivity. Qed.

Lemma snapshot_serializable G : first_unserializable (PDict (snapshot G)) = None.
Proof.
  apply first_unserializable_dict. intros k x Hx. cbn [snapshot In] in Hx.
  destruct Hx as [E|[E|[E|[E|[]]]]]; injection E as <- <-; try reflexivity.
  - apply first_unserializable_list. intros y Hy.
    apply in_map_iff in Hy. destruct Hy as (n & <- & _).
    apply node_entry_serializable.
  - apply first_unserializable_list. intros y Hy.
    apply in_map_iff in Hy. destruct Hy as (e & <- & _).
    apply edge_entry_serializable.
Qed.

Lemma snapshot_edge G u v dd :
  adj_get (g_succ G) u v = Some dd ->
  In (edge_record u (relationship_of dd) v) (List.map edge_entry (edges G)).
Proof.
  intros H. apply in_map_iff. exists (u, v, dd). split; [reflexivity|].
  now apply edges_In.
Qed.

(** ** The neighbours query *)

Lemma outgoing_ok G entity (l : list pystr) :
  (forall v, In v l -> adj_get (g_succ G) entity v <> None) ->
  exists out,
    outgoing G entity l = Ok out
    /\ first_unserializable (PList out) = None
    /\ forall v r, In (neighbor_entry v r) out
                   <-> In v l /\ edge_label G entity v = Some r.
Proof.
  induction l as [|v l IH]; intros H.
  - exists []. split; [reflexivity|]. split; [reflexivity|].
    intros v r. cbn. tauto.
  - destruct IH as (out & E & S & Hout); [intros w Hw; apply H; now right|].
    specialize (H v (or_introl eq_refl)).
    destruct (adj_get (g_succ G) entity v) as [dd|] eqn:Ea; [|congruence].
    exists (neighbor_entry v (relationship_of dd) :: out). split.
    + cbn [outgoing]. unfold edge_data, dict_item. unfold adj_get in Ea.
      destruct (dict_get (g_succ G) entity) as [nbrs|]; [|discriminate].
      cbn [bind]. rewrite Ea. cbn [bind]. rewrite E. reflexivity.
    + split; [exact S|].
      intros w r. cbn [In]. rewrite Hout. unfold edge_label. split.
      * intros [Heq|[Hin Hl]].
        -- injection Heq as <- <-. rewrite Ea. split; [now left | reflexivity].
        -- split; [now right | assumption].
      * intros [[<-|Hin] Hl].
        -- rewrite Ea in Hl. injection Hl as <-. now left.
        -- right. split; assumption.
Qed.

Lemma incoming_ok G entity (l : list pystr) :
  (forall u, In u l -> adj_get (g_succ G) u entity <> None) ->
  exists inc,
    incoming G entity l = Ok inc
    /\ first_unserializable (PList inc) = None
    /\ forall u r, In (neighbor_entry u r) inc
                   <-> In u l /\ edge_label G u entity = Some r.
Proof.
  induction l as [|u l IH]; intros H.
  - exists []. split; [reflexivity|]. split; [reflexivity|].
    intros v r. cbn. tauto.
  - destruct IH as (inc & E & S & Hinc); [intros w Hw; apply H; now right|].
    specialize (H u (or_introl eq_refl)).
    destruct (adj_get (g_succ G) u entity) as [dd|] eqn:Ea; [|congruence].
    exists (neighbor_entry u (relationship_of dd) :: inc). split.
    + cbn [incoming]. unfold edge_data, dict_item. unfold adj_get in Ea.
      destruct (dict_get (g_succ G) u) as [nbrs|]; [|discriminate].
      cbn [bind]. rewrite Ea. cbn [bind]. rewrite E. reflexivity.
    + split; [exact S|].
      intros w r. cbn [In]. rewrite Hinc. unfold edge_label. split.
      * intros [Heq|[Hin Hl]].
        -- injection Heq as <- <-. rewrite Ea. split; [now left | reflexivity].
        -- split; [now right | assumption].
      * intros [[<-|Hin] Hl].
        -- rewrite Ea in Hl. injection Hl as <-. now left.
        -- right. split; assumption.
Qed.

Lemma adj_get_keys (adj : adjacency) u nbrs v :
  dict_get adj u = Some nbrs ->
  In v (dict_keys nbrs) <-> adj_get adj u v <> None.
Proof.
  intros E. unfold adj_get. rewrite E. rewrite <- dict_contains_In.
  unfold dict_contains. destruct (dict_get nbrs v); split; congruence.
Qed.

(** On a well-formed graph the neighbours of a node of the graph are read
    without error: [outgoing] lists exactly the edges out of the node and
    [incoming] exactly the edges into it, each with its label. *)
Lemma neighbors_ok G entity :
  wf G -> contains G entity = true ->
  exists inc out,
    neighbors G entity
    = Ok (PDict [ (py "incoming", PList inc); (py "outgoing", PList out) ])
    /\ first_unserializable (PList inc) = None
    /\ first_unserializable (PList out) = None
    /\ (forall v r, In (neighbor_entry v r) out <-> edge_label G entity v = Some r)
    /\ (forall u r, In (neighbor_entry u r) inc <-> edge_label G u entity = Some r).
Proof.
  intros W Hc.
  assert (Hs : dict_contains (g_succ G) entity = true)
    by now rewrite (wf_contains_succ _ entity W).
  assert (Hp : dict_contains (g_pred G) entity = true)
    by now rewrite (wf_contains_pred _ entity W).
  destruct (dict_contains_get _ _ Hs) as [succs Es].
  destruct (dict_contains_get _ _ Hp) as [preds Ep].
  destruct (outgoing_ok G entity (dict_keys succs)) as (out & Eo & So & Ho).
  { intros v Hv. now apply (adj_get_keys _ _ _ _ Es). }
  destruct (incoming_ok G entity (dict_keys preds)) as (inc & Ei & Si & Hi).
  { intros u Hu. rewrite (wf_mirror _ W). now apply (adj_get_keys _ _ _ _ Ep). }
  exists inc, out. split; [|split; [exact Si|split; [exact So|split]]].
  - unfold neighbors, Nx.predecessors, Nx.successors. rewrite Ep, Es.
    cbn [bind]. rewrite Ei, Eo. reflexivity.
  - intros v r. rewrite Ho. split; [tauto|]. intros Hl. split; [|assumption].
    apply (adj_get_keys _ _ _ _ Es). unfold edge_label in Hl.
    destruct (adj_get (g_succ G) entity v); [congruence | discriminate].
  - intros u r. rewrite Hi. split; [tauto|]. intros Hl. split; [|assumption].
    apply (adj_get_keys _ _ _ _ Ep). rewrite <- (wf_mirror _ W).
    unfold edge_label in Hl.
    destruct (adj_get (g_succ G) u entity); [congruence | discriminate].
Qed.

Lemma query_neighbors_ok (G : DiGraph) (dq : dict pyval) (q : pystr) :
  wf G ->
  text_field dq "entity" q ->
  dict_get_default dq (py "query_type") (PStr []) = PStr (py "neighbors") ->
  strip q <> [] ->
  contains G (strip q) = true ->
  exists inc out,
    query_graph betweenness_centrality (Ok (PDict dq)) G
    = (Ok (Resp
             (PResponse 200
                (PDict [ (py "success", PBool true);
                         (py "entity", PStr (strip q));
                         (py "query_type", PStr (py "neighbors"));
                         (py "results",
                          PDict [ (py "neighbors",
                                   PDict [ (py "incoming", PList inc);
                                           (py "outgoing", PList out) ]) ]) ]))),
       G)
    /\ (forall v r, In (neighbor_entry v r) out <-> edge_label G (strip q) v = Some r)
    /\ (forall u r, In (neighbor_entry u r) inc <-> edge_label G u (strip q) = Some r).
Proof.
  unfold text_field. intros W He Ht Hne Hc.
  destruct (neighbors_ok G (strip q) W Hc) as (inc & out & En & Si & So & Ho & Hi).
  exists inc, out. split; [|split; assumption].
  unfold query_graph. run_view. cbn [py_get]. rewrite He, Ht. cbn [py_strip].
  apply is_empty_false in Hne. rewrite Hne, Hc. cbn [negb].
  unfold query_results.
  change (eq_str (PStr (py "neighbors")) (py "neighbors")) with true.
  change (eq_str (PStr (py "neighbors")) (py "all")) with false.
  change (eq_str (PStr (py "neighbors")) (py "shortest_path")) with false.
  change (eq_str (PStr (py "neighbors")) (py "centrality")) with false.
  cbn [orb]. rewrite En. cbn [bind dict_set].
  unfold jsonify.
  assert (S : forall a b, first_unserializable
            (PDict [ (py "success", PBool true); (py "entity", PStr a);
                     (py "query_type", PStr b);
                     (py "results",
                      PDict [ (py "neighbors",
                               PDict [ (py "incoming", PList inc);
                                       (py "outgoing", PList out) ]) ]) ]) = None).
  { intros a b. apply first_unserializable_dict. intros k x Hx. cbn [In] in Hx.
    destruct Hx as [E|[E|[E|[E|[]]]]]; injection E as <- <-; try reflexivity.
    apply first_unserializable_dict. intros k x Hx. cbn [In] in Hx.
    destruct Hx as [E|[]]; injection E as <- <-.
    apply first_unserializable_dict. intros k x Hx. cbn [In] in Hx.
    destruct Hx as [E|[E|[]]]; injection E as <- <-; assumption. }
  rewrite S. reflexivity.
Qed.

Lemma add_relationship_ok (G : DiGraph) (d : dict pyval) (s1 s2 s3 : pystr) :
  wf G ->
  text_field d "entity1" s1 ->
  text_field d "relationship" s2 ->
  text_field d "entity2" s3 ->
  strip s1 <> [] -> strip s2 <> [] -> strip s3 <> [] ->
  add_relationship (Ok (PDict d)) G
  = (Ok (Resp
           (PResponse 200
              (PDict [ (py "success", PBool true);
                       (py "message",
                        PStr (py "Relationship added: " ++ strip s1 ++ py " --["
                              ++ strip s2 ++ py "]--> " ++ strip s3));
                       (py "graph_data",
                        PDict (snapshot
                                 (with_edge G (strip s1) (strip s3)
                                    (relationship_attr (strip s2))))) ]))),
     with_edge G (strip s1) (strip s3) (relationship_attr (strip s2))).
Proof.
  unfold text_field. intros W H1 H2 H3 N1 N2 N3.
  destruct (add_edge_spec G (strip s1) (strip s3) (relationship_attr (strip s2)) W)
    as (Ea & W' & _).
  unfold add_relationship. run_view. cbn [py_get].
  rewrite H1, H2, H3. cbn [py_strip].
  apply is_empty_false in N1, N2, N3. rewrite N1, N2, N3. cbn [orb].
  rewrite Ea. rewrite (get_graph_data_dict_ok _ W').
  unfold jsonify.
  match goal with
  | |- context [first_unserializable ?v] =>
      assert (S : first_unserializable v = None)
  end.
  { apply first_unserializable_dict. intros k x Hx. cbn [In] in Hx.
    destruct Hx as [E|[E|[E|[]]]]; injection E as <- <-; try reflexivity.
    apply snapshot_serializable. }
  rewrite S. reflexivity.
Qed.

(** C1. A request to POST /api/add_relationship whose three fields are
    non-empty after trimming is answered with status 200 and
    [success = true]; the edge it adds is in the edge list of the snapshot
    the response carries, in the [outgoing] list of a following neighbours
    query for the first entity and in the [incoming] list of one for the
    second. *)
Theorem add_relationship_visible (G : DiGraph) (d : dict pyval)
    (s1 s2 s3 : pystr) :
  wf G ->
  text_field d "entity1" s1 ->
  text_field d "relationship" s2 ->
  text_field d "entity2" s3 ->
  strip s1 <> [] -> strip s2 <> [] -> strip s3 <> [] ->
  exists (G' : DiGraph) (message : pystr) (graph_data : dict pyval)
         (edges : list pyval),
    add_relationship (Ok (PDict d)) G
    = (Ok (Resp
             (PResponse 200
                (PDict [ (py "success", PBool true);
                         (py "message", PStr message);
                         (py "graph_data", PDict graph_data) ]))),
       G')
    /\ dict_get graph_data (py "success") = Some (PBool true)
    /\ dict_get graph_data (py "edges") = Some (PList edges)
    /\ In (edge_record (strip s1) (strip s2) (strip s3)) edges
    /\ (forall (dq : dict pyval) (q : pystr),
          text_field dq "entity" q ->
          dict_get_default dq (py "query_type") (PStr []) = PStr (py "neighbors") ->
          strip q = strip s1 ->
          exists inc out,
            query_graph betweenness_centrality (Ok (PDict dq)) G'
            = (Ok (Resp
                     (PResponse 200
                        (PDict [ (py "success", PBool true);
                                 (py "entity", PStr (strip s1));
                                 (py "query_type", PStr (py "neighbors"));
                                 (py "results",
                                  PDict [ (py "neighbors",
                                           PDict [ (py "incoming", PList inc);
                                                   (py "outgoing", PList out) ]) ]) ]))),
               G')
            /\ In (neighbor_entry (strip s3) (strip s2)) out)
    /\ (forall (dq : dict pyval) (q : pystr),
          text_field dq "entity" q ->
          dict_get_default dq (py "query_type") (PStr []) = PStr (py "neighbors") ->
          strip q = strip s3 ->
          exists inc out,
            query_graph betweenness_centrality (Ok (PDict dq)) G'
            = (Ok (Resp
                     (PResponse 200
                        (PDict [ (py "success", PBool true);
                                 (py "entity", PStr (strip s3));
                                 (py "query_type", PStr (py "neighbors"));
                                 (py "results",
                                  PDict [ (py "neighbors",
                                           PDict [ (py "incoming", PList inc);
                                                   (py "outgoing", PList out) ]) ]) ]))),
               G')
            /\ In (neighbor_entry (strip s1) (strip s2)) inc).
Proof.
  intros W H1 H2 H3 N1 N2 N3.
  set (e1 := strip s1) in *. set (r := strip s2) in *. set (e2 := strip s3) in *.
  destruct (add_edge_spec G e1 e2 (relationship_attr r) W) as (_ & W' & Hadj & Hc).
  set (G' := with_edge G e1 e2 (relationship_attr r)) in *.
  assert (Hl : edge_label G' e1 e2 = Some r).
  { unfold edge_label. rewrite Hadj, !str_eqb_refl. cbn [andb option_map].
    f_equal. apply stored_relationship. }
  exists G', (py "Relationship added: " ++ e1 ++ py " --[" ++ r ++ py "]--> " ++ e2),
         (snapshot G'), (List.map edge_entry (edges G')).
  split; [now apply add_relationship_ok|].
  split; [reflexivity|]. split; [reflexivity|]. split; [|split].
  - unfold edge_label in Hl.
    destruct (adj_get (g_succ G') e1 e2) as [dd|] eqn:Ea; [|discriminate].
    injection Hl as <-. now apply snapshot_edge.
  - intros dq q Hq Ht Eq.
    destruct (query_neighbors_ok G' dq q W' Hq Ht) as (inc & out & E & Ho & _).
    + rewrite Eq. exact N1.
    + rewrite Eq, Hc, str_eqb_refl. reflexivity.
    + rewrite Eq in *. exists inc, out. split; [exact E|]. now apply Ho.
  - intros dq q Hq Ht Eq.
    destruct (query_neighbors_ok G' dq q W' Hq Ht) as (inc & out & E & _ & Hi).
    + rewrite Eq. exact N3.
    + rewrite Eq, Hc, str_eqb_refl. now rewrite orb_true_r.
    + rewrite Eq in *. exists inc, out. split; [exact E|]. now apply Hi.
Qed.

(** C7. Adding a relationship between an ordered pair of entities that is
    already joined by an edge replaces the label of that edge: the label
    read back is the new one, and the nodes and the number of edges of the
    graph are what they were. *)
Theorem add_relationship_overwrites (G : DiGraph) (d : dict pyval)
    (s1 s2 s3 l1 : pystr) :
  wf G ->
  text_field d "entity1" s1 ->
  text_field d "relationship" s2 ->
  text_field d "entity2" s3 ->
  strip s1 <> [] -> strip s2 <> [] -> strip s3 <> [] ->
  edge_label G (strip s1) (strip s3) = Some l1 ->
  exists (message : pystr) (graph_data : dict pyval) (G' : DiGraph) (n : nat),
    add_relationship (Ok (PDict d)) G
    = (Ok (Resp
             (PResponse 200
                (PDict [ (py "success", PBool true);
                         (py "message", PStr message);
                         (py "graph_data", PDict graph_data) ]))),
       G')
    /\ edge_label G' (strip s1) (strip s3) = Some (strip s2)
    /\ number_of_edges G = Ok n
    /\ number_of_edges G' = Ok n
    /\ length (edges G') = length (edges G)
    /\ nodes G' = nodes G.
Proof.
  intros W H1 H2 H3 N1 N2 N3 Hl.
  destruct (add_edge_spec G (strip s1) (strip s3) (relationship_attr (strip s2)) W)
    as (_ & W' & Hadj & _).
  unfold edge_label in Hl.
  destruct (adj_get (g_succ G) (strip s1) (strip s3)) as [dd0|] eqn:Ea;
    [|discriminate].
  destruct (add_edge_existing G (strip s1) (strip s3)
              (relationship_attr (strip s2)) dd0 W Ea) as (Hn & _ & _ & Hlen).
  rewrite (add_relationship_ok G d s1 s2 s3 W H1 H2 H3 N1 N2 N3).
  eexists _, _, _, (edge_count G).
  split; [reflexivity|].
  split; [|split; [|split; [|split]]].
  - unfold edge_label. rewrite Hadj, !str_eqb_refl. cbn [andb option_map].
    f_equal. apply stored_relationship.
  - now apply number_of_edges_ok.
  - rewrite (number_of_edges_ok _ W'). f_equal.
    now apply add_edge_existing_count with (dd0 := dd0).
  - exact Hlen.
  - exact Hn.
Qed.

(** ** Every handler keeps the graph well-formed *)

Lemma keeps_ret {A} (a : A) : keeps_wf (ret a).
Proof. intros G W. exact W. Qed.

Lemma keeps_lift {A} (r : result A) : keeps_wf (lift r).
Proof. intros G W. exact W. Qed.

Lemma keeps_read {A} (f : DiGraph -> A) : keeps_wf (read f).
Proof. intros G W. exact W. Qed.

Lemma keeps_read_r {A} (f : DiGraph -> result A) : keeps_wf (read_r f).
Proof. intros G W. exact W. Qed.

Lemma keeps_rebind G0 : wf G0 -> keeps_wf (rebind G0).
Proof. intros W0 G W. exact W0. Qed.

Lemma keeps_mbind {A B} (m : M A) (f : A -> M B) :
  keeps_wf m -> (forall a, keeps_wf (f a)) -> keeps_wf (mbind m f).
Proof.
  intros Hm Hf G W. unfold mbind. specialize (Hm G W).
  destruct (m G) as [[a|e] G1]; cbn [snd] in *; [now apply Hf | assumption].
Qed.

Lemma keeps_catch {A} (m : M A) (h : exn -> M A) :
  keeps_wf m -> (forall e, keeps_wf (h e)) -> keeps_wf (catch m h).
Proof.
  intros Hm Hh G W. unfold catch. specialize (Hm G W).
  destruct (m G) as [[a|e] G1]; cbn [snd] in *; [assumption | now apply Hh].
Qed.

Lemma keeps_add_edge u v attr : keeps_wf (add_edge u v attr).
Proof. intros G W. now destruct (add_edge_spec G u v attr W) as (_ & W' & _). Qed.

Lemma keeps_respond status payload : keeps_wf (respond status payload).
Proof. apply keeps_mbind; intros; [apply keeps_lift | apply keeps_ret]. Qed.

Lemma keeps_internal_error prefix e : keeps_wf (internal_error prefix e).
Proof. apply keeps_respond. Qed.

Ltac keeps :=
  repeat first
    [ apply keeps_ret | apply keeps_lift | apply keeps_read | apply keeps_read_r
    | apply keeps_add_edge | apply keeps_respond | apply keeps_internal_error
    | apply keeps_catch; [|intro]
    | apply keeps_mbind; [|intro]
    | progress cbv zeta
    | match goal with
      | |- keeps_wf (if ?b then _ else _) => destruct b
      | |- keeps_wf (match ?x with _ => _ end) => destruct x
      end ].

Lemma keeps_add_all rels : keeps_wf (add_all rels).
Proof.
  induction rels as [|[[e1 r] e2] rels IH]; cbn [add_all]; keeps; try exact IH.
Qed.

Lemma keeps_initialize_sample_data : keeps_wf initialize_sample_data.
Proof.
  unfold initialize_sample_data.
  apply keeps_mbind; [apply keeps_add_all | intro; apply keeps_ret].
Qed.

Lemma wf_knowledge_graph : wf knowledge_graph.
Proof. apply keeps_initialize_sample_data, wf_empty. Qed.

Lemma keeps_add_relationship request_json : keeps_wf (add_relationship request_json).
Proof. unfold add_relationship. keeps. Qed.

Lemma keeps_import_row cols row : keeps_wf (import_row cols row).
Proof. unfold import_row. keeps. Qed.

Lemma keeps_import_rows cols rs :
  forall added_count errors, keeps_wf (import_rows cols rs added_count errors).
Proof.
  induction rs as [|[index row] rs IH]; intros added_count errors;
    cbn [import_rows]; keeps; try apply keeps_import_row; try apply IH.
Qed.

Lemma keeps_upload_csv files : keeps_wf (upload_csv files).
Proof.
  unfold upload_csv. keeps; try apply keeps_import_rows.
Qed.

Lemma keeps_query_graph request_json :
  keeps_wf (query_graph betweenness_centrality request_json).
Proof. unfold query_graph. keeps. Qed.

Lemma keeps_get_graph_data : keeps_wf get_graph_data.
Proof. unfold get_graph_data. keeps. Qed.

Lemma keeps_clear_graph : keeps_wf clear_graph.
Proof.
  unfold clear_graph.
  apply keeps_catch; [|intro; apply keeps_internal_error].
  apply keeps_mbind; [apply keeps_read | intro].
  apply keeps_mbind; [apply keeps_read_r | intro].
  apply keeps_mbind; [apply keeps_rebind, wf_empty | intro].
  apply keeps_mbind; [apply keeps_initialize_sample_data | intro].
  apply keeps_mbind; [apply keeps_get_graph_data | intro].
  keeps.
Qed.

Lemma keeps_serve r : keeps_wf (serve betweenness_centrality r).
Proof.
  destruct r; cbn [serve].
  - apply keeps_add_relationship.
  - apply keeps_upload_csv.
  - apply keeps_query_graph.
  - apply keeps_get_graph_data.
  - apply keeps_clear_graph.
Qed.

(** ** The query routes do not write to the graph *)

Lemma read_only_ret {A} (a : A) : read_only (ret a).
Proof. intros G. reflexivity. Qed.

Lemma read_only_lift {A} (r : result A) : read_only (lift r).
Proof. intros G. reflexivity. Qed.

Lemma read_only_read {A} (f : DiGraph -> A) : read_only (read f).
Proof. intros G. reflexivity. Qed.

Lemma read_only_read_r {A} (f : DiGraph -> result A) : read_only (read_r f).
Proof. intros G. reflexivity. Qed.

Lemma read_only_mbind {A B} (m : M A) (f : A -> M B) :
  read_only m -> (forall a, read_only (f a)) -> read_only (mbind m f).
Proof.
  intros Hm Hf G. unfold mbind. specialize (Hm G).
  destruct (m G) as [[a|e] G1]; cbn [snd] in *; subst G1;
    [apply Hf | reflexivity].
Qed.

Lemma read_only_catch {A} (m : M A) (h : exn -> M A) :
  read_only m -> (forall e, read_only (h e)) -> read_only (catch m h).
Proof.
  intros Hm Hh G. unfold catch. specialize (Hm G).
  destruct (m G) as [[a|e] G1]; cbn [snd] in *; subst G1;
    [reflexivity | apply Hh].
Qed.

Lemma read_only_respond status payload : read_only (respond status payload).
Proof.
  apply read_only_mbind; intros; [apply read_only_lift | apply read_only_ret].
Qed.

Ltac reads :=
  repeat first
    [ apply read_only_ret | apply read_only_lift | apply read_only_read
    | apply read_only_read_r | apply read_only_respond
    | apply read_only_catch; [|intro]
    | apply read_only_mbind; [|intro]
    | progress cbv zeta
    | match goal with
      | |- read_only (if ?b then _ else _) => destruct b
      | |- read_only (match ?x with _ => _ end) => destruct x
      end ].

(** Whatever the request, POST /api/query leaves the graph as it is. *)
Lemma query_graph_read_only request_json :
  read_only (query_graph betweenness_centrality request_json).
Proof. unfold query_graph, internal_error. reads. Qed.

(** GET /api/graph_data leaves the graph as it is. *)
Lemma get_graph_data_read_only : read_only get_graph_data.
Proof. unfold get_graph_data. reads. Qed.

(** Every graph the service reaches from the seeded one is well-formed. *)
Lemma serve_all_wf rs G :
  wf G -> wf (serve_all betweenness_centrality rs G).
Proof.
  revert G. induction rs as [|r rs IH]; intros G W; cbn [serve_all].
  - exact W.
  - apply IH, keeps_serve, W.
Qed.

(** ** Reset *)

Lemma get_graph_data_ok G :
  wf G -> get_graph_data G = (Ok (Resp (PResponse 200 (PDict (snapshot G)))), G).
Proof.
  intros W. unfold get_graph_data. run_view.
  rewrite (get_graph_data_dict_ok _ W).
  change (dict_item (snapshot G) (py "success")) with (Ok (PBool true)).
  cbn [truthy]. unfold jsonify. rewrite snapshot_serializable. reflexivity.
Qed.

Lemma initialize_sample_data_run :
  initialize_sample_data Nx.empty = (Ok 13, knowledge_graph).
Proof. vm_compute. reflexivity. Qed.

Lemma clear_graph_run G :
  wf G ->
  clear_graph G
  = (Ok (RespStatus
           (PResponse 200
              (PDict [ (py "success", PBool false);
                       (py "message",
                        PStr (py "Error clearing graph: Object of type Response is not JSON serializable")) ]))
           500),
     knowledge_graph).
Proof.
  intros W. unfold clear_graph.
  unfold catch, mbind at 1 2 3 4, read, read_r, rebind.
  rewrite (number_of_edges_ok _ W), initialize_sample_data_run.
  unfold mbind at 1. rewrite (get_graph_data_ok _ wf_knowledge_graph).
  reflexivity.
Qed.

Lemma edge_label_triples G u r v :
  edge_label G u v = Some r -> In (u, r, v) (label_triples G).
Proof.
  unfold edge_label. destruct (adj_get (g_succ G) u v) as [dd|] eqn:E;
    [|discriminate].
  intros [= <-]. apply in_map_iff. exists (u, v, dd).
  split; [reflexivity | now apply edges_In].
Qed.

Lemma sample_edges u r v :
  edge_label knowledge_graph u v = Some r <-> In (u, r, v) sample_relationships.
Proof.
  split.
  - intros H. apply edge_label_triples in H. revert H.
    vm_compute. intros H.
    repeat (destruct H as [H|H]; [injection H as <- <- <-; tauto|]).
    destruct H.
  - intros H. unfold sample_relationships in H. cbn [In] in H.
    repeat (destruct H as [H|H]; [injection H as <- <- <-; vm_compute; reflexivity|]).
    destruct H.
Qed.

(** C5. After any sequence of requests, POST /api/clear_graph leaves the
    graph the module starts with: the nine entities and the thirteen
    labelled edges of the sample data, and nothing else. *)
Theorem clear_graph_resets (rs : list request) :
  let G' := snd (clear_graph (serve_all betweenness_centrality rs knowledge_graph)) in
  G' = knowledge_graph
  /\ nodes G'
     = [ py "John Doe"; py "Computer Science"; py "Dr. Smith"; py "Jane Smith";
         py "Machine Learning"; py "Dr. Johnson"; py "Data Structures";
         py "Engineering Department"; py "Research Group A" ]
  /\ (forall u r v,
        edge_label G' u v = Some r <-> In (u, r, v) sample_relationships)
  /\ number_of_nodes G' = 9
  /\ number_of_edges G' = Ok 13.
Proof.
  cbv zeta.
  rewrite (clear_graph_run _ (serve_all_wf rs _ wf_knowledge_graph)).
  cbn [snd]. split; [reflexivity|]. split; [vm_compute; reflexivity|].
  split; [apply sample_edges|]. split; vm_compute; reflexivity.
Qed.

(** C6, as the code has it.  Whatever the requests before it,
    POST /api/clear_graph is answered with status 500 and
    [success = false]: the route passes the [Response] object returned by
    the view [get_graph_data] to [jsonify], which cannot serialise it. *)
Theorem clear_graph_fails (rs : list request) :
  fst (clear_graph (serve_all betweenness_centrality rs knowledge_graph))
  = Ok (RespStatus
          (PResponse 200
             (PDict [ (py "success", PBool false);
                      (py "message",
                       PStr (py "Error clearing graph: Object of type Response is not JSON serializable")) ]))
          500).
Proof.
  rewrite (clear_graph_run _ (serve_all_wf rs _ wf_knowledge_graph)).
  reflexivity.
Qed.

(** ** Bulk import *)

(** A row is left out, without an error, when one of its three cells is
    empty once converted to text and trimmed. *)
Lemma import_row_blank (G : DiGraph) (cols : list pystr) (row : list cell)
    (c1 c2 c3 : cell) :
  row_item cols row (py "Entity1") = Ok c1 ->
  row_item cols row (py "Relationship") = Ok c2 ->
  row_item cols row (py "Entity2") = Ok c3 ->
  strip (str_of_cell c1) = [] \/ strip (str_of_cell c2) = []
  \/ strip (str_of_cell c3) = [] ->
  import_row cols row G = (Ok false, G).
Proof.
  intros H1 H2 H3 Hb. unfold import_row. run_view. rewrite H1, H2, H3.
  cbv zeta.
  assert (E : negb (is_empty (strip (str_of_cell c1)))
              && negb (is_empty (strip (str_of_cell c2)))
              && negb (is_empty (strip (str_of_cell c3))) = false).
  { destruct Hb as [H|[H|H]]; rewrite H; cbn;
      rewrite ?andb_false_r; reflexivity. }
  rewrite E. reflexivity.
Qed.

(** A missing value never trims to the empty string: [str(nan)] is the
    text [nan]. *)
Lemma missing_value_not_blank : strip (str_of_cell CNaN) = py "nan".
Proof. reflexivity. Qed.

(** C8, the example as the code runs it.  The record with the empty first
    field is read as a row whose [Entity1] is a missing value, which
    [str] turns into the text [nan]: the row is added as an edge from
    [nan] to [Q], and [added_count] is 2. *)
Theorem upload_csv_empty_field_added :
  exists (message : pystr) (graph_data : pyval) (G' : DiGraph),
    upload_csv [(py "file", example_csv)] knowledge_graph
    = (Ok (Resp
             (PResponse 200
                (PDict [ (py "success", PBool true);
                         (py "message", PStr message);
                         (py "added_count", PInt 2);
                         (py "errors", PNone);
                         (py "graph_data", graph_data) ]))),
       G')
    /\ edge_label G' (py "nan") (py "Q") = Some (py "bad")
    /\ edge_label G' (py "X") (py "Z") = Some (py "y")
    /\ number_of_edges G' = Ok 15.
Proof.
  eexists _, _, _. split; [vm_compute; reflexivity|].
  split; [|split]; vm_compute; reflexivity.
Qed.

(** ** Degree centrality *)

Lemma dict_get_map_key {V} (f : pystr -> V) (ns : list pystr) (n : pystr) :
  In n ns -> dict_get (List.map (fun n => (n, f n)) ns) n = Some (f n).
Proof.
  induction ns as [|m ns IH]; intros H; [destruct H|].
  cbn [List.map dict_get]. destruct (str_eqb n m) eqn:E.
  - apply str_eqb_eq in E. now subst.
  - apply IH. destruct H as [->|H]; [|assumption].
    now rewrite str_eqb_refl in E.
Qed.

Lemma degree_centrality_ok (G : DiGraph) (entity : pystr) :
  wf G -> contains G entity = true ->
  exists c,
    Nx.degree_centrality G = Ok c
    /\ dict_get_default c entity (PInt 0) = degree_value G entity.
Proof.
  intros W Hc. unfold Nx.degree_centrality, degree_value.
  assert (Hin : In entity (nodes G)) by now apply dict_contains_In.
  destruct (number_of_nodes G <=? 1).
  - eexists. split; [reflexivity|]. unfold dict_get_default.
    now rewrite (dict_get_map_key (fun _ => PInt 1)).
  - rewrite (degree_ok _ W). cbn [bind]. eexists. split; [reflexivity|].
    rewrite map_map. unfold dict_get_default.
    now rewrite (dict_get_map_key
      (fun n => PFloat
                  (float_mul
                     (float_of_int (Z.of_nat (out_degree G n + in_degree G n)))
                     (float_div 1
                        (float_sub (float_of_int (Z.of_nat (number_of_nodes G)))
                                   1))))).
Qed.

(** C9, as the code has it.  The [degree] value of a centrality query for
    an entity of the graph is the float product of the number of edges out
    of the entity plus the number of edges into it, and of the float
    [1.0 / (n - 1.0)], [n] the number of entities; and it is 1 when the
    graph has a single entity. *)
Theorem centrality_degree (G : DiGraph) (d : dict pyval) (s : pystr) :
  wf G ->
  text_field d "entity" s ->
  dict_get_default d (py "query_type") (PStr []) = PStr (py "centrality") ->
  strip s <> [] ->
  contains G (strip s) = true ->
  exists r,
    query_graph betweenness_centrality (Ok (PDict d)) G = (Ok r, G)
    /\ reported_degree (Ok r) = Some (degree_value G (strip s)).
Proof.
  unfold text_field. intros W He Ht Hne Hc.
  destruct (degree_centrality_ok G (strip s) W Hc) as (c & Ec & Hd).
  unfold query_graph. run_view. cbn [py_get]. rewrite He, Ht. cbn [py_strip].
  apply is_empty_false in Hne. rewrite Hne, Hc. cbn [negb].
  unfold query_results.
  change (eq_str (PStr (py "centrality")) (py "neighbors")) with false.
  change (eq_str (PStr (py "centrality")) (py "all")) with false.
  change (eq_str (PStr (py "centrality")) (py "shortest_path")) with false.
  change (eq_str (PStr (py "centrality")) (py "centrality")) with true.
  cbn [orb bind]. unfold centrality. rewrite Ec. cbn [bind dict_set].
  rewrite Hd. unfold jsonify.
  match goal with
  | |- context [first_unserializable ?v] =>
      assert (S : first_unserializable v = None)
  end.
  { apply first_unserializable_dict. intros k x Hx. cbn [In] in Hx.
    destruct Hx as [E|[E|[E|[E|[]]]]]; injection E as <- <-; try reflexivity.
    apply first_unserializable_dict. intros k x Hx. cbn [In] in Hx.
    destruct Hx as [E|[]]; injection E as <- <-.
    apply first_unserializable_dict. intros k x Hx. cbn [In] in Hx.
    destruct Hx as [E|[E|[]]]; injection E as <- <-.
    - unfold degree_value. destruct (number_of_nodes G <=? 1); reflexivity.
    - destruct (dict_get (betweenness_centrality G) (strip s)); reflexivity. }
  rewrite S. eexists. split; [reflexivity|]. reflexivity.
Qed.

(** ** Shortest paths *)

Lemma collect_paths_ok (G : DiGraph) (entity : pystr) :
  wf G -> contains G entity = true ->
  forall targets acc,
    (forall t, In t targets -> contains G t = true) ->
    paths_ok G entity acc ->
    exists paths,
      collect_paths G entity targets acc = Ok paths
      /\ paths_ok G entity paths.
Proof.
  intros W Hc. induction targets as [|target rest IH]; intros acc Hin Hacc.
  - exists acc. split; [reflexivity | assumption].
  - cbn [collect_paths].
    assert (Hrest : forall t, In t rest -> contains G t = true)
      by (intros t Ht; apply Hin; now right).
    destruct (str_eqb target entity) eqn:E; cbn [negb]; [now apply IH|].
    destruct (shortest_path_ok G entity target W Hc (Hin target (or_introl eq_refl)))
      as [(p & Ep & Hp) | Ep]; rewrite Ep.
    + apply IH; [assumption|].
      intros t q Hq. rewrite dict_get_set in Hq.
      destruct (str_eqb t target) eqn:Et.
      * apply str_eqb_eq in Et. subst t. injection Hq as <-.
        split; [now apply str_eqb_neq | assumption].
      * now apply Hacc.
    + cbn [no_path exn_cls exn_class_eqb]. now apply IH.
Qed.

Lemma shortest_paths_ok (G : DiGraph) (entity : pystr) :
  wf G -> contains G entity = true ->
  exists paths,
    shortest_paths G entity = Ok paths /\ paths_ok G entity paths.
Proof.
  intros W Hc. apply collect_paths_ok; try assumption.
  - intros t Ht. now apply dict_contains_In.
  - intros t p Hp. discriminate.
Qed.

Lemma paths_value_serializable paths :
  first_unserializable (paths_value paths) = None.
Proof.
  unfold paths_value. apply first_unserializable_dict. intros k x Hx.
  apply in_map_iff in Hx. destruct Hx as ([t p] & E & _).
  injection E as <- <-. apply first_unserializable_list. intros y Hy.
  apply in_map_iff in Hy. destruct Hy as (z & <- & _). reflexivity.
Qed.

Lemma dict_set_serializable (r : dict pyval) k v :
  first_unserializable (PDict r) = None ->
  first_unserializable v = None ->
  first_unserializable (PDict (dict_set r k v)) = None.
Proof.
  intros Hr Hv. apply first_unserializable_dict. intros k' x Hx.
  assert (G : forall (d : dict pyval), In (k', x) (dict_set d k v) ->
                x = v \/ In (k', x) d).
  { induction d as [|[k0 v0] d IH]; cbn [dict_set].
    - intros [E|[]]. injection E as <- <-. now left.
    - destruct (str_eqb k k0).
      + intros [E|H]; [injection E as <- <-; now left | right; now right].
      + intros [E|H]; [right; now left|].
        destruct (IH H) as [->|H']; [now left | right; now right]. }
  destruct (G r Hx) as [->|Hin]; [assumption|].
  eapply first_unserializable_dict_inv; eassumption.
Qed.

(** On a well-formed graph every block of the query runs without error
    for an entity of the graph. *)
Lemma query_results_ok (G : DiGraph) (query_type : pyval) (entity : pystr) :
  wf G -> contains G entity = true ->
  exists results paths,
    query_results betweenness_centrality G query_type entity = Ok results
    /\ first_unserializable (PDict results) = None
    /\ paths_ok G entity paths
    /\ dict_get results (py "shortest_paths")
       = if (eq_str query_type (py "shortest_path") || eq_str query_type (py "all"))
            && (1 <? length (nodes G))
         then Some (paths_value paths) else None.
Proof.
  intros W Hc. unfold query_results.
  destruct (neighbors_ok G entity W Hc) as (inc & out & En & Si & So & _).
  destruct (shortest_paths_ok G entity W Hc) as (paths & Ep & Hp).
  destruct (degree_centrality_ok G entity W Hc) as (c & Ec & Hd).
  exists (let r0 := [] in
          let r1 := if eq_str query_type (py "neighbors") || eq_str query_type (py "all")
                    then dict_set r0 (py "neighbors")
                           (PDict [ (py "incoming", PList inc);
                                    (py "outgoing", PList out) ])
                    else r0 in
          let r2 := if (eq_str query_type (py "shortest_path")
                        || eq_str query_type (py "all"))
                       && (1 <? length (nodes G))
                    then dict_set r1 (py "shortest_paths") (paths_value paths)
                    else r1 in
          if eq_str query_type (py "centrality") || eq_str query_type (py "all")
          then dict_set r2 (py "centrality")
                 (PDict [ (py "degree", degree_value G entity);
                          (py "betweenness",
                           match dict_get (betweenness_centrality G) entity with
                           | Some b => PFloat b
                           | None => PInt 0
                           end) ])
          else r2), paths.
  cbv zeta. rewrite En, Ep. unfold centrality. rewrite Ec. cbn [bind].
  rewrite Hd.
  assert (Sn : first_unserializable
                 (PDict [ (py "incoming", PList inc); (py "outgoing", PList out) ])
               = None).
  { apply first_unserializable_dict. intros k x Hx. cbn [In] in Hx.
    destruct Hx as [E|[E|[]]]; injection E as <- <-; assumption. }
  assert (Sc : first_unserializable
                 (PDict [ (py "degree", degree_value G entity);
                          (py "betweenness",
                           match dict_get (betweenness_centrality G) entity with
                           | Some b => PFloat b
                           | None => PInt 0
                           end) ]) = None).
  { apply first_unserializable_dict. intros k x Hx. cbn [In] in Hx.
    destruct Hx as [E|[E|[]]]; injection E as <- <-.
    - unfold degree_value. destruct (number_of_nodes G <=? 1); reflexivity.
    - destruct (dict_get (betweenness_centrality G) entity); reflexivity. }
  destruct (eq_str query_type (py "neighbors") || eq_str query_type (py "all"));
  destruct (eq_str query_type (py "shortest_path") || eq_str query_type (py "all"));
  destruct (1 <? length (nodes G));
  destruct (eq_str query_type (py "centrality") || eq_str query_type (py "all"));
  cbn [bind andb];
  (split; [reflexivity|]); (split; [|split; [exact Hp|]]);
  repeat first [ apply dict_set_serializable | assumption
               | apply paths_value_serializable | reflexivity ].
Qed.

(** C4. In the answer to a shortest-path query for an entity of the graph
    (query type [shortest_path], or [all]), the entity itself is not a key
    of [shortest_paths]; every path listed starts with the entity, ends
    with its key and follows edges of the graph; and an entity that cannot
    be reached is not a key, the query still succeeding. *)
Theorem shortest_paths_sound (G : DiGraph) (d : dict pyval) (s : pystr) :
  wf G ->
  text_field d "entity" s ->
  dict_get_default d (py "query_type") (PStr []) = PStr (py "shortest_path")
  \/ dict_get_default d (py "query_type") (PStr []) = PStr (py "all") ->
  strip s <> [] ->
  contains G (strip s) = true ->
  exists (results : dict pyval) (paths : dict (list pystr)),
    query_graph betweenness_centrality (Ok (PDict d)) G
    = (Ok (Resp
             (PResponse 200
                (PDict [ (py "success", PBool true);
                         (py "entity", PStr (strip s));
                         (py "query_type",
                          dict_get_default d (py "query_type") (PStr []));
                         (py "results", PDict results) ]))),
       G)
    /\ dict_get results (py "shortest_paths")
       = (if 1 <? length (nodes G) then Some (paths_value paths) else None)
    /\ dict_get paths (strip s) = None
    /\ (forall t p, dict_get paths t = Some p ->
          exists rest, p = strip s :: rest
                       /\ last p (strip s) = t
                       /\ follows_edges G (strip s) rest)
    /\ (forall t, ~ reachable G (strip s) t -> dict_get paths t = None).
Proof.
  unfold text_field. intros W He Ht Hne Hc.
  destruct (query_results_ok G (dict_get_default d (py "query_type") (PStr []))
              (strip s) W Hc) as (results & paths & Er & Sr & Hp & Hk).
  exists results, paths. split; [|split; [|split; [|split]]].
  - unfold query_graph. run_view. cbn [py_get]. rewrite He. cbn [py_strip].
    apply is_empty_false in Hne. rewrite Hne, Hc. cbn [negb]. rewrite Er.
    unfold jsonify.
    match goal with
    | |- context [first_unserializable ?v] =>
        assert (S : first_unserializable v = None)
    end.
    { apply first_unserializable_dict. intros k x Hx. cbn [In] in Hx.
      destruct Hx as [E|[E|[E|[E|[]]]]]; injection E as <- <-;
        try reflexivity; try assumption.
      destruct Ht as [-> | ->]; reflexivity. }
    rewrite S. reflexivity.
  - rewrite Hk. destruct Ht as [-> | ->]; reflexivity.
  - destruct (dict_get paths (strip s)) as [p|] eqn:E; [|reflexivity].
    destruct (Hp _ _ E) as [Hneq _]. congruence.
  - intros t p E. destruct (Hp _ _ E) as [_ Hpath]. exact Hpath.
  - intros t Hnr. destruct (dict_get paths t) as [p|] eqn:E; [|reflexivity].
    destruct (Hp _ _ E) as [_ Hpath]. exfalso. apply Hnr. now exists p.
Qed.
End Handlers.

(** C2 as worded fails when a blank field stands beside a field that is
    no text: [entity1] is made of spaces, [relationship] is the number 5,
    and [.strip()] raises on the number before the fields are tested; the
    answer is 500, not 400 (the graph is left as it was). *)
Lemma blank_field_beside_a_number_is_answered_500 :
  strip (py "  ") = []
  /\ add_relationship
       (Ok (PDict [ (py "entity1", PStr (py "  "));
                    (py "relationship", PInt 5);
                    (py "entity2", PStr (py "B")) ]))
       knowledge_graph
     = (Ok (RespStatus
              (PResponse 200
                 (PDict [ (py "success", PBool false);
                          (py "message",
                           PStr (py "Error adding relationship: 'int' object has no attribute 'strip'")) ]))
              500),
        knowledge_graph).
Proof. split; vm_compute; reflexivity. Qed.

(** C3 as worded fails for a name made of spaces: it is not in the graph,
    and the query is answered with status 400, not 404. *)
Lemma blank_entity_is_not_answered_not_found :
  contains knowledge_graph (py "   ") = false
  /\ fst (query_graph (fun _ => [])
            (Ok (PDict [ (py "entity", PStr (py "   "));
                         (py "query_type", PStr (py "neighbors")) ]))
            knowledge_graph)
     = Ok (RespStatus
             (PResponse 200
                (PDict [ (py "success", PBool false);
                         (py "message",
                          PStr (py "Entity name is required for query")) ]))
             400)
  /\ ~ answers_not_found (fun _ => []) knowledge_graph (py "   ") (py "neighbors").
Proof.
  split; [vm_compute; reflexivity|]. split; [vm_compute; reflexivity|].
  intros (r & body & E & Hs). revert E Hs. vm_compute.
  intros [= <-]. discriminate.
Qed.

(** C9 as worded fails on the seeded graph once Dr. Smith also advises
    John Doe: John Doe is joined to three of the eight other entities, and
    the query reports 0.5, that is 4/8, the two edges between John Doe and
    Dr. Smith counting twice. *)
Lemma degree_is_not_connected_fraction :
  reported_degree
    (fst (query_graph (fun _ => []) (centrality_request (py "John Doe"))
            reciprocal_graph))
  = Some (PFloat (1 # 2))
  /\ (connected_fraction reciprocal_graph (py "John Doe") == 3 # 8)%Q
  /\ ~ degree_is_connected_fraction (fun _ => []) reciprocal_graph (py "John Doe").
Proof.
  split; [vm_compute; reflexivity|]. split; [vm_compute; reflexivity|].
  intros (q & E & Hq). revert E Hq. vm_compute.
  intros [= <-]. vm_compute. discriminate.
Qed.

(** The degree value for John Doe, with three edges, on the seeded graph
    with [A --[knows]--> B] added, eleven entities: [3 * (1.0 / 10.0)],
    which is [0.30000000000000004]. *)
Example centrality_three_of_ten :
  reported_degree
    (fst (query_graph (fun _ => []) (centrality_request (py "John Doe"))
            (snd (add_relationship
                    (Ok (PDict [ (py "entity1", PStr (py "A"));
                                 (py "relationship", PStr (py "knows"));
                                 (py "entity2", PStr (py "B")) ]))
                    knowledge_graph))))
  = Some (PFloat (1351079888211149 # 4503599627370496)).
Proof. vm_compute. reflexivity. Qed.

(** ** The theorems at concrete requests on the seeded graph *)

Lemma add_relationship_visible_witness :
  wf knowledge_graph
  /\ strip (py " A ") <> [] /\ strip (py "knows") <> [] /\ strip (py "B  ") <> []
  /\ exists (G' : DiGraph) (out : list pyval),
       snd (add_relationship
              (Ok (PDict [ (py "entity1", PStr (py " A "));
                           (py "relationship", PStr (py "knows"));
                           (py "entity2", PStr (py "B  ")) ]))
              knowledge_graph) = G'
       /\ reported_outgoing
            (fst (query_graph (fun _ => [])
                    (Ok (PDict [ (py "entity", PStr (py "A"));
                                 (py "query_type", PStr (py "neighbors")) ]))
                    G'))
          = Some out
       /\ In (neighbor_entry (py "B") (py "knows")) out.
Proof.
  assert (N1 : strip (py " A ") <> []) by (vm_compute; discriminate).
  assert (N2 : strip (py "knows") <> []) by (vm_compute; discriminate).
  assert (N3 : strip (py "B  ") <> []) by (vm_compute; discriminate).
  split; [exact wf_knowledge_graph|]. repeat (split; [assumption|]).
  destruct (add_relationship_visible (fun _ => []) knowledge_graph
              [ (py "entity1", PStr (py " A "));
                (py "relationship", PStr (py "knows"));
                (py "entity2", PStr (py "B  ")) ]
              (py " A ") (py "knows") (py "B  ")
              wf_knowledge_graph eq_refl eq_refl eq_refl N1 N2 N3)
    as (G' & message & graph_data & edges & E & _ & _ & _ & Hq & _).
  destruct (Hq [ (py "entity", PStr (py "A"));
                 (py "query_type", PStr (py "neighbors")) ]
              (py "A") eq_refl eq_refl eq_refl) as (inc & out & Eq & Hin).
  exists G', out. rewrite E, Eq. repeat split. exact Hin.
Defined.

Lemma add_relationship_blank_field_witness :
  strip (py "   ") = []
  /\ add_relationship
       (Ok (PDict [ (py "entity1", PStr (py "John Doe"));
                    (py "relationship", PStr (py "   "));
                    (py "entity2", PStr (py "Dr. Smith")) ]))
       knowledge_graph
     = (Ok (RespStatus
              (PResponse 200
                 (PDict [ (py "success", PBool false);
                          (py "message",
                           PStr (py "All fields (Entity 1, Relationship, Entity 2) are required")) ]))
              400),
        knowledge_graph).
Proof.
  split; [reflexivity|].
  apply (add_relationship_blank_field knowledge_graph _
           (py "John Doe") (py "   ") (py "Dr. Smith"));
    [reflexivity | reflexivity | reflexivity | right; left; reflexivity].
Defined.

Lemma query_unknown_entity_witness :
  strip (py "Nobody") <> []
  /\ contains knowledge_graph (strip (py "Nobody")) = false
  /\ query_graph (fun _ => [])
       (Ok (PDict [ (py "entity", PStr (py "Nobody"));
                    (py "query_type", PStr (py "all")) ]))
       knowledge_graph
     = (Ok (RespStatus
              (PResponse 200
                 (PDict [ (py "success", PBool false);
                          (py "message",
                           PStr (py "Entity " ++ dquote ++ strip (py "Nobody")
                                 ++ dquote ++ py " not found in the graph")) ]))
              404),
        knowledge_graph).
Proof.
  assert (N : strip (py "Nobody") <> []) by (vm_compute; discriminate).
  split; [exact N|]. split; [vm_compute; reflexivity|].
  apply (query_unknown_entity (fun _ => []) knowledge_graph _ (py "Nobody"));
    [reflexivity | exact N | vm_compute; reflexivity].
Defined.

Lemma query_other_type_witness :
  strip (py "John Doe") <> []
  /\ contains knowledge_graph (strip (py "John Doe")) = true
  /\ query_graph (fun _ => [])
       (Ok (PDict [ (py "entity", PStr (py "John Doe"));
                    (py "query_type", PStr (py "degree")) ]))
       knowledge_graph
     = (Ok (Resp
              (PResponse 200
                 (PDict [ (py "success", PBool true);
                          (py "entity", PStr (strip (py "John Doe")));
                          (py "query_type", PStr (py "degree"));
                          (py "results", PDict []) ]))),
        knowledge_graph).
Proof.
  assert (N : strip (py "John Doe") <> []) by (vm_compute; discriminate).
  split; [exact N|]. split; [vm_compute; reflexivity|].
  apply (query_other_type (fun _ => []) knowledge_graph
           [ (py "entity", PStr (py "John Doe"));
             (py "query_type", PStr (py "degree")) ]
           (py "John Doe"));
    try reflexivity; try exact N.
Defined.

Lemma add_relationship_overwrites_witness :
  edge_label knowledge_graph (strip (py "John Doe")) (strip (py "Dr. Smith"))
  = Some (py "advised_by")
  /\ exists (G' : DiGraph),
       snd (add_relationship
              (Ok (PDict [ (py "entity1", PStr (py "John Doe"));
                           (py "relationship", PStr (py "mentored_by"));
                           (py "entity2", PStr (py "Dr. Smith")) ]))
              knowledge_graph) = G'
       /\ edge_label G' (py "John Doe") (py "Dr. Smith") = Some (py "mentored_by")
       /\ number_of_edges G' = number_of_edges knowledge_graph.
Proof.
  split; [vm_compute; reflexivity|].
  assert (N1 : strip (py "John Doe") <> []) by (vm_compute; discriminate).
  assert (N2 : strip (py "mentored_by") <> []) by (vm_compute; discriminate).
  assert (N3 : strip (py "Dr. Smith") <> []) by (vm_compute; discriminate).
  assert (L : edge_label knowledge_graph (strip (py "John Doe"))
                (strip (py "Dr. Smith")) = Some (py "advised_by"))
    by (vm_compute; reflexivity).
  destruct (add_relationship_overwrites knowledge_graph
              [ (py "entity1", PStr (py "John Doe"));
                (py "relationship", PStr (py "mentored_by"));
                (py "entity2", PStr (py "Dr. Smith")) ]
              (py "John Doe") (py "mentored_by") (py "Dr. Smith") (py "advised_by")
              wf_knowledge_graph eq_refl eq_refl eq_refl N1 N2 N3 L)
    as (message & graph_data & G' & n & E & Hl & Hn & Hn' & _).
  exists G'. rewrite E. split; [reflexivity|]. split; [exact Hl|].
  now rewrite Hn, Hn'.
Defined.

Lemma centrality_degree_witness :
  wf knowledge_graph
  /\ contains knowledge_graph (strip (py "John Doe")) = true
  /\ reported_degree
       (fst (query_graph (fun _ => []) (centrality_request (py "John Doe"))
               knowledge_graph))
     = Some (degree_value knowledge_graph (py "John Doe")).
Proof.
  assert (N : strip (py "John Doe") <> []) by (vm_compute; discriminate).
  assert (C : contains knowledge_graph (strip (py "John Doe")) = true)
    by (vm_compute; reflexivity).
  split; [exact wf_knowledge_graph|]. split; [exact C|].
  destruct (centrality_degree (fun _ => []) knowledge_graph
              [ (py "entity", PStr (py "John Doe"));
                (py "query_type", PStr (py "centrality")) ]
              (py "John Doe") wf_knowledge_graph eq_refl eq_refl N C)
    as (r & E & Hr).
  unfold centrality_request. rewrite E. exact Hr.
Defined.

Lemma shortest_paths_sound_witness :
  wf knowledge_graph
  /\ contains knowledge_graph (strip (py "Dr. Smith")) = true
  /\ exists (results : dict pyval) (paths : dict (list pystr)),
       fst (query_graph (fun _ => [])
              (Ok (PDict [ (py "entity", PStr (py "Dr. Smith"));
                           (py "query_type", PStr (py "shortest_path")) ]))
              knowledge_graph)
       = Ok (Resp
               (PResponse 200
                  (PDict [ (py "success", PBool true);
                           (py "entity", PStr (py "Dr. Smith"));
                           (py "query_type", PStr (py "shortest_path"));
                           (py "results", PDict results) ])))
       /\ dict_get results (py "shortest_paths") = Some (paths_value paths)
       /\ dict_get paths (py "Dr. Smith") = None
       /\ (forall t, ~ reachable knowledge_graph (py "Dr. Smith") t ->
                     dict_get paths t = None).
Proof.
  assert (N : strip (py "Dr. Smith") <> []) by (vm_compute; discriminate).
  assert (C : contains knowledge_graph (strip (py "Dr. Smith")) = true)
    by (vm_compute; reflexivity).
  split; [exact wf_knowledge_graph|]. split; [exact C|].
  destruct (shortest_paths_sound (fun _ => []) knowledge_graph
              [ (py "entity", PStr (py "Dr. Smith"));
                (py "query_type", PStr (py "shortest_path")) ]
              (py "Dr. Smith") wf_knowledge_graph eq_refl
              (or_introl eq_refl) N C)
    as (results & paths & E & Hk & Hself & _ & Hunreach).
  exists results, paths. rewrite E. repeat split; assumption.
Defined.

(** A field that is not text, here [null], makes [.strip()] raise: the
    route answers 500 and the graph is left as it was. *)
Example add_relationship_null_field :
  add_relationship
    (Ok (PDict [ (py "entity1", PNone);
                 (py "relationship", PStr (py "knows"));
                 (py "entity2", PStr (py "B")) ]))
    knowledge_graph
  = (Ok (RespStatus
           (PResponse 200
              (PDict [ (py "success", PBool false);
                       (py "message",
                        PStr (py "Error adding relationship: 'NoneType' object has no attribute 'strip'")) ]))
           500),
     knowledge_graph).
Proof. vm_compute. reflexivity. Qed.

(** The example of the specification: on the seeded graph, after adding
    [A --[knows]--> B], the neighbours of [A] are [B] outgoing and nothing
    incoming. *)
Example neighbors_after_add :
  let G' := snd (add_relationship
                   (Ok (PDict [ (py "entity1", PStr (py "A"));
                                (py "relationship", PStr (py "knows"));
                                (py "entity2", PStr (py "B")) ]))
                   knowledge_graph) in
  fst (query_graph (fun _ => [])
         (Ok (PDict [ (py "entity", PStr (py "A"));
                      (py "query_type", PStr (py "neighbors")) ]))
         G')
  = Ok (Resp
          (PResponse 200
             (PDict [ (py "success", PBool true);
                      (py "entity", PStr (py "A"));
                      (py "query_type", PStr (py "neighbors"));
                      (py "results",
                       PDict [ (py "neighbors",
                                PDict [ (py "incoming", PList []);
                                        (py "outgoing",
                                         PList [neighbor_entry (py "B") (py "knows")]) ]) ]) ]))).
Proof. vm_compute. reflexivity. Qed.

End AppFacts.


(* ================================================================== *)
(** * Further facts about the routes *)
(* ================================================================== *)

Module ExtFacts.

Import Nx Pd Flask App Spec Ext PyFacts NxFacts AppFacts.
Local Open Scope M_scope.

Lemma clean_strip (s : pystr) : strip s <> [] -> clean_name (strip s).
Proof. intros H. split; [exact H | apply strip_idempotent]. Qed.

Lemma internal_error_run (prefix : string) (e : exn) (G : DiGraph) :
  internal_error prefix e G
  = (Ok (RespStatus
           (PResponse 200
              (PDict [ (py "success", PBool false);
                       (py "message", PStr (py prefix ++ exn_str e)) ]))
           500), G).
Proof. reflexivity. Qed.

(** ** POST /api/add_relationship on any request *)

Lemma add_relationship_blank_rejected (G : DiGraph) (d : dict pyval)
    (s1 s2 s3 : pystr) :
  dict_get_default d (py "entity1") (PStr []) = PStr s1 ->
  dict_get_default d (py "relationship") (PStr []) = PStr s2 ->
  dict_get_default d (py "entity2") (PStr []) = PStr s3 ->
  is_empty (strip s1) || is_empty (strip s2) || is_empty (strip s3) = true ->
  add_relationship (Ok (PDict d)) G
  = (Ok (RespStatus
           (PResponse 200
              (PDict [ (py "success", PBool false);
                       (py "message",
                        PStr (py "All fields (Entity 1, Relationship, Entity 2) are required")) ]))
           400),
     G).
Proof.
  intros H1 H2 H3 Hb. unfold add_relationship. run_view. cbn [py_get].
  rewrite H1, H2, H3. cbn [py_strip]. rewrite Hb. reflexivity.
Qed.

(** The three ways the route ends: the edge is added and the answer is
    200; or the graph is left as it was and the answer is 400 or 500. *)
Lemma add_relationship_cases (request_json : result pyval) (G : DiGraph) :
  wf G ->
  (exists e1 r e2,
     clean_name e1 /\ clean_name r /\ clean_name e2
     /\ add_relationship request_json G
        = (Ok (Resp
                 (PResponse 200
                    (PDict [ (py "success", PBool true);
                             (py "message",
                              PStr (py "Relationship added: " ++ e1 ++ py " --["
                                    ++ r ++ py "]--> " ++ e2));
                             (py "graph_data",
                              PDict (snapshot
                                       (with_edge G e1 e2 (relationship_attr r)))) ]))),
           with_edge G e1 e2 (relationship_attr r)))
  \/ (exists message status,
        add_relationship request_json G
        = (Ok (RespStatus
                 (PResponse 200
                    (PDict [ (py "success", PBool false);
                             (py "message", PStr message) ]))
                 status),
           G)
        /\ (status = 400 \/ status = 500)).
Proof.
  intros W.
  destruct request_json as [data|e];
    [|right; eexists _, 500; split; [reflexivity | now right]].
  destruct data as [| | | | |l|d|st b];
    try (right; eexists _, 500; split; [reflexivity | now right]).
  destruct (dict_get_default d (py "entity1") (PStr [])) as [| | | |s1| | |] eqn:E1;
    try (right; eexists _, 500; split;
         [unfold add_relationship; run_view; cbn [py_get]; rewrite E1; reflexivity
         | now right]).
  destruct (dict_get_default d (py "relationship") (PStr [])) as [| | | |s2| | |] eqn:E2;
    try (right; eexists _, 500; split;
         [unfold add_relationship; run_view; cbn [py_get]; rewrite E1, E2; reflexivity
         | now right]).
  destruct (dict_get_default d (py "entity2") (PStr [])) as [| | | |s3| | |] eqn:E3;
    try (right; eexists _, 500; split;
         [unfold add_relationship; run_view; cbn [py_get]; rewrite E1, E2, E3;
          reflexivity
         | now right]).
  destruct (is_empty (strip s1) || is_empty (strip s2) || is_empty (strip s3)) eqn:Eb.
  - right. eexists _, 400. split; [|now left].
    apply add_relationship_blank_rejected with (s1 := s1) (s2 := s2) (s3 := s3);
      assumption.
  - left. apply orb_false_iff in Eb. destruct Eb as [Eb N3].
    apply orb_false_iff in Eb. destruct Eb as [N1 N2].
    apply is_empty_false in N1, N2, N3.
    exists (strip s1), (strip s2), (strip s3).
    repeat (split; [now apply clean_strip|]).
    now apply add_relationship_ok.
Qed.

(** ** Dicts without repeated keys *)

Lemma In_dict_set {V} (d : dict V) (k0 : pystr) (v0 : V) (k : pystr) (x : V) :
  In (k, x) (dict_set d k0 v0) -> (k = k0 /\ x = v0) \/ In (k, x) d.
Proof.
  induction d as [|[k1 v1] d IH]; cbn [dict_set].
  - intros [E|[]]. injection E as <- <-. now left.
  - destruct (str_eqb k0 k1) eqn:E01.
    + apply str_eqb_eq in E01. subst k1.
      intros [E|H]; [injection E as <- <-; now left | right; now right].
    + intros [E|H]; [right; now left|].
      destruct (IH H) as [H'|H']; [now left | right; now right].
Qed.

Lemma keys_dict_set {V} (d : dict V) (k : pystr) (v : V) :
  dict_keys (dict_set d k v)
  = if dict_contains d k then dict_keys d else dict_keys d ++ [k].
Proof.
  destruct (dict_contains d k) eqn:E.
  - now apply dict_set_present.
  - now apply keys_set_fresh.
Qed.

Lemma NoDup_keys_set {V} (d : dict V) (k : pystr) (v : V) :
  NoDup (dict_keys d) -> NoDup (dict_keys (dict_set d k v)).
Proof.
  intros H. rewrite keys_dict_set. destruct (dict_contains d k) eqn:E; [exact H|].
  apply NoDup_app; [exact H | constructor; [tauto | constructor] |].
  intros x Hx [<-|[]]. apply dict_contains_not_In in E. contradiction.
Qed.

Lemma length_dict_set {V} (d : dict V) (k : pystr) (v : V) :
  length (dict_set d k v) = length d + (if dict_contains d k then 0 else 1).
Proof.
  rewrite <- (length_map fst (dict_set d k v)), <- (length_map fst d).
  change (List.map fst (dict_set d k v)) with (dict_keys (dict_set d k v)).
  rewrite keys_dict_set. destruct (dict_contains d k).
  - unfold dict_keys. lia.
  - rewrite length_app. reflexivity.
Qed.

(** With no repeated key, an entry of the dict is what a lookup finds. *)
Lemma In_dict_get {V} (d : dict V) (k : pystr) (x : V) :
  NoDup (dict_keys d) -> In (k, x) d -> dict_get d k = Some x.
Proof.
  induction d as [|[k1 v1] d IH]; intros Hn Hin; [destruct Hin|].
  cbn [dict_keys List.map fst] in Hn. inversion Hn as [|? ? Hnot Hn']; subst.
  cbn [dict_get]. destruct Hin as [E|Hin].
  - injection E as -> ->. now rewrite str_eqb_refl.
  - destruct (str_eqb k k1) eqn:Ek.
    + apply str_eqb_eq in Ek. subst k1. exfalso. apply Hnot.
      apply in_map_iff. now exists (k, x).
    + now apply IH.
Qed.

Lemma entries_total_cons k (nb : dict attrs) (adj : adjacency) :
  entries_total ((k, nb) :: adj) = length nb + entries_total adj.
Proof. reflexivity. Qed.

Lemma entries_total_app (a b : adjacency) :
  entries_total (a ++ b) = entries_total a + entries_total b.
Proof.
  unfold entries_total. now rewrite map_app, list_sum_app.
Qed.

Lemma entries_total_set (adj : adjacency) u nbrs nbrs' :
  dict_get adj u = Some nbrs ->
  entries_total (dict_set adj u nbrs') + length nbrs
  = entries_total adj + length nbrs'.
Proof.
  induction adj as [|[k nb] adj IH]; [discriminate|].
  cbn [dict_get dict_set]. destruct (str_eqb u k).
  - intros [= ->]. rewrite !entries_total_cons. lia.
  - intros H. specialize (IH H). rewrite !entries_total_cons. lia.
Qed.

Lemma entries_total_fresh (adj : adjacency) u :
  dict_contains adj u = false ->
  entries_total (dict_set adj u []) = entries_total adj.
Proof.
  intros H. rewrite dict_set_absent by assumption.
  rewrite entries_total_app.
  change (entries_total [(u, [])]) with 0. lia.
Qed.

Lemma edges_length G : length (edges G) = entries_total (g_succ G).
Proof.
  unfold edges, entries_total.
  induction (g_succ G) as [|[n nbrs] adj IH]; [reflexivity|].
  cbn [flat_map List.map list_sum snd]. rewrite length_app, length_map.
  now rewrite IH.
Qed.

(** ** Tidy graphs *)

Lemma tidy_empty : tidy Nx.empty.
Proof.
  split; [apply wf_empty | constructor | intros ? ? [] | intros ? ? [] | reflexivity].
Qed.

Lemma In_set_fresh {V} (d : dict V) (k0 : pystr) (v0 : V) (k : pystr) (x : V) :
  In (k, x) (dict_set d k0 v0) -> x = v0 \/ In (k, x) d.
Proof.
  intros H. destruct (In_dict_set _ _ _ _ _ H) as [[_ ->]|H']; [now left | now right].
Qed.

Lemma tidy_add_missing_node G u : tidy G -> tidy (add_missing_node G u).
Proof.
  intros T. pose proof (tidy_wf _ T) as W.
  pose proof (add_missing_node_wf G u W) as W'.
  unfold add_missing_node in *.
  destruct (dict_contains (g_succ G) u) eqn:Hu; [assumption|].
  assert (Hn : dict_contains (g_node G) u = false)
    by (rewrite <- Hu; symmetry; apply contains_keys, W).
  assert (Hp : dict_contains (g_pred G) u = false)
    by (rewrite <- Hu; apply contains_keys; rewrite (wf_pred_keys _ W);
        symmetry; apply W).
  split; cbn [g_node g_succ g_pred nodes].
  - exact W'.
  - apply NoDup_keys_set. apply T.
  - intros k nbrs H. destruct (In_set_fresh _ _ _ _ _ H) as [->|H'];
      [constructor | now apply (tidy_succ _ T k)].
  - intros k nbrs H. destruct (In_set_fresh _ _ _ _ _ H) as [->|H'];
      [constructor | now apply (tidy_pred _ T k)].
  - rewrite !entries_total_fresh by assumption. apply T.
Qed.

Lemma add_missing_node_entries G u :
  entries_total (g_succ (add_missing_node G u)) = entries_total (g_succ G).
Proof.
  unfold add_missing_node.
  destruct (dict_contains (g_succ G) u) eqn:Hu; [reflexivity|].
  cbn [g_succ]. now apply entries_total_fresh.
Qed.

Lemma add_missing_node_count G u :
  wf G ->
  number_of_nodes (add_missing_node G u)
  = number_of_nodes G + (if contains G u then 0 else 1).
Proof.
  intros W. unfold add_missing_node. rewrite <- (wf_contains_succ G u W).
  destruct (dict_contains (g_succ G) u) eqn:Hu; [lia|].
  unfold number_of_nodes. cbn [g_node]. rewrite length_dict_set.
  assert (Hn : dict_contains (g_node G) u = false)
    by (rewrite <- Hu; symmetry; apply contains_keys, W).
  now rewrite Hn.
Qed.

(** The graph [add_edge] leaves on a well-formed graph, spelled out. *)
Lemma with_edge_shape G u v attr :
  wf G ->
  exists nbrs_u nbrs_v,
    dict_get (g_succ (add_missing_node (add_missing_node G u) v)) u = Some nbrs_u
    /\ dict_get (g_pred (add_missing_node (add_missing_node G u) v)) v = Some nbrs_v
    /\ dict_contains nbrs_u v
       = match adj_get (g_succ G) u v with Some _ => true | None => false end
    /\ dict_contains nbrs_v u
       = match adj_get (g_succ G) u v with Some _ => true | None => false end
    /\ with_edge G u v attr
       = mk_DiGraph
           (g_node (add_missing_node (add_missing_node G u) v))
           (dict_set (g_succ (add_missing_node (add_missing_node G u) v)) u
              (dict_set nbrs_u v (stored_data G u v attr)))
           (dict_set (g_pred (add_missing_node (add_missing_node G u) v)) v
              (dict_set nbrs_v u (stored_data G u v attr))).
Proof.
  intros W. unfold with_edge, add_edge.
  set (G1 := add_missing_node (add_missing_node G u) v).
  assert (W1 : wf G1) by (apply add_missing_node_wf, add_missing_node_wf, W).
  assert (C1 : forall n, contains G1 n = str_eqb n u || str_eqb n v || contains G n).
  { intros n. unfold G1. rewrite add_missing_node_contains
      by (apply add_missing_node_wf, W).
    rewrite add_missing_node_contains by assumption.
    destruct (str_eqb n u), (str_eqb n v); reflexivity. }
  assert (A1 : forall x y, adj_get (g_succ G1) x y = adj_get (g_succ G) x y).
  { intros x y. unfold G1. now rewrite !add_missing_node_adj. }
  assert (Hu : dict_contains (g_succ G1) u = true).
  { rewrite (wf_contains_succ _ u W1), C1, str_eqb_refl. reflexivity. }
  assert (Hv : dict_contains (g_pred G1) v = true).
  { rewrite (wf_contains_pred _ v W1), C1, str_eqb_refl.
    now rewrite orb_true_r. }
  destruct (dict_contains_get _ _ Hu) as [nbrs_u Eu].
  destruct (dict_contains_get _ _ Hv) as [nbrs_v Ev].
  exists nbrs_u, nbrs_v.
  assert (Au : adj_get (g_succ G) u v = dict_get nbrs_u v).
  { rewrite <- A1. unfold adj_get. now rewrite Eu. }
  assert (Av : adj_get (g_succ G) u v = dict_get nbrs_v u).
  { rewrite <- A1, (wf_mirror _ W1). unfold adj_get. now rewrite Ev. }
  split; [exact Eu|]. split; [exact Ev|].
  split; [unfold dict_contains; now rewrite Au|].
  split; [unfold dict_contains; now rewrite Av|].
  assert (D : stored_data G u v attr
              = dict_update (dict_get_default nbrs_u v []) attr).
  { unfold stored_data, dict_get_default. now rewrite Au. }
  rewrite D. unfold dict_item. rewrite Eu. cbn [g_pred g_succ g_node].
  rewrite Ev. reflexivity.
Qed.

Lemma tidy_with_edge G u v attr : tidy G -> tidy (with_edge G u v attr).
Proof.
  intros T. pose proof (tidy_wf _ T) as W.
  destruct (add_edge_spec G u v attr W) as (_ & W' & _).
  destruct (with_edge_shape G u v attr W)
    as (nbrs_u & nbrs_v & Eu & Ev & Cu & Cv & Es).
  assert (T1 : tidy (add_missing_node (add_missing_node G u) v))
    by (apply tidy_add_missing_node, tidy_add_missing_node, T).
  set (G1 := add_missing_node (add_missing_node G u) v) in *.
  split; [exact W' | | | |]; rewrite Es; cbn [g_node g_succ g_pred nodes].
  - apply T1.
  - intros k nbrs H. destruct (In_dict_set _ _ _ _ _ H) as [[_ ->]|H'].
    + apply NoDup_keys_set. apply (tidy_succ _ T1 u). now apply dict_get_In.
    + now apply (tidy_succ _ T1 k).
  - intros k nbrs H. destruct (In_dict_set _ _ _ _ _ H) as [[_ ->]|H'].
    + apply NoDup_keys_set. apply (tidy_pred _ T1 v). now apply dict_get_In.
    + now apply (tidy_pred _ T1 k).
  - pose proof (entries_total_set _ _ _
                  (dict_set nbrs_u v (stored_data G u v attr)) Eu) as Hs.
    pose proof (entries_total_set _ _ _
                  (dict_set nbrs_v u (stored_data G u v attr)) Ev) as Hp.
    rewrite !length_dict_set, Cu in Hs. rewrite !length_dict_set, Cv in Hp.
    pose proof (tidy_balance _ T1) as Hb. lia.
Qed.

(** Adding an edge adds one entry when the pair was not joined, none when
    it was. *)
Lemma with_edge_entries G u v attr :
  wf G ->
  entries_total (g_succ (with_edge G u v attr))
  = entries_total (g_succ G)
    + match adj_get (g_succ G) u v with Some _ => 0 | None => 1 end.
Proof.
  intros W.
  destruct (with_edge_shape G u v attr W)
    as (nbrs_u & nbrs_v & Eu & Ev & Cu & Cv & Es).
  rewrite Es. cbn [g_succ].
  pose proof (entries_total_set _ _ _
                (dict_set nbrs_u v (stored_data G u v attr)) Eu) as Hs.
  rewrite length_dict_set, Cu, !add_missing_node_entries in Hs.
  destruct (adj_get (g_succ G) u v); lia.
Qed.

Lemma with_edge_node_count G u v attr :
  wf G ->
  number_of_nodes (with_edge G u v attr)
  = number_of_nodes G
    + (if contains G u then 0 else 1)
    + (if contains G v || str_eqb v u then 0 else 1).
Proof.
  intros W.
  destruct (with_edge_shape G u v attr W)
    as (nbrs_u & nbrs_v & Eu & Ev & Cu & Cv & Es).
  rewrite Es. unfold number_of_nodes at 1. cbn [g_node].
  change (length (g_node (add_missing_node (add_missing_node G u) v)))
    with (number_of_nodes (add_missing_node (add_missing_node G u) v)).
  rewrite add_missing_node_count by (apply add_missing_node_wf, W).
  rewrite add_missing_node_count by assumption.
  rewrite add_missing_node_contains by assumption.
  rewrite (orb_comm (str_eqb v u)). reflexivity.
Qed.

(** ** Counting the edges of a tidy graph *)

Lemma list_sum_map_add {A} (f g : A -> nat) (l : list A) :
  list_sum (List.map (fun x => f x + g x) l)
  = list_sum (List.map f l) + list_sum (List.map g l).
Proof.
  induction l as [|x l IH]; [reflexivity|].
  cbn [List.map]. change (list_sum (?a :: ?r)) with (a + list_sum r).
  change (list_sum (f x :: List.map f l)) with (f x + list_sum (List.map f l)).
  change (list_sum (g x :: List.map g l)) with (g x + list_sum (List.map g l)).
  change (list_sum ((f x + g x) :: List.map (fun x => f x + g x) l))
    with (f x + g x + list_sum (List.map (fun x => f x + g x) l)).
  lia.
Qed.

Lemma lookup_sum (d : adjacency) :
  NoDup (dict_keys d) ->
  list_sum (List.map (fun k => length (dict_get_default d k [])) (dict_keys d))
  = entries_total d.
Proof.
  induction d as [|[k nb] d IH]; intros Hn; [reflexivity|].
  cbn [dict_keys List.map fst] in *. inversion Hn as [|? ? Hnot Hn']; subst.
  rewrite entries_total_cons.
  change (list_sum (?a :: ?r)) with (a + list_sum r).
  unfold dict_get_default at 1. cbn [dict_get]. rewrite str_eqb_refl.
  f_equal. rewrite <- (IH Hn'). f_equal. apply map_ext_in.
  intros k' Hk'. unfold dict_get_default. cbn [dict_get].
  destruct (str_eqb k' k) eqn:E; [|reflexivity].
  apply str_eqb_eq in E. subst k'. contradiction.
Qed.

Lemma total_degree_tidy G : tidy G -> total_degree G = 2 * length (edges G).
Proof.
  intros T. pose proof (tidy_wf _ T) as W. unfold total_degree.
  rewrite list_sum_map_add. unfold out_degree, in_degree.
  pose proof (tidy_nodes _ T) as Hn. unfold nodes in *.
  rewrite <- (wf_succ_keys _ W) at 1. rewrite <- (wf_pred_keys _ W) at 1.
  rewrite !lookup_sum.
  - rewrite (tidy_balance _ T), edges_length. lia.
  - now rewrite (wf_pred_keys _ W).
  - now rewrite (wf_succ_keys _ W).
Qed.

(** On a tidy graph [number_of_edges] counts the entries of the edge
    list. *)
Lemma edge_count_tidy G : tidy G -> edge_count G = length (edges G).
Proof.
  intros T. unfold edge_count. rewrite (total_degree_tidy _ T).
  rewrite Nat.mul_comm. apply Nat.div_mul. discriminate.
Qed.

Lemma number_of_edges_tidy G : tidy G -> number_of_edges G = Ok (length (edges G)).
Proof.
  intros T. rewrite (number_of_edges_ok _ (tidy_wf _ T)).
  now rewrite (edge_count_tidy _ T).
Qed.

(** ** The edge list of a tidy graph *)

Lemma edges_entry G u v dd :
  In (u, v, dd) (edges G) ->
  exists nbrs, In (u, nbrs) (g_succ G) /\ In (v, dd) nbrs.
Proof.
  unfold edges. intros H. apply in_flat_map in H.
  destruct H as ([n nbrs] & Hin & H). apply in_map_iff in H.
  destruct H as ([nbr d] & E & H). injection E as -> -> ->.
  now exists nbrs.
Qed.

Lemma edges_lookup G u v dd :
  tidy G -> In (u, v, dd) (edges G) -> adj_get (g_succ G) u v = Some dd.
Proof.
  intros T H. destruct (edges_entry _ _ _ _ H) as (nbrs & H1 & H2).
  unfold adj_get. rewrite (In_dict_get _ _ _ ltac:(rewrite (wf_succ_keys _ (tidy_wf _ T)); apply T) H1).
  apply In_dict_get; [|exact H2]. now apply (tidy_succ _ T u).
Qed.

Lemma edges_endpoints G u v dd :
  tidy G -> In (u, v, dd) (edges G) -> In u (nodes G) /\ In v (nodes G).
Proof.
  intros T H. pose proof (tidy_wf _ T) as W.
  pose proof (edges_lookup _ _ _ _ T H) as E. split.
  - apply dict_contains_In. change (contains G u = true).
    rewrite <- (wf_contains_succ _ u W). exact (adj_get_contains_l _ _ _ _ E).
  - apply dict_contains_In. change (contains G v = true).
    rewrite <- (wf_contains_succ _ v W). apply (wf_closed_succ _ W u v).
    unfold nbr_in. now rewrite E.
Qed.

Lemma pair_with_NoDup (n : pystr) (l : list pystr) :
  NoDup l -> NoDup (List.map (pair n) l).
Proof.
  induction 1 as [|x l Hx Hl IH]; [constructor|].
  cbn [List.map]. constructor; [|exact IH].
  intros Hc. apply in_map_iff in Hc. destruct Hc as (y & E & Hy).
  injection E as ->. contradiction.
Qed.

Lemma entry_pairs (n : pystr) (nbrs : dict attrs) :
  List.map (fun '(u, v, _) => (u, v))
    (List.map (fun '(nbr, dd) => (n, nbr, dd)) nbrs)
  = List.map (pair n) (dict_keys nbrs).
Proof.
  unfold dict_keys. rewrite !map_map. apply map_ext. now intros [nbr dd].
Qed.

Lemma pairs_NoDup (adj : adjacency) :
  NoDup (dict_keys adj) ->
  (forall u nbrs, In (u, nbrs) adj -> NoDup (dict_keys nbrs)) ->
  NoDup (List.map (fun '(u, v, _) => (u, v))
           (flat_map (fun '(n, nbrs) =>
                        List.map (fun '(nbr, dd) => (n, nbr, dd)) nbrs) adj)).
Proof.
  induction adj as [|[n nbrs] adj IH]; intros Hk Hin; [constructor|].
  cbn [dict_keys List.map fst] in Hk. inversion Hk as [|? ? Hnot Hk']; subst.
  cbn [flat_map]. rewrite map_app, entry_pairs. apply NoDup_app.
  - apply pair_with_NoDup. apply (Hin n). now left.
  - apply IH; [exact Hk'|]. intros u nb H. apply (Hin u). now right.
  - intros [a b] H1 H2. apply in_map_iff in H1.
    destruct H1 as (x & E1 & _). injection E1 as <- _.
    apply in_map_iff in H2. destruct H2 as ([[a2 b2] d2] & E2 & H2).
    injection E2 as -> ->. apply in_flat_map in H2.
    destruct H2 as ([n' nb'] & Hn' & H2). apply in_map_iff in H2.
    destruct H2 as ([nbr' dd'] & E & _). injection E as -> _ _.
    apply Hnot. apply in_map_iff. now exists (n, nb').
Qed.

Lemma edge_pairs_NoDup G : tidy G -> NoDup (edge_pairs G).
Proof.
  intros T. unfold edge_pairs, edges. apply pairs_NoDup.
  - rewrite (wf_succ_keys _ (tidy_wf _ T)). apply T.
  - apply T.
Qed.

(** ** Computations that keep a property of the graph *)

Section Keeps.

Variable P : DiGraph -> Prop.

Lemma keeps_P_ret {A} (a : A) : keeps P (ret a).
Proof. intros G H. exact H. Qed.

Lemma keeps_P_lift {A} (r : result A) : keeps P (lift r).
Proof. intros G H. exact H. Qed.

Lemma keeps_P_read {A} (f : DiGraph -> A) : keeps P (read f).
Proof. intros G H. exact H. Qed.

Lemma keeps_P_read_r {A} (f : DiGraph -> result A) : keeps P (read_r f).
Proof. intros G H. exact H. Qed.

Lemma keeps_P_mbind {A B} (m : M A) (f : A -> M B) :
  keeps P m -> (forall a, keeps P (f a)) -> keeps P (mbind m f).
Proof.
  intros Hm Hf G H. unfold mbind. specialize (Hm G H).
  destruct (m G) as [[a|e] G1]; cbn [snd] in *; [now apply Hf | assumption].
Qed.

Lemma keeps_P_catch {A} (m : M A) (h : exn -> M A) :
  keeps P m -> (forall e, keeps P (h e)) -> keeps P (catch m h).
Proof.
  intros Hm Hh G H. unfold catch. specialize (Hm G H).
  destruct (m G) as [[a|e] G1]; cbn [snd] in *; [assumption | now apply Hh].
Qed.

Lemma keeps_P_respond status payload : keeps P (respond status payload).
Proof. apply keeps_P_mbind; intros; [apply keeps_P_lift | apply keeps_P_ret]. Qed.

Lemma keeps_P_read_only {A} (m : M A) : read_only m -> keeps P m.
Proof. intros Hm G H. now rewrite Hm. Qed.

End Keeps.

Ltac keeps_P :=
  repeat first
    [ apply keeps_P_ret | apply keeps_P_lift | apply keeps_P_read
    | apply keeps_P_read_r | apply keeps_P_respond
    | apply keeps_P_catch; [|intro]
    | apply keeps_P_mbind; [|intro]
    | progress cbv zeta
    | match goal with
      | |- keeps _ (if ?b then _ else _) => destruct b
      | |- keeps _ (match ?x with _ => _ end) => destruct x
      end ].

(** ** The effect of each route on the graph *)

(** POST /api/add_relationship leaves the graph with the requested edge,
    and leaves it as it was when the request asks for none. *)
Lemma add_relationship_effect (request_json : result pyval) (G : DiGraph) :
  snd (add_relationship request_json G) = apply_request G request_json.
Proof.
  unfold apply_request, requested_edge.
  destruct request_json as [data|e]; [|reflexivity].
  destruct data as [| | | | |l|d|st b]; try reflexivity.
  destruct (dict_get_default d (py "entity1") (PStr [])) as [| | | |s1| | |] eqn:E1;
    try (unfold add_relationship; run_view; cbn [py_get]; rewrite E1; reflexivity).
  destruct (dict_get_default d (py "relationship") (PStr [])) as [| | | |s2| | |] eqn:E2;
    try (unfold add_relationship; run_view; cbn [py_get]; rewrite E1, E2;
         reflexivity).
  destruct (dict_get_default d (py "entity2") (PStr [])) as [| | | |s3| | |] eqn:E3;
    try (unfold add_relationship; run_view; cbn [py_get]; rewrite E1, E2, E3;
         reflexivity).
  destruct (is_empty (strip s1) || is_empty (strip s2) || is_empty (strip s3)) eqn:Eb.
  - now rewrite (add_relationship_blank_rejected G d s1 s2 s3 E1 E2 E3 Eb).
  - unfold add_relationship. run_view. cbn [py_get]. rewrite E1, E2, E3.
    cbn [py_strip]. rewrite Eb. unfold with_edge.
    destruct (add_edge (strip s1) (strip s3) (relationship_attr (strip s2)) G)
      as [[[]|e] G2]; cbn [snd]; [|reflexivity].
    match goal with |- context [jsonify ?v] => destruct (jsonify v) end;
      reflexivity.
Qed.

Lemma requested_edge_clean request_json e1 r e2 :
  requested_edge request_json = Some (e1, r, e2) ->
  clean_name e1 /\ clean_name r /\ clean_name e2.
Proof.
  unfold requested_edge. destruct request_json as [[| | | | |l|d|st b]|e];
    try discriminate.
  destruct (dict_get_default d (py "entity1") (PStr [])); try discriminate.
  destruct (dict_get_default d (py "relationship") (PStr [])); try discriminate.
  destruct (dict_get_default d (py "entity2") (PStr [])); try discriminate.
  destruct (is_empty (strip s) || is_empty (strip s0) || is_empty (strip s1)) eqn:Eb;
    [discriminate|].
  intros [= <- <- <-].
  apply orb_false_iff in Eb. destruct Eb as [Eb N3].
  apply orb_false_iff in Eb. destruct Eb as [N1 N2].
  apply is_empty_false in N1, N2, N3.
  repeat split; try assumption; apply strip_idempotent.
Qed.

Lemma built_apply_request G request_json :
  built G -> built (apply_request G request_json).
Proof.
  intros B. unfold apply_request.
  destruct (requested_edge request_json) as [[[e1 r] e2]|] eqn:E; [|exact B].
  destruct (requested_edge_clean _ _ _ _ E) as (C1 & C2 & C3).
  now constructor.
Qed.

(** One row of a bulk import has the effect of the request made of its
    three cells. *)
Lemma import_row_effect (cols : list pystr) (row : list cell) (G : DiGraph) :
  snd (import_row cols row G) = apply_request G (row_request cols row).
Proof.
  unfold apply_request, requested_edge, row_request, import_row.
  unfold mbind, lift, ret.
  destruct (row_item cols row (py "Entity1")) as [c1|e]; [|reflexivity].
  destruct (row_item cols row (py "Relationship")) as [c2|e]; [|reflexivity].
  destruct (row_item cols row (py "Entity2")) as [c3|e]; [|reflexivity].
  cbn [bind]. cbv zeta.
  change (dict_get_default _ (py "entity1") (PStr [])) with (PStr (str_of_cell c1)).
  change (dict_get_default _ (py "relationship") (PStr []))
    with (PStr (str_of_cell c2)).
  change (dict_get_default _ (py "entity2") (PStr [])) with (PStr (str_of_cell c3)).
  cbv iota beta.
  destruct (is_empty (strip (str_of_cell c1))),
           (is_empty (strip (str_of_cell c2))),
           (is_empty (strip (str_of_cell c3))); cbn [negb andb orb];
    try reflexivity.
  unfold with_edge.
  destruct (add_edge _ _ _ G) as [[[]|e] G2]; reflexivity.
Qed.

(** The rows of a bulk import, applied in order. *)
Lemma import_rows_effect (cols : list pystr) (rs : list (nat * list cell)) :
  forall added_count errors G,
    snd (import_rows cols rs added_count errors G)
    = fold_left (fun G ir => apply_request G (row_request cols (snd ir))) rs G.
Proof.
  induction rs as [|[index row] rs IH]; intros added_count errors G;
    [reflexivity|].
  cbn [import_rows fold_left snd]. rewrite <- import_row_effect.
  unfold mbind, catch, ret.
  destruct (import_row cols row G) as [[added|e] G1]; cbn [snd]; apply IH.
Qed.

Lemma fold_iterrows {B} (f : B -> list cell -> B) (df : DataFrame) (b : B) :
  fold_left (fun b ir => f b (snd ir)) (iterrows df) b = fold_left f (rows df) b.
Proof.
  unfold iterrows. generalize 0 as start. revert b.
  induction (rows df) as [|row rs IH]; intros b start; [reflexivity|].
  cbn [length seq combine fold_left snd]. apply IH.
Qed.

(** POST /api/upload_csv leaves the graph with each row applied in order
    as a request of its own; a request the route rejects leaves it as it
    was. *)
Lemma upload_csv_effect (files : dict FileStorage) (G : DiGraph) :
  snd (upload_csv files G)
  = match accepted_frame files with
    | Some df =>
        fold_left (fun G row => apply_request G (row_request (columns df) row))
                  (rows df) G
    | None => G
    end.
Proof.
  unfold upload_csv, accepted_frame.
  destruct (dict_get files (py "file")) as [file|]; [|reflexivity].
  destruct (is_empty (filename file)); [reflexivity|].
  unfold catch, mbind at 1, lift at 1.
  destruct (read_csv file) as [df|e]; [|reflexivity].
  unfold has_required_columns.
  destruct (forallb (fun col => existsb (str_eqb col) (columns df))
              required_columns); cbn [negb]; [|reflexivity].
  rewrite <- (fold_iterrows (fun G row => apply_request G (row_request (columns df) row))).
  rewrite <- (import_rows_effect (columns df) (iterrows df) 0 [] G).
  unfold mbind at 1.
  destruct (import_rows (columns df) (iterrows df) 0 [] G)
    as [[[added_count errors]|e] G1]; cbn [snd]; [|reflexivity].
  unfold mbind, read, lift, ret.
  match goal with |- context [jsonify ?v] => destruct (jsonify v) end;
    reflexivity.
Qed.

(** POST /api/clear_graph leaves the seeded graph, or the graph as it was
    when the counts could not be read. *)
Lemma clear_graph_effect (G : DiGraph) :
  snd (clear_graph G) = G \/ snd (clear_graph G) = knowledge_graph.
Proof.
  destruct (number_of_edges G) as [edge_count|e] eqn:E.
  - right.
    assert (R : exists r, clear_graph G = (r, knowledge_graph)).
    { unfold clear_graph.
      unfold catch, mbind at 1 2 3 4, read, read_r, rebind.
      rewrite E, initialize_sample_data_run.
      unfold mbind at 1. rewrite (get_graph_data_ok _ wf_knowledge_graph).
      eexists. reflexivity. }
    destruct R as (r & ->). reflexivity.
  - left.
    assert (R : exists r, clear_graph G = (r, G)).
    { unfold clear_graph.
      unfold catch, mbind at 1 2 3 4, read, read_r, rebind.
      rewrite E. eexists. reflexivity. }
    destruct R as (r & ->). reflexivity.
Qed.

Section Reach.

Variable betweenness_centrality : DiGraph -> dict Q.

Lemma built_serve (r : request) (G : DiGraph) :
  built G -> built (snd (serve betweenness_centrality r G)).
Proof.
  intros B. destruct r as [rj|files|rj| |]; cbn [serve].
  - rewrite add_relationship_effect. now apply built_apply_request.
  - rewrite upload_csv_effect. destruct (accepted_frame files) as [df|]; [|exact B].
    revert G B. induction (rows df) as [|row rs IH]; intros G B; [exact B|].
    cbn [fold_left]. apply IH. now apply built_apply_request.
  - now rewrite query_graph_read_only.
  - now rewrite get_graph_data_read_only.
  - destruct (clear_graph_effect G) as [-> | ->]; [exact B | constructor].
Qed.

(** Every graph the service reaches is the seeded graph with edges of
    clean names added. *)
Lemma serve_all_built (rs : list request) :
  built (serve_all betweenness_centrality rs knowledge_graph).
Proof.
  assert (H : forall G, built G -> built (serve_all betweenness_centrality rs G)).
  { induction rs as [|r rs IH]; intros G B; cbn [serve_all]; [exact B|].
    apply IH. now apply built_serve. }
  apply H. constructor.
Qed.

End Reach.

(** ** What every reachable graph satisfies *)

Lemma keeps_tidy_add_all rels : keeps tidy (add_all rels).
Proof.
  induction rels as [|[[e1 r] e2] rels IH]; cbn [add_all].
  - apply keeps_P_ret.
  - apply keeps_P_mbind; [|intro; exact IH].
    intros G T. apply (tidy_with_edge G e1 e2 (relationship_attr r) T).
Qed.

Lemma tidy_knowledge_graph : tidy knowledge_graph.
Proof.
  unfold knowledge_graph, initialize_sample_data.
  apply (keeps_P_mbind tidy (add_all sample_relationships)
           (fun _ => ret (length sample_relationships))).
  - apply keeps_tidy_add_all.
  - intro. apply keeps_P_ret.
  - apply tidy_empty.
Qed.

Lemma built_tidy G : built G -> tidy G.
Proof.
  induction 1 as [|G e1 r e2 B IH C1 C2 C3];
    [apply tidy_knowledge_graph | now apply tidy_with_edge].
Qed.

Lemma built_wf G : built G -> wf G.
Proof. intros B. apply tidy_wf, built_tidy, B. Qed.

Lemma named_knowledge_graph : named knowledge_graph.
Proof.
  intros n Hn. vm_compute in Hn.
  repeat (destruct Hn as [<-|Hn];
          [split; [discriminate | vm_compute; reflexivity]|]).
  destruct Hn.
Qed.

Lemma built_named G : built G -> named G.
Proof.
  induction 1 as [|G e1 r e2 B IH C1 C2 C3]; [apply named_knowledge_graph|].
  intros n Hn. apply dict_contains_In in Hn.
  change (contains (with_edge G e1 e2 (relationship_attr r)) n = true) in Hn.
  destruct (add_edge_spec G e1 e2 (relationship_attr r) (built_wf _ B))
    as (_ & _ & _ & Hc).
  rewrite Hc in Hn.
  destruct (str_eqb n e1) eqn:E1; [apply str_eqb_eq in E1; now subst|].
  destruct (str_eqb n e2) eqn:E2; [apply str_eqb_eq in E2; now subst|].
  apply IH. now apply dict_contains_In.
Qed.

Lemma labelled_knowledge_graph : labelled knowledge_graph.
Proof.
  intros u v dd H. apply edges_In in H. vm_compute in H.
  repeat (destruct H as [H|H];
          [injection H as <- <- <-; eexists; split;
           [vm_compute; reflexivity
           | split; [discriminate | vm_compute; reflexivity]]|]).
  destruct H.
Qed.

Lemma stored_relationship_get G u v r :
  dict_get (stored_data G u v (relationship_attr r)) (py "relationship") = Some r.
Proof.
  unfold stored_data, dict_update, relationship_attr.
  cbn [fold_left fst snd]. apply dict_get_set_same.
Qed.

Lemma built_labelled G : built G -> labelled G.
Proof.
  induction 1 as [|G e1 r e2 B IH C1 C2 C3]; [apply labelled_knowledge_graph|].
  intros u v dd H.
  destruct (add_edge_spec G e1 e2 (relationship_attr r) (built_wf _ B))
    as (_ & _ & Ha & _).
  rewrite Ha in H. destruct (str_eqb u e1 && str_eqb v e2).
  - injection H as <-. exists r. split; [apply stored_relationship_get | exact C2].
  - exact (IH u v dd H).
Qed.

Lemma extends_refl G : extends G G.
Proof. split; auto. Qed.

Lemma extends_trans G1 G2 G3 : extends G1 G2 -> extends G2 G3 -> extends G1 G3.
Proof. intros [A1 B1] [A2 B2]. split; auto. Qed.

Lemma extends_with_edge G u v attr : wf G -> extends G (with_edge G u v attr).
Proof.
  intros W. destruct (add_edge_spec G u v attr W) as (_ & _ & Ha & Hc). split.
  - intros n Hn. rewrite Hc, Hn. apply orb_true_r.
  - intros x y H. unfold has_edge in *. rewrite Ha.
    destruct (str_eqb x u && str_eqb y v); [discriminate | exact H].
Qed.

Lemma wf_apply_request G request_json : wf G -> wf (apply_request G request_json).
Proof.
  intros W. unfold apply_request.
  destruct (requested_edge request_json) as [[[e1 r] e2]|]; [|exact W].
  now destruct (add_edge_spec G e1 e2 (relationship_attr r) W) as (_ & W' & _).
Qed.

Lemma extends_apply_request G request_json :
  wf G -> extends G (apply_request G request_json).
Proof.
  intros W. unfold apply_request.
  destruct (requested_edge request_json) as [[[e1 r] e2]|];
    [now apply extends_with_edge | apply extends_refl].
Qed.

Lemma extends_fold_requests (reqs : list (result pyval)) :
  forall G, wf G ->
    extends G (fold_left apply_request reqs G).
Proof.
  induction reqs as [|rq reqs IH]; intros G W; [apply extends_refl|].
  cbn [fold_left]. eapply extends_trans; [apply extends_apply_request, W|].
  apply IH, wf_apply_request, W.
Qed.

Lemma fold_rows_as_requests (cols : list pystr) (rws : list (list cell)) G :
  fold_left (fun G row => apply_request G (row_request cols row)) rws G
  = fold_left apply_request (List.map (row_request cols) rws) G.
Proof.
  revert G. induction rws as [|row rws IH]; intros G; [reflexivity|].
  cbn [fold_left List.map]. apply IH.
Qed.

Lemma built_extends_seed G : built G -> extends knowledge_graph G.
Proof.
  induction 1 as [|G e1 r e2 B IH C1 C2 C3]; [apply extends_refl|].
  eapply extends_trans; [exact IH|]. apply extends_with_edge, built_wf, B.
Qed.

Lemma built_edge_total G :
  built G -> 13 <= length (edges G) /\ 9 <= number_of_nodes G.
Proof.
  induction 1 as [|G e1 r e2 B IH C1 C2 C3]; [split; vm_compute; lia|].
  rewrite edges_length, with_edge_entries, with_edge_node_count
    by (apply built_wf, B).
  rewrite edges_length in IH. lia.
Qed.

(** ** Bulk import: the answer *)

Lemma row_item_ok (cols : list pystr) (col : pystr) :
  existsb (str_eqb col) cols = true ->
  forall row, length row = length cols ->
  exists c, row_item cols row col = Ok c.
Proof.
  induction cols as [|c cols IH]; [discriminate|].
  intros He [|x row] Hl; [discriminate|].
  cbn [row_item]. cbn [existsb] in He. destruct (str_eqb col c); [now exists x|].
  apply IH; [exact He | now injection Hl].
Qed.

Lemma rectangular_readable (df : DataFrame) (row : list cell) :
  has_required_columns df = true -> rectangular df -> In row (rows df) ->
  readable (columns df) row.
Proof.
  unfold has_required_columns, required_columns. cbn [forallb].
  intros Hc Hr Hin. apply andb_prop in Hc. destruct Hc as [H1 Hc].
  apply andb_prop in Hc. destruct Hc as [H2 Hc].
  apply andb_prop in Hc. destruct Hc as [H3 _].
  specialize (Hr row Hin).
  destruct (row_item_ok _ _ H1 row Hr) as [c1 E1].
  destruct (row_item_ok _ _ H2 row Hr) as [c2 E2].
  destruct (row_item_ok _ _ H3 row Hr) as [c3 E3].
  now exists c1, c2, c3.
Qed.

Lemma import_row_run (cols : list pystr) (row : list cell) (G : DiGraph) :
  wf G -> readable cols row ->
  import_row cols row G
  = (Ok (row_filled cols row), apply_request G (row_request cols row)).
Proof.
  intros W (c1 & c2 & c3 & E1 & E2 & E3).
  rewrite <- import_row_effect.
  unfold import_row, row_filled. unfold mbind, lift, ret.
  rewrite E1, E2, E3. cbv zeta.
  destruct (negb (is_empty (strip (str_of_cell c1)))
            && negb (is_empty (strip (str_of_cell c2)))
            && negb (is_empty (strip (str_of_cell c3)))); [|reflexivity].
  destruct (add_edge_spec G (strip (str_of_cell c1)) (strip (str_of_cell c3))
              (relationship_attr (strip (str_of_cell c2))) W) as (-> & _).
  reflexivity.
Qed.

Lemma import_rows_run (cols : list pystr) (rs : list (nat * list cell)) :
  forall added_count errors G,
    wf G ->
    (forall ir, In ir rs -> readable cols (snd ir)) ->
    import_rows cols rs added_count errors G
    = (Ok (added_count + length (filter (row_filled cols) (List.map snd rs)),
           errors),
       fold_left (fun G ir => apply_request G (row_request cols (snd ir))) rs G).
Proof.
  induction rs as [|[index row] rs IH]; intros added_count errors G W Hr.
  - cbn. now rewrite Nat.add_0_r.
  - cbn [import_rows fold_left List.map filter snd].
    unfold mbind at 1. unfold catch, mbind at 1.
    rewrite (import_row_run cols row G W (Hr (index, row) (or_introl eq_refl))).
    unfold ret. cbv beta iota.
    rewrite IH; [|now apply wf_apply_request | intros ir H; apply Hr; now right].
    destruct (row_filled cols row); cbn [length]; do 3 f_equal; lia.
Qed.

Lemma iterrows_rows (df : DataFrame) : List.map snd (iterrows df) = rows df.
Proof.
  unfold iterrows. generalize 0 as start.
  induction (rows df) as [|row rs IH]; intros start; [reflexivity|].
  cbn [length seq combine List.map snd]. now rewrite IH.
Qed.

Lemma iterrows_In (df : DataFrame) ir : In ir (iterrows df) -> In (snd ir) (rows df).
Proof.
  intros H. rewrite <- iterrows_rows. apply in_map_iff. now exists ir.
Qed.

Lemma wf_fold_rows (cols : list pystr) (rws : list (list cell)) G :
  wf G ->
  wf (fold_left (fun G row => apply_request G (row_request cols row)) rws G).
Proof.
  revert G. induction rws as [|row rws IH]; intros G W; [exact W|].
  cbn [fold_left]. apply IH, wf_apply_request, W.
Qed.

(** The answer to an upload the route accepts, for a frame in which every
    row has a cell for every column. *)
Lemma upload_csv_run (files : dict FileStorage) (df : DataFrame) (G : DiGraph) :
  wf G ->
  accepted_frame files = Some df ->
  rectangular df ->
  upload_csv files G
  = (Ok (Resp
           (PResponse 200
              (PDict [ (py "success", PBool true);
                       (py "message",
                        PStr (py "Successfully added "
                              ++ str_of_nat (length (filter (row_filled (columns df)) (rows df)))
                              ++ py " relationships from CSV"));
                       (py "added_count",
                        PInt (Z.of_nat (length (filter (row_filled (columns df)) (rows df)))));
                       (py "errors", PNone);
                       (py "graph_data",
                        PDict (snapshot
                                 (fold_left
                                    (fun G row =>
                                       apply_request G (row_request (columns df) row))
                                    (rows df) G))) ]))),
     fold_left (fun G row => apply_request G (row_request (columns df) row))
               (rows df) G).
Proof.
  intros W Ha Hr. unfold accepted_frame in Ha. unfold upload_csv.
  destruct (dict_get files (py "file")) as [file|]; [|discriminate].
  destruct (is_empty (filename file)); [discriminate|].
  unfold catch, mbind at 1, lift at 1.
  destruct (read_csv file) as [df'|e]; [|discriminate].
  destruct (has_required_columns df') eqn:Hc; [|discriminate].
  injection Ha as ->. unfold has_required_columns in Hc. rewrite Hc. cbn [negb].
  unfold mbind at 1.
  rewrite (import_rows_run (columns df) (iterrows df) 0 [] G W).
  2:{ intros ir H. apply (rectangular_readable df); try assumption.
      now apply iterrows_In. }
  rewrite iterrows_rows.
  rewrite (fold_iterrows
             (fun G row => apply_request G (row_request (columns df) row)) df G).
  cbn [Nat.add].
  unfold mbind at 1, read.
  rewrite (get_graph_data_dict_ok _ (wf_fold_rows _ _ _ W)).
  unfold mbind, lift, ret, jsonify.
  match goal with
  | |- context [first_unserializable ?v] =>
      assert (S : first_unserializable v = None)
  end.
  { apply first_unserializable_dict. intros k x Hx. cbn [In] in Hx.
    destruct Hx as [E|[E|[E|[E|[E|[]]]]]]; injection E as <- <-; try reflexivity.
    apply snapshot_serializable. }
  rewrite S. reflexivity.
Qed.

(** ** GET /api/graph_stats *)

Lemma fold_set_fresh {V} (l : list (pystr * V)) :
  forall acc,
    NoDup (List.map fst (acc ++ l)) ->
    fold_left (fun acc kv => dict_set acc (fst kv) (snd kv)) l acc = acc ++ l.
Proof.
  induction l as [|[k v] l IH]; intros acc Hn; [now rewrite app_nil_r|].
  cbn [fold_left fst snd].
  assert (Hk : dict_contains acc k = false).
  { apply dict_contains_not_In. intros Hin. rewrite map_app in Hn.
    cbn [List.map fst] in Hn. apply NoDup_remove_2 in Hn. apply Hn.
    apply in_or_app. now left. }
  rewrite dict_set_absent by assumption.
  rewrite IH; rewrite <- app_assoc; [reflexivity | exact Hn].
Qed.

Lemma dict_of_pairs_NoDup {V} (l : list (pystr * V)) :
  NoDup (List.map fst l) -> dict_of_pairs l = l.
Proof. intros H. unfold dict_of_pairs. now rewrite fold_set_fresh. Qed.

Lemma average_degree_tidy G :
  tidy G -> 0 < number_of_nodes G ->
  average_degree G
  = Ok (PFloat (inject_Z (Z.of_nat (2 * length (edges G)))
                / inject_Z (Z.of_nat (number_of_nodes G)))%Q).
Proof.
  intros T Hn. unfold average_degree.
  apply Nat.ltb_lt in Hn. rewrite Hn.
  rewrite (degree_ok _ (tidy_wf _ T)). cbn [bind].
  rewrite dict_of_pairs_NoDup.
  - rewrite map_map. cbn [snd].
    change (list_sum (List.map (fun n => out_degree G n + in_degree G n) (nodes G)))
      with (total_degree G).
    now rewrite (total_degree_tidy _ T).
  - rewrite map_map. cbn [fst]. rewrite map_id. apply T.
Qed.

Lemma density_tidy G :
  tidy G ->
  density G
  = Ok (if (length (edges G) =? 0) || (number_of_nodes G <=? 1) then PInt 0
        else PFloat (inject_Z (Z.of_nat (length (edges G)))
                     / inject_Z (Z.of_nat (number_of_nodes G
                                           * (number_of_nodes G - 1))))%Q).
Proof.
  intros T. unfold density. rewrite (number_of_edges_tidy _ T). cbn [bind].
  destruct ((length (edges G) =? 0) || (number_of_nodes G <=? 1)); reflexivity.
Qed.

Ltac reads_only :=
  repeat first
    [ apply read_only_ret | apply read_only_lift | apply read_only_read
    | apply read_only_read_r | apply read_only_respond
    | apply read_only_catch; [|intro]
    | apply read_only_mbind; [|intro]
    | progress cbv zeta
    | match goal with
      | |- read_only (if ?b then _ else _) => destruct b
      | |- read_only (match ?x with _ => _ end) => destruct x
      end ].

Section StatsFacts.

Variable is_weakly_connected : DiGraph -> result bool.

Lemma get_graph_stats_read_only : read_only (get_graph_stats is_weakly_connected).
Proof. unfold get_graph_stats, internal_error. reads_only. Qed.

Lemma get_graph_stats_run (G : DiGraph) (b : bool) :
  tidy G -> 1 < number_of_nodes G -> 0 < length (edges G) ->
  is_weakly_connected G = Ok b ->
  get_graph_stats is_weakly_connected G
  = (Ok (Resp
           (PResponse 200
              (PDict [ (py "success", PBool true);
                       (py "stats",
                        PDict [ (py "total_nodes",
                                 PInt (Z.of_nat (number_of_nodes G)));
                                (py "total_edges",
                                 PInt (Z.of_nat (length (edges G))));
                                (py "is_connected", PBool b);
                                (py "density",
                                 PFloat (inject_Z (Z.of_nat (length (edges G)))
                                         / inject_Z
                                             (Z.of_nat (number_of_nodes G
                                                        * (number_of_nodes G - 1))))%Q);
                                (py "average_degree",
                                 PFloat (inject_Z (Z.of_nat (2 * length (edges G)))
                                         / inject_Z (Z.of_nat (number_of_nodes G)))%Q)
                              ]) ]))),
     G).
Proof.
  intros T Hn Hm Hb. unfold get_graph_stats.
  unfold catch, mbind, read, read_r, lift, ret.
  rewrite (number_of_edges_tidy _ T), Hb, (density_tidy _ T).
  rewrite (average_degree_tidy _ T) by lia.
  assert (E : (length (edges G) =? 0) || (number_of_nodes G <=? 1) = false).
  { apply orb_false_iff. split; [apply Nat.eqb_neq | apply Nat.leb_gt]; lia. }
  rewrite E. reflexivity.
Qed.

End StatsFacts.

(** ** The search finds a shortest path *)

Lemma hops_app E a b c i j :
  hops E a b i -> hops E b c j -> hops E a c (i + j).
Proof.
  intros H1 H2. induction H2 as [|b' c' j H2 IH He].
  - now rewrite Nat.add_0_r.
  - rewrite Nat.add_succ_r. econstructor; eassumption.
Qed.

Lemma hops_split E a c i j :
  hops E a c (i + j) -> exists b, hops E a b i /\ hops E b c j.
Proof.
  revert c. induction j as [|j IH]; intros c H.
  - rewrite Nat.add_0_r in H. exists c. split; [assumption | constructor].
  - rewrite Nat.add_succ_r in H. inversion H as [|b0 c0 n0 H1 He]; subst.
    destruct (IH _ H1) as (b & Ha & Hb).
    exists b. split; [assumption | econstructor; eassumption].
Qed.

Lemma hops_first E a b c n :
  E a b -> hops E b c n -> hops E a c (S n).
Proof.
  intros He H. change (S n) with (1 + n).
  apply (hops_app E a b c 1 n); [|assumption].
  econstructor; [constructor | assumption].
Qed.

Lemma hops_impl (E E' : pystr -> pystr -> Prop) a b n :
  (forall x y, E x y -> E' x y) -> hops E a b n -> hops E' a b n.
Proof.
  intros H. induction 1; [constructor|]. econstructor; [eassumption|]. now apply H.
Qed.

Lemma hops_rev E a b n :
  hops E a b n -> hops (fun x y => E y x) b a n.
Proof.
  induction 1 as [|b c n H IH He]; [constructor|].
  now apply (hops_first (fun x y => E y x) c b a n).
Qed.

(** A directed path with [n] edges is [n] steps along the edges. *)
Lemma follows_hops G (x : pystr) (rest : list pystr) :
  follows_edges G x rest ->
  hops (has_edge G) x (last (x :: rest) x) (length rest).
Proof.
  revert x. induction rest as [|y rest IH]; intros x H; [constructor|].
  cbn [follows_edges] in H. destruct H as [Hxy H].
  change (last (x :: y :: rest) x) with (last (y :: rest) x).
  rewrite (last_cons_default y rest x y).
  cbn [length]. apply (hops_first _ x y); [assumption | now apply IH].
Qed.

Lemma path_hops G source target (q : list pystr) :
  path_between G source target q ->
  exists n, length q = S n /\ hops (has_edge G) source target n.
Proof.
  intros (rest & -> & Hl & Hf). exists (length rest). split; [reflexivity|].
  rewrite <- Hl. now apply follows_hops.
Qed.

Lemma hops_path G source target n :
  hops (has_edge G) source target n -> reachable G source target.
Proof.
  induction 1 as [|b c n H IH He].
  - exists [source]. exists []. repeat split.
  - destruct IH as (p & rest & -> & Hl & Hf).
    exists ((source :: rest) ++ [c]). exists (rest ++ [c]).
    split; [reflexivity|]. split.
    + change ((source :: rest) ++ [c]) with (source :: rest ++ [c]).
      change (source :: rest ++ [c]) with ((source :: rest) ++ [c]).
      now rewrite last_last.
    + clear H. revert source Hl Hf.
      induction rest as [|y rest IHr]; intros source Hl Hf.
      * cbn in Hl. subst b. cbn. split; [assumption | exact I].
      * cbn [follows_edges] in Hf. destruct Hf as [Hxy Hf].
        cbn [app follows_edges]. split; [assumption|].
        apply IHr; [|assumption].
        change (last (source :: y :: rest) source) with (last (y :: rest) source) in Hl.
        now rewrite (last_cons_default y rest source y) in Hl.
Qed.

(** *** Depths in the search dicts *)

Lemma at_depth_app (t ext : tree) x n :
  at_depth t x n -> at_depth (t ++ ext) x n.
Proof.
  induction 1 as [r Hr|x v n Hx H IH].
  - apply depth_root.
    rewrite dict_get_app_l by (eapply dict_get_Some_contains; eassumption).
    assumption.
  - apply (depth_child _ x v n); [|assumption].
    rewrite dict_get_app_l by (eapply dict_get_Some_contains; eassumption).
    assumption.
Qed.

Lemma at_depth_set (t : tree) w v x n :
  dict_contains t w = false -> at_depth t x n -> at_depth (dict_set t w v) x n.
Proof.
  intros Hw H. rewrite dict_set_absent by assumption. now apply at_depth_app.
Qed.

Lemma at_depth_new (t : tree) w v n :
  dict_contains t w = false -> at_depth t v n ->
  at_depth (dict_set t w (Some v)) w (S n).
Proof.
  intros Hw H. apply (depth_child _ w v n).
  - apply dict_get_set_same.
  - now apply at_depth_set.
Qed.

(** Climbing from a node at depth [n] collects [n] more nodes. *)
Lemma walk_depth (t : tree) w n :
  at_depth t w n ->
  forall fuel acc, n < fuel ->
    exists rest, walk fuel t (Some w) acc = Ok (acc ++ w :: rest)
                 /\ length rest = n.
Proof.
  induction 1 as [r Hr|x v n Hx H IH]; intros [|fuel] acc Hf; try lia.
  - exists []. split; [|reflexivity].
    cbn [walk]. unfold dict_item. rewrite Hr. cbn [bind].
    destruct fuel; reflexivity.
  - destruct (IH fuel (acc ++ [x])) as (rest & Hw & Hl); [lia|].
    exists (v :: rest). split; [|cbn; lia].
    cbn [walk]. unfold dict_item. rewrite Hx. cbn [bind].
    rewrite Hw. now rewrite <- app_assoc.
Qed.

Lemma tree_parent E root (t : tree) :
  tree_ok E root t -> forall x v, dict_get t x = Some (Some v) -> E v x.
Proof.
  induction 1 as [|t v0 w Ht IH Hv Hw He]; intros x v Hx.
  - cbn in Hx. destruct (str_eqb x root); discriminate.
  - destruct (dict_contains t x) eqn:Ex.
    + rewrite dict_get_app_l in Hx by assumption. now apply IH.
    + rewrite dict_get_app_r in Hx by assumption. cbn in Hx.
      destruct (str_eqb x w) eqn:Exw; [|discriminate].
      apply str_eqb_eq in Exw. subst x. injection Hx as <-. assumption.
Qed.

Lemma tree_none E root (t : tree) :
  tree_ok E root t -> forall x, dict_get t x = Some None -> x = root.
Proof.
  induction 1 as [|t v0 w Ht IH Hv Hw He]; intros x Hx.
  - cbn in Hx. destruct (str_eqb x root) eqn:Ex; [|discriminate].
    now apply str_eqb_eq.
  - destruct (dict_contains t x) eqn:Ex.
    + rewrite dict_get_app_l in Hx by assumption. now apply IH.
    + rewrite dict_get_app_r in Hx by assumption. cbn in Hx.
      destruct (str_eqb x w); discriminate.
Qed.

(** A node at depth [n] is [n] steps from the root. *)
Lemma at_depth_hops E root (t : tree) :
  tree_ok E root t -> forall x n, at_depth t x n -> hops E root x n.
Proof.
  intros Ht x n H. induction H as [r Hr|x v n Hx H IH].
  - rewrite (tree_none E root t Ht r Hr). constructor.
  - apply (hops_step E root v x n IH). exact (tree_parent E root t Ht x v Hx).
Qed.

Lemma apart_sym (a b : tree) : apart a b -> apart b a.
Proof.
  intros H x Hx. destruct (dict_contains a x) eqn:E; [|reflexivity].
  rewrite (H x E) in Hx. discriminate.
Qed.

(** *** One level of the search *)

Lemma scan_nbrs_depth (other : tree) (v : pystr) (D : nat) :
  forall nbrs mine fringe,
    growing D mine fringe -> apart mine other ->
    (exists n, at_depth mine v n /\ n <= D) ->
    match scan_nbrs v nbrs mine other fringe with
    | Next mine' fringe' =>
        growing D mine' fringe' /\ apart mine' other
        /\ sub_dict mine mine'
        /\ (forall x n, at_depth mine x n -> at_depth mine' x n)
        /\ (forall w, In w nbrs -> dict_contains mine' w = true)
    | Meet mine' w => exists n, at_depth mine' w n /\ n <= S D
    end.
Proof.
  induction nbrs as [|w nbrs IH]; intros mine fringe Hg Ha Hv.
  - cbn [scan_nbrs]. repeat split; try assumption.
    + apply sub_dict_refl.
    + intros x n H. exact H.
    + intros w [].
  - cbn [scan_nbrs]. destruct (dict_contains mine w) eqn:Ew.
    + rewrite (Ha w Ew).
      specialize (IH mine fringe Hg Ha Hv).
      destruct (scan_nbrs v nbrs mine other fringe) as [m f|m x]; [|exact IH].
      destruct IH as (I1 & I2 & I3 & I4 & I5).
      repeat split; try assumption.
      intros w' [<-|Hw']; [now apply I3 | now apply I5].
    + destruct Hv as (nv & Hnv & Hle).
      assert (Hg' : growing D (dict_set mine w (Some v)) (fringe ++ [w])).
      { intros x Hx. rewrite dict_contains_set in Hx.
        destruct (str_eqb x w) eqn:Exw.
        - apply str_eqb_eq in Exw. subst x. exists (S nv).
          split; [now apply at_depth_new|]. split; [lia|].
          intros Hn. exfalso. apply Hn. apply in_or_app. right. now left.
        - cbn [orb] in Hx. destruct (Hg x Hx) as (n & Hn & Hl & Hf).
          exists n. split; [now apply at_depth_set|]. split; [assumption|].
          intros Hnin. apply Hf. intros Hin. apply Hnin.
          apply in_or_app. now left. }
      destruct (dict_contains other w) eqn:Eo.
      * exists (S nv). split; [now apply at_depth_new | lia].
      * assert (Ha' : apart (dict_set mine w (Some v)) other).
        { intros x Hx. rewrite dict_contains_set in Hx.
          destruct (str_eqb x w) eqn:Exw.
          - apply str_eqb_eq in Exw. now subst x.
          - now apply Ha. }
        assert (Hv' : exists n, at_depth (dict_set mine w (Some v)) v n /\ n <= D).
        { exists nv. split; [now apply at_depth_set | assumption]. }
        specialize (IH _ _ Hg' Ha' Hv').
        destruct (scan_nbrs v nbrs (dict_set mine w (Some v)) other (fringe ++ [w]))
          as [m f|m x]; [|exact IH].
        destruct IH as (I1 & I2 & I3 & I4 & I5).
        repeat split; try assumption.
        -- eapply sub_dict_trans; [apply sub_dict_set | exact I3].
        -- intros x n H. apply I4. now apply at_depth_set.
        -- intros w' [<-|Hw']; [|now apply I5].
           apply I3. rewrite dict_contains_set, str_eqb_refl. reflexivity.
Qed.

Lemma scan_level_depth (adj : adjacency) (other : tree) (D : nat) :
  forall level mine fringe r,
    growing D mine fringe -> apart mine other ->
    (forall v, In v level -> exists n, at_depth mine v n /\ n <= D) ->
    scan_level adj level mine other fringe = Ok r ->
    match r with
    | Next mine' fringe' =>
        growing D mine' fringe' /\ apart mine' other
        /\ sub_dict mine mine'
        /\ (forall x n, at_depth mine x n -> at_depth mine' x n)
        /\ (forall v w, In v level -> nbr_in adj v w ->
                        dict_contains mine' w = true)
    | Meet mine' w => exists n, at_depth mine' w n /\ n <= S D
    end.
Proof.
  induction level as [|v level IH]; intros mine fringe r Hg Ha Hl Hr.
  - cbn [scan_level] in Hr. injection Hr as <-.
    repeat split; try assumption.
    + apply sub_dict_refl.
    + intros x n H. exact H.
    + intros v w [].
  - cbn [scan_level] in Hr. unfold dict_item in Hr.
    destruct (dict_get adj v) as [nbrs|] eqn:En; [|discriminate].
    cbn [bind] in Hr.
    pose proof (scan_nbrs_depth other v D (dict_keys nbrs) mine fringe Hg Ha
                  (Hl v (or_introl eq_refl))) as P.
    destruct (scan_nbrs v (dict_keys nbrs) mine other fringe) as [m f|m x].
    + destruct P as (P1 & P2 & P3 & P4 & P5).
      assert (Hl' : forall v', In v' level -> exists n, at_depth m v' n /\ n <= D).
      { intros v' Hv'. destruct (Hl v' (or_intror Hv')) as (n & Hn & Hle).
        exists n. split; [now apply P4 | assumption]. }
      specialize (IH m f r P1 P2 Hl' Hr).
      destruct r as [m' f'|m' x]; [|exact IH].
      destruct IH as (I1 & I2 & I3 & I4 & I5).
      repeat split; try assumption.
      * eapply sub_dict_trans; eassumption.
      * intros x n H. now apply I4, P4.
      * intros v' w [<-|Hv'] Hw; [|now apply (I5 v')].
        apply I3, P5. apply dict_contains_In.
        unfold nbr_in, adj_get in Hw. rewrite En in Hw.
        unfold dict_contains. destruct (dict_get nbrs w); [reflexivity | congruence].
    + injection Hr as <-. exact P.
Qed.

(** *** From one level to the next *)

Lemma covered_next adj root (mine : tree) fringe D (mine' : tree) fringe' :
  tree_ok (nbr_in adj) root mine ->
  covered adj root mine fringe D ->
  growing D mine' fringe' -> sub_dict mine mine' ->
  (forall v w, In v fringe -> nbr_in adj v w -> dict_contains mine' w = true) ->
  covered adj root mine' fringe' (S D).
Proof.
  intros Ht [Ca Cb] Hg Hs Hc. split.
  - intros x Hx. destruct (Hg x Hx) as (n & Hn & Hle & Hf).
    exists n. split; [assumption|]. split; [assumption|].
    intros Hnin. specialize (Hf Hnin). lia.
  - intros x n H Hle.
    destruct (Nat.eq_dec n (S D)) as [->|Hne]; [|apply Hs, (Cb x n H); lia].
    inversion H as [|b c n0 Hb He]; subst.
    assert (Hbm : dict_contains mine b = true) by (apply (Cb b D Hb); lia).
    destruct (in_dec (list_eq_dec N.eq_dec) b fringe) as [Hin|Hnin].
    + now apply (Hc b x).
    + destruct (Ca b Hbm) as (nb & Hnb & _ & Hlt). specialize (Hlt Hnin).
      apply Hs, (Cb x (S nb)); [|lia].
      apply (hops_step _ root b x nb); [|assumption].
      now apply (at_depth_hops _ root mine Ht).
Qed.

(** With an empty fringe the dict holds every node reached from the root. *)
Lemma covered_all adj root (mine : tree) D :
  tree_ok (nbr_in adj) root mine ->
  covered adj root mine [] D ->
  forall x n, hops (nbr_in adj) root x n -> dict_contains mine x = true.
Proof.
  intros Ht [Ca Cb] x n H. induction H as [|b c n H IH He].
  - now apply (tree_ok_root_in (nbr_in adj) root).
  - destruct (Ca b IH) as (nb & Hnb & _ & Hlt).
    specialize (Hlt (fun F => F)).
    apply (Cb c (S nb)); [|lia].
    apply (hops_step _ root b c nb); [|assumption].
    now apply (at_depth_hops _ root mine Ht).
Qed.

Lemma hops_back G source target n :
  wf G -> hops (has_edge G) source target n ->
  hops (nbr_in (g_pred G)) target source n.
Proof.
  intros W H. apply hops_rev in H.
  apply (hops_impl (fun x y => has_edge G y x)); [|assumption].
  intros x y Hxy. unfold nbr_in. unfold has_edge in Hxy.
  now rewrite <- (wf_mirror _ W).
Qed.

(** While the two dicts share no node, every path from the source to the
    target is longer than the two searches are deep together. *)
Lemma meet_bound G source target (pred succ : tree) ff rf Df Db :
  wf G ->
  covered (g_succ G) source pred ff Df ->
  covered (g_pred G) target succ rf Db ->
  apart pred succ ->
  forall L, hops (has_edge G) source target L -> Df + Db + 1 <= L.
Proof.
  intros W [_ Cf] [_ Cb] Ha L H.
  destruct (le_lt_dec (Df + Db + 1) L) as [|Hlt]; [assumption|exfalso].
  assert (E : L = Nat.min Df L + (L - Nat.min Df L)) by lia.
  rewrite E in H. apply hops_split in H. destruct H as (b & H1 & H2).
  assert (Hp : dict_contains pred b = true) by (apply (Cf b _ H1); lia).
  assert (Hs : dict_contains succ b = true).
  { apply (Cb b (L - Nat.min Df L)); [now apply hops_back | lia]. }
  rewrite (Ha b Hp) in Hs. discriminate.
Qed.

(** *** The search as a whole *)

Lemma search_shortest G source target :
  wf G ->
  forall fuel pred succ ff rf Df Db,
    tree_ok (nbr_in (g_succ G)) source pred ->
    tree_ok (nbr_in (g_pred G)) target succ ->
    all_in ff pred -> all_in rf succ ->
    sub_dict pred (g_succ G) -> sub_dict succ (g_pred G) ->
    covered (g_succ G) source pred ff Df ->
    covered (g_pred G) target succ rf Db ->
    apart pred succ ->
    (forall pred' succ' w,
        search fuel G source target pred succ ff rf = Ok (pred', succ', w) ->
        exists n1 n2,
          at_depth pred' w n1 /\ at_depth succ' w n2
          /\ forall L, hops (has_edge G) source target L -> n1 + n2 <= L)
    /\ (search fuel G source target pred succ ff rf
        = Raise (no_path source target) ->
        forall L, ~ hops (has_edge G) source target L).
Proof.
  intros W. induction fuel as [|fuel IH];
    intros pred succ ff rf Df Db Tp Ts Fp Fs Sp Ss Cf Cb Ha.
  all: destruct ff as [|f0 ff];
    [ rewrite search_empty_l; split; [discriminate|]; intros _ L H;
      pose proof (covered_all _ _ _ _ Tp Cf _ _ H) as Hin;
      pose proof (tree_ok_root_in _ _ _ Ts) as Hr;
      rewrite (Ha _ Hin) in Hr; discriminate |].
  all: destruct rf as [|r0 rf];
    [ rewrite search_empty_r; split; [discriminate|]; intros _ L H;
      pose proof (covered_all _ _ _ _ Ts Cb _ _ (hops_back _ _ _ _ W H)) as Hin;
      pose proof (tree_ok_root_in _ _ _ Tp) as Hr;
      rewrite (Ha _ Hr) in Hin; discriminate |].
  - cbn [search]. split; discriminate.
  - cbn [search].
    destruct (length (f0 :: ff) <=? length (r0 :: rf)).
    + destruct (scan_level_post (g_succ G) source succ (wf_closed_succ _ W)
                  (f0 :: ff) pred [] Tp Fp) as (r & Er & Pr);
        [intros x [] | assumption |].
      assert (Qr := scan_level_depth (g_succ G) succ Df (f0 :: ff) pred [] r).
      rewrite Er. cbn [bind].
      assert (Hg : growing Df pred []).
      { intros x Hx. destruct (proj1 Cf x Hx) as (n & Hn & Hle & _).
        exists n. split; [assumption|]. split; [lia|]. intros _. assumption. }
      assert (Hl : forall v, In v (f0 :: ff) ->
                             exists n, at_depth pred v n /\ n <= Df).
      { intros v Hv. destruct (proj1 Cf v (Fp v Hv)) as (n & Hn & Hle & _).
        exists n. split; assumption. }
      specialize (Qr Hg Ha Hl Er).
      destruct r as [pred' ff'|pred' w]; cbn in Pr.
      * destruct Pr as (P1 & P2 & P3 & P4 & P5).
        destruct Qr as (Q1 & Q2 & Q3 & Q4 & Q5).
        apply (IH pred' succ ff' (r0 :: rf) (S Df) Db); try assumption.
        now apply (covered_next _ _ pred (f0 :: ff) Df).
      * destruct Pr as (P1 & P2 & P3 & P4 & P5).
        destruct Qr as (n1 & Hn1 & Hle1).
        split; [|discriminate]. intros pred0 succ0 w0 [= <- <- <-].
        destruct (proj1 Cb w P5) as (n2 & Hn2 & Hle2 & _).
        exists n1, n2. split; [assumption|]. split; [assumption|].
        intros L HL.
        pose proof (meet_bound G source target pred succ _ _ Df Db W Cf Cb Ha L HL).
        lia.
    + destruct (scan_level_post (g_pred G) target pred (wf_closed_pred _ W)
                  (r0 :: rf) succ [] Ts Fs) as (r & Er & Pr);
        [intros x [] | assumption |].
      assert (Qr := scan_level_depth (g_pred G) pred Db (r0 :: rf) succ [] r).
      rewrite Er. cbn [bind].
      assert (Hg : growing Db succ []).
      { intros x Hx. destruct (proj1 Cb x Hx) as (n & Hn & Hle & _).
        exists n. split; [assumption|]. split; [lia|]. intros _. assumption. }
      assert (Hl : forall v, In v (r0 :: rf) ->
                             exists n, at_depth succ v n /\ n <= Db).
      { intros v Hv. destruct (proj1 Cb v (Fs v Hv)) as (n & Hn & Hle & _).
        exists n. split; assumption. }
      specialize (Qr Hg (apart_sym _ _ Ha) Hl Er).
      destruct r as [succ' rf'|succ' w]; cbn in Pr.
      * destruct Pr as (P1 & P2 & P3 & P4 & P5).
        destruct Qr as (Q1 & Q2 & Q3 & Q4 & Q5).
        apply (IH pred succ' (f0 :: ff) rf' Df (S Db)); try assumption.
        -- now apply (covered_next _ _ succ (r0 :: rf) Db).
        -- now apply apart_sym.
      * destruct Pr as (P1 & P2 & P3 & P4 & P5).
        destruct Qr as (n2 & Hn2 & Hle2).
        split; [|discriminate]. intros pred0 succ0 w0 [= <- <- <-].
        destruct (proj1 Cf w P5) as (n1 & Hn1 & Hle1 & _).
        exists n1, n2. split; [assumption|]. split; [assumption|].
        intros L HL.
        pose proof (meet_bound G source target pred succ _ _ Df Db W Cf Cb Ha L HL).
        lia.
Qed.

Lemma covered_start adj root :
  covered adj root [(root, None)] [root] 0.
Proof.
  split.
  - intros x Hx. unfold dict_contains in Hx. cbn in Hx.
    destruct (str_eqb x root) eqn:E; [|discriminate].
    apply str_eqb_eq in E. subst x. exists 0.
    split; [|split; [lia|]].
    + apply depth_root. cbn. now rewrite str_eqb_refl.
    + intros Hn. exfalso. apply Hn. now left.
  - intros x n H Hle. assert (n = 0) as -> by lia.
    inversion H; subst. unfold dict_contains. cbn. now rewrite str_eqb_refl.
Qed.

Lemma bidirectional_pred_succ_shortest G source target :
  wf G -> contains G source = true -> contains G target = true ->
  (forall pred succ w,
      bidirectional_pred_succ G source target = Ok (pred, succ, w) ->
      exists n1 n2,
        at_depth pred w n1 /\ at_depth succ w n2
        /\ forall L, hops (has_edge G) source target L -> n1 + n2 <= L)
  /\ (bidirectional_pred_succ G source target = Raise (no_path source target) ->
      forall L, ~ hops (has_edge G) source target L).
Proof.
  intros W Hs Ht. unfold bidirectional_pred_succ.
  destruct (str_eqb target source) eqn:E.
  - apply str_eqb_eq in E. subst target. split; [|discriminate].
    intros pred succ w [= <- <- <-]. exists 0, 0.
    split; [|split; [|intros; lia]];
      apply depth_root; cbn; now rewrite str_eqb_refl.
  - apply (search_shortest G source target W _ _ _ _ _ 0 0);
      try apply singleton_tree; try apply all_in_singleton;
      try apply covered_start.
    + apply sub_dict_singleton. now rewrite (wf_contains_succ _ source W).
    + apply sub_dict_singleton. now rewrite (wf_contains_pred _ target W).
    + intros x Hx. unfold dict_contains in *. cbn in *.
      destruct (str_eqb x source) eqn:Ex; [|discriminate].
      apply str_eqb_eq in Ex. subst x. rewrite str_eqb_sym, E. reflexivity.
Qed.

(** [nx.shortest_path] on a well-formed graph, between two of its nodes:
    a directed path with as few nodes as any, or [NetworkXNoPath] when
    there is no directed path at all. *)
Lemma shortest_path_shortest G source target :
  wf G -> contains G source = true -> contains G target = true ->
  (exists p, shortest_path G source target = Ok p
             /\ shortest_between G source target p)
  \/ (shortest_path G source target = Raise (no_path source target)
      /\ ~ reachable G source target).
Proof.
  intros W Hs Ht.
  destruct (bidirectional_pred_succ_shortest G source target W Hs Ht) as [Hok Hno].
  destruct (shortest_path_ok G source target W Hs Ht) as [(p & Ep & Hp)|Ep].
  - left. exists p. split; [assumption|]. split; [assumption|].
    intros q Hq. destruct (path_hops _ _ _ _ Hq) as (L & Eq & HL). rewrite Eq.
    revert Ep. unfold shortest_path, bidirectional_shortest_path.
    rewrite Hs, Ht. cbn [negb orb].
    destruct (bidirectional_pred_succ G source target)
      as [[[pred succ] w]|e] eqn:E; [|discriminate].
    destruct (Hok pred succ w eq_refl) as (n1 & n2 & D1 & D2 & Hb).
    specialize (Hb L HL). cbn [bind].
    destruct (walk_depth pred w n1 D1 (S (n1 + length pred)) [])
      as (rest1 & Hw1 & Hl1); [lia|].
    destruct (walk_depth succ w n2 D2 (S (n2 + length succ)) (rev rest1))
      as (rest2 & Hw2 & Hl2); [lia|].
    destruct (bidirectional_pred_succ_ok G source target W Hs Ht)
      as [(r & Er & Mr)|Er]; [|congruence].
    rewrite E in Er. injection Er as <-. destruct Mr as (Tp & Ts & Wp & Ws).
    destruct (walk_tree _ _ _ Tp w Wp) as (r1 & Hr1 & _ & _).
    destruct (walk_tree _ _ _ Ts w Ws) as (r2 & Hr2 & _ & _).
    rewrite (Hr1 (S (n1 + length pred)) []) in Hw1 by lia.
    rewrite (Hr2 (S (n2 + length succ)) (rev rest1)) in Hw2 by lia.
    injection Hw1 as <-. injection Hw2 as Hw2. apply app_inv_head in Hw2.
    injection Hw2 as <-.
    rewrite (Hr1 (length pred) [] (le_n _)). cbn [bind app].
    unfold last_item. rewrite rev_involutive. cbn [bind].
    destruct (dict_contains_get _ _ Ws) as [nxt En].
    unfold dict_item. rewrite En. cbn [bind].
    specialize (Hr2 (S (length succ)) (rev r1) (le_S _ _ (le_n _))).
    cbn [walk] in Hr2. unfold dict_item in Hr2. rewrite En in Hr2.
    cbn [bind] in Hr2. cbn [rev]. rewrite Hr2.
    intros [= <-]. rewrite length_app, length_rev. cbn [length]. lia.
  - right. split; [assumption|]. intros (q & Hq).
    destruct (path_hops _ _ _ _ Hq) as (L & _ & HL).
    apply (Hno) with (L := L); [|assumption].
    revert Ep. unfold shortest_path, bidirectional_shortest_path.
    rewrite Hs, Ht. cbn [negb orb].
    destruct (bidirectional_pred_succ_ok G source target W Hs Ht)
      as [([[pred succ] w] & Er & Tp & Ts & Wp & Ws)|Er]; [|now rewrite Er].
    rewrite Er. cbn [bind]. intros Ep. exfalso.
    destruct (walk_tree _ _ _ Tp w Wp) as (r1 & Hr1 & _ & _).
    destruct (walk_tree _ _ _ Ts w Ws) as (r2 & Hr2 & _ & _).
    rewrite (Hr1 (length pred) [] (le_n _)) in Ep. cbn [bind app] in Ep.
    unfold last_item in Ep. rewrite rev_involutive in Ep. cbn [bind] in Ep.
    destruct (dict_contains_get _ _ Ws) as [nxt En].
    unfold dict_item in Ep. rewrite En in Ep. cbn [bind] in Ep.
    specialize (Hr2 (S (length succ)) (rev r1) (le_S _ _ (le_n _))).
    cbn [walk] in Hr2. unfold dict_item in Hr2. rewrite En in Hr2.
    cbn [bind] in Hr2. cbn [rev] in Ep. rewrite Hr2 in Ep. discriminate.
Qed.

(** ** The same request twice *)

Lemma dict_set_set {V} (d : dict V) (k : pystr) (v : V) :
  dict_set (dict_set d k v) k v = dict_set d k v.
Proof.
  induction d as [|[k' v'] d IH]; cbn [dict_set].
  - now rewrite str_eqb_refl.
  - destruct (str_eqb k k') eqn:E; cbn [dict_set]; rewrite E; [reflexivity|].
    now rewrite IH.
Qed.

Lemma with_edge_twice G u v r :
  wf G ->
  with_edge (with_edge G u v (relationship_attr r)) u v (relationship_attr r)
  = with_edge G u v (relationship_attr r).
Proof.
  intros W.
  destruct (add_edge_spec G u v (relationship_attr r) W) as (_ & W' & Ha & Hc).
  destruct (with_edge_shape G u v (relationship_attr r) W)
    as (nu & nv & Eu & Ev & _ & _ & E1).
  destruct (with_edge_shape _ u v (relationship_attr r) W')
    as (nu' & nv' & Eu' & Ev' & _ & _ & E2).
  set (G' := with_edge G u v (relationship_attr r)) in *.
  assert (Cu : dict_contains (g_succ G') u = true).
  { rewrite (wf_contains_succ _ u W'), Hc, str_eqb_refl. reflexivity. }
  assert (Cv : dict_contains (g_succ G') v = true).
  { rewrite (wf_contains_succ _ v W'), Hc, str_eqb_refl. apply orb_true_iff.
    left. apply orb_true_r. }
  rewrite (add_missing_node_present G' u Cu) in Eu', Ev', E2.
  rewrite (add_missing_node_present G' v Cv) in Eu', Ev', E2.
  assert (Sd : stored_data G' u v (relationship_attr r)
               = stored_data G u v (relationship_attr r)).
  { unfold stored_data at 1. rewrite Ha, !str_eqb_refl. cbn [andb].
    unfold stored_data, dict_update, relationship_attr. cbn [fold_left fst snd].
    apply dict_set_set. }
  rewrite E2, Sd. rewrite E1 in Eu', Ev'. cbn [g_succ g_pred] in Eu', Ev'.
  rewrite dict_get_set_same in Eu', Ev'.
  injection Eu' as <-. injection Ev' as <-.
  rewrite E1. cbn [g_node g_succ g_pred].
  now rewrite !dict_set_set.
Qed.

Lemma apply_request_twice G request_json :
  wf G ->
  apply_request (apply_request G request_json) request_json
  = apply_request G request_json.
Proof.
  intros W. unfold apply_request.
  destruct (requested_edge request_json) as [[[e1 r] e2]|]; [|reflexivity].
  now apply with_edge_twice.
Qed.

(** ** How many edges and nodes a request adds *)

Lemma with_edge_edges G u v attr :
  wf G ->
  length (edges (with_edge G u v attr))
  = length (edges G)
    + match edge_label G u v with Some _ => 0 | None => 1 end.
Proof.
  intros W. rewrite !edges_length, (with_edge_entries G u v attr W).
  unfold edge_label. now destruct (adj_get (g_succ G) u v).
Qed.





(** ** POST /api/query, block by block *)

Lemma reachable_contains G source target :
  wf G -> contains G source = true -> reachable G source target ->
  contains G target = true.
Proof.
  intros W Hs (q & Hq). destruct (path_hops _ _ _ _ Hq) as (n & _ & H).
  clear Hq. induction H as [|b c n H IH He]; [assumption|].
  rewrite <- (wf_contains_succ _ c W).
  exact (wf_closed_succ G W b c He).
Qed.

Lemma collect_paths_exact (G : DiGraph) (entity : pystr) :
  wf G -> contains G entity = true ->
  forall targets acc,
    (forall t, In t targets -> contains G t = true) ->
    (forall t p, dict_get acc t = Some p ->
                 t <> entity /\ shortest_between G entity t p) ->
    exists paths,
      collect_paths G entity targets acc = Ok paths
      /\ (forall t p, dict_get paths t = Some p ->
                      t <> entity /\ shortest_between G entity t p)
      /\ (forall t, dict_contains paths t = true
                    <-> dict_contains acc t = true
                        \/ (In t targets /\ t <> entity /\ reachable G entity t)).
Proof.
  intros W Hc. induction targets as [|target rest IH]; intros acc Hin Hacc.
  - exists acc. split; [reflexivity|]. split; [assumption|].
    intros t. split; [now left | intros [H|[[] _]]; exact H].
  - cbn [collect_paths].
    assert (Hrest : forall t, In t rest -> contains G t = true)
      by (intros t Ht; apply Hin; now right).
    destruct (str_eqb target entity) eqn:E; cbn [negb].
    + apply str_eqb_eq in E. subst target.
      destruct (IH acc Hrest Hacc) as (paths & Ep & Hp & Hk).
      exists paths. split; [assumption|]. split; [assumption|].
      intros t. rewrite Hk. split; intros [H|(H1 & H2 & H3)]; try (now left).
      * right. split; [now right | now split].
      * right. destruct H1 as [<-|H1]; [congruence|]. now split.
    + apply str_eqb_neq in E.
      destruct (shortest_path_shortest G entity target W Hc
                  (Hin target (or_introl eq_refl)))
        as [(p & Ep & Hp) | (Ep & Hn)]; rewrite Ep.
      * destruct (IH (dict_set acc target p) Hrest) as (paths & Eq & Hq & Hk).
        { intros t q Hq. rewrite dict_get_set in Hq.
          destruct (str_eqb t target) eqn:Et.
          - apply str_eqb_eq in Et. subst t. injection Hq as <-. now split.
          - now apply Hacc. }
        exists paths. split; [assumption|]. split; [assumption|].
        intros t. rewrite Hk, dict_contains_set. split.
        -- intros [H|(H1 & H2 & H3)].
           ++ destruct (str_eqb t target) eqn:Et; [|now left].
              apply str_eqb_eq in Et. subst t. right.
              split; [now left|]. split; [assumption|].
              exists p. apply Hp.
           ++ right. split; [now right | now split].
        -- intros [H|([<-|H1] & H2 & H3)].
           ++ left. rewrite H. apply orb_true_r.
           ++ left. now rewrite str_eqb_refl.
           ++ right. now split.
      * cbn [no_path exn_cls exn_class_eqb].
        destruct (IH acc Hrest Hacc) as (paths & Eq & Hq & Hk).
        exists paths. split; [assumption|]. split; [assumption|].
        intros t. rewrite Hk. split; intros [H|(H1 & H2 & H3)]; try (now left).
        -- right. split; [now right | now split].
        -- right. destruct H1 as [<-|H1]; [contradiction|]. now split.
Qed.

(** The paths of a query: one for each other node that can be reached,
    and a shortest one. *)
Lemma shortest_paths_exact (G : DiGraph) (entity : pystr) :
  wf G -> contains G entity = true ->
  exists paths,
    shortest_paths G entity = Ok paths
    /\ (forall t p, dict_get paths t = Some p -> shortest_between G entity t p)
    /\ (forall t, dict_contains paths t = true
                  <-> t <> entity /\ reachable G entity t).
Proof.
  intros W Hc.
  destruct (collect_paths_exact G entity W Hc (nodes G) [])
    as (paths & Ep & Hp & Hk).
  - intros t Ht. now apply dict_contains_In.
  - intros t p Hp. discriminate.
  - exists paths. split; [exact Ep|]. split.
    + intros t p H. now apply (Hp t p).
    + intros t. rewrite Hk. split.
      * intros [H|(_ & H2 & H3)]; [discriminate | now split].
      * intros [H2 H3]. right. split; [|now split].
        apply dict_contains_In. now apply (reachable_contains G entity t W Hc).
Qed.

Lemma outgoing_length G entity l out :
  outgoing G entity l = Ok out -> length out = length l.
Proof.
  revert out. induction l as [|v l IH]; intros out H.
  - injection H as <-. reflexivity.
  - cbn [outgoing] in H. destruct (edge_data G entity v); [|discriminate].
    cbn [bind] in H. destruct (outgoing G entity l) as [entries|]; [|discriminate].
    cbn [bind] in H. injection H as <-. cbn [length]. now rewrite (IH entries).
Qed.

Lemma incoming_length G entity l inc :
  incoming G entity l = Ok inc -> length inc = length l.
Proof.
  revert inc. induction l as [|v l IH]; intros inc H.
  - injection H as <-. reflexivity.
  - cbn [incoming] in H. destruct (edge_data G v entity); [|discriminate].
    cbn [bind] in H. destruct (incoming G entity l) as [entries|]; [|discriminate].
    cbn [bind] in H. injection H as <-. cbn [length]. now rewrite (IH entries).
Qed.

Lemma neighbors_length G entity inc out :
  neighbors G entity
  = Ok (PDict [ (py "incoming", PList inc); (py "outgoing", PList out) ]) ->
  length inc = in_degree G entity /\ length out = out_degree G entity.
Proof.
  unfold neighbors, Nx.predecessors, Nx.successors, in_degree, out_degree,
    dict_get_default.
  destruct (dict_get (g_pred G) entity) as [preds|]; [|discriminate].
  destruct (dict_get (g_succ G) entity) as [succs|]; [|discriminate].
  cbn [bind].
  destruct (incoming G entity (dict_keys preds)) as [i|] eqn:Ei; [|discriminate].
  destruct (outgoing G entity (dict_keys succs)) as [o|] eqn:Eo; [|discriminate].
  cbn [bind]. intros [= <- <-].
  rewrite (incoming_length _ _ _ _ Ei), (outgoing_length _ _ _ _ Eo).
  unfold dict_keys. now rewrite !length_map.
Qed.

Section QueryFacts.

Variable betweenness_centrality : DiGraph -> dict Q.

(** The results of a query are the blocks its type asks for, in the order
    neighbours, shortest paths, centrality. *)
Lemma query_results_blocks (G : DiGraph) (entity : pystr) :
  wf G -> contains G entity = true ->
  exists n p c,
    neighbors G entity = Ok n
    /\ shortest_paths G entity = Ok p
    /\ centrality betweenness_centrality G entity = Ok c
    /\ forall query_type,
         query_results betweenness_centrality G query_type entity
         = Ok ((if eq_str query_type (py "neighbors") || eq_str query_type (py "all")
                then [(py "neighbors", n)] else [])
               ++ (if (eq_str query_type (py "shortest_path")
                       || eq_str query_type (py "all"))
                      && (1 <? length (nodes G))
                   then [(py "shortest_paths", paths_value p)] else [])
               ++ (if eq_str query_type (py "centrality")
                      || eq_str query_type (py "all")
                   then [(py "centrality", c)] else [])).
Proof.
  intros W Hc.
  destruct (neighbors_ok betweenness_centrality G entity W Hc)
    as (inc & out & En & _).
  destruct (shortest_paths_ok G entity W Hc) as (paths & Ep & _).
  destruct (degree_centrality_ok G entity W Hc) as (c & Ec & _).
  eexists _, paths, _. split; [exact En|]. split; [exact Ep|].
  split; [unfold centrality; rewrite Ec; reflexivity|].
  intros query_type. unfold query_results. cbv zeta.
  rewrite En, Ep. unfold centrality. rewrite Ec. cbn [bind].
  destruct (eq_str query_type (py "neighbors") || eq_str query_type (py "all"));
  destruct (eq_str query_type (py "shortest_path") || eq_str query_type (py "all"));
  destruct (1 <? length (nodes G));
  destruct (eq_str query_type (py "centrality") || eq_str query_type (py "all"));
  reflexivity.
Qed.

(** A query for an entity of the graph is answered with status 200 and
    the results of its type. *)
Lemma query_graph_found (G : DiGraph) (d : dict pyval) (s : pystr) :
  first_unserializable (dict_get_default d (py "query_type") (PStr [])) = None ->
  wf G ->
  text_field d "entity" s ->
  strip s <> [] ->
  contains G (strip s) = true ->
  exists results,
    query_results betweenness_centrality G
      (dict_get_default d (py "query_type") (PStr [])) (strip s) = Ok results
    /\ query_graph betweenness_centrality (Ok (PDict d)) G
       = (Ok (Resp
                (PResponse 200
                   (PDict [ (py "success", PBool true);
                            (py "entity", PStr (strip s));
                            (py "query_type",
                             dict_get_default d (py "query_type") (PStr []));
                            (py "results", PDict results) ]))),
          G).
Proof.
  unfold text_field. intros Hj W He Hne Hc.
  destruct (query_results_ok betweenness_centrality G
              (dict_get_default d (py "query_type") (PStr []))
              (strip s) W Hc) as (results & paths & Er & Sr & _).
  exists results. split; [exact Er|].
  unfold query_graph. run_view. cbn [py_get]. rewrite He. cbn [py_strip].
  apply is_empty_false in Hne. rewrite Hne, Hc. cbn [negb]. rewrite Er.
  unfold jsonify.
  match goal with
  | |- context [first_unserializable ?v] =>
      assert (S : first_unserializable v = None)
  end.
  { apply first_unserializable_dict. intros k x Hx. cbn [In] in Hx.
    destruct Hx as [E|[E|[E|[E|[]]]]]; injection E as <- <-;
      try reflexivity; assumption. }
  rewrite S. reflexivity.
Qed.

Lemma query_graph_absent (G : DiGraph) (d : dict pyval) (s : pystr) :
  text_field d "entity" s ->
  strip s <> [] ->
  contains G (strip s) = false ->
  query_graph betweenness_centrality (Ok (PDict d)) G
  = (Ok (RespStatus
           (PResponse 200
              (PDict [ (py "success", PBool false);
                       (py "message",
                        PStr (py "Entity " ++ dquote ++ strip s ++ dquote
                              ++ py " not found in the graph")) ]))
           404),
     G).
Proof.
  unfold text_field. intros H Hne Habs.
  unfold query_graph. run_view. cbn [py_get]. rewrite H. cbn [py_strip].
  apply is_empty_false in Hne. rewrite Hne, Habs. reflexivity.
Qed.

End QueryFacts.

(** ** The order of the nodes *)

Lemma add_missing_node_nodes G u :
  wf G ->
  nodes (add_missing_node G u) = nodes G ++ (if contains G u then [] else [u]).
Proof.
  intros W. unfold add_missing_node. rewrite <- (wf_contains_succ G u W).
  destruct (dict_contains (g_succ G) u) eqn:Hu; [now rewrite app_nil_r|].
  unfold nodes. cbn [g_node]. rewrite keys_dict_set.
  assert (Hn : dict_contains (g_node G) u = false)
    by (rewrite <- Hu; symmetry; apply contains_keys, W).
  now rewrite Hn.
Qed.

Lemma with_edge_nodes G u v attr :
  wf G ->
  nodes (with_edge G u v attr)
  = nodes G
    ++ (if contains G u then [] else [u])
    ++ (if contains G v || str_eqb v u then [] else [v]).
Proof.
  intros W.
  destruct (with_edge_shape G u v attr W)
    as (nbrs_u & nbrs_v & Eu & Ev & Cu & Cv & Es).
  rewrite Es. unfold nodes at 1. cbn [g_node].
  change (dict_keys (g_node (add_missing_node (add_missing_node G u) v)))
    with (nodes (add_missing_node (add_missing_node G u) v)).
  rewrite add_missing_node_nodes by (apply add_missing_node_wf, W).
  rewrite add_missing_node_nodes by assumption.
  rewrite add_missing_node_contains by assumption.
  rewrite (orb_comm (str_eqb v u)). now rewrite app_assoc.
Qed.

(* ================================================================== *)
(** * The service as a whole *)
(* ================================================================== *)

Lemma fold_left_ext {A B} (f g : A -> B -> A) (l : list B) :
  (forall a b, f a b = g a b) ->
  forall a, fold_left f l a = fold_left g l a.
Proof.
  intros H. induction l as [|b l IH]; intros a; [reflexivity|].
  cbn [fold_left]. now rewrite H, IH.
Qed.

Lemma requested_text (d : dict pyval) (s1 s2 s3 : pystr) :
  text_field d "entity1" s1 ->
  text_field d "relationship" s2 ->
  text_field d "entity2" s3 ->
  strip s1 <> [] -> strip s2 <> [] -> strip s3 <> [] ->
  requested_edge (Ok (PDict d)) = Some (strip s1, strip s2, strip s3).
Proof.
  unfold text_field, requested_edge. intros -> -> -> N1 N2 N3.
  apply is_empty_false in N1, N2, N3. now rewrite N1, N2, N3.
Qed.

Section Service.

Variable betweenness_centrality : DiGraph -> dict Q.
Variable is_weakly_connected : DiGraph -> result bool.

Lemma reached_built (rs : list request) :
  built (reached betweenness_centrality rs).
Proof. exact (serve_all_built betweenness_centrality rs). Qed.

Lemma reached_wf (rs : list request) : wf (reached betweenness_centrality rs).
Proof. apply built_wf, reached_built. Qed.

Lemma reached_tidy (rs : list request) : tidy (reached betweenness_centrality rs).
Proof. apply built_tidy, reached_built. Qed.

(** X1. POST /api/add_relationship is all or nothing, whatever the body
    of the request (no JSON, no object, fields that are no text, blank
    fields): either the answer is 200, the three names are trimmed and not
    empty and the graph is the former one with that edge; or the answer is
    400 or 500 with [success = false] and the graph is the one before. *)
Theorem add_relationship_all_or_nothing (rs : list request)
    (request_json : result pyval) :
  (exists e1 r e2,
     clean_name e1 /\ clean_name r /\ clean_name e2
     /\ add_relationship request_json (reached betweenness_centrality rs)
        = (Ok (Resp
                 (PResponse 200
                    (PDict [ (py "success", PBool true);
                             (py "message",
                              PStr (py "Relationship added: " ++ e1 ++ py " --["
                                    ++ r ++ py "]--> " ++ e2));
                             (py "graph_data",
                              PDict (snapshot
                                       (with_edge (reached betweenness_centrality rs)
                                          e1 e2 (relationship_attr r)))) ]))),
           with_edge (reached betweenness_centrality rs) e1 e2
             (relationship_attr r)))
  \/ (exists message status,
        add_relationship request_json (reached betweenness_centrality rs)
        = (Ok (RespStatus
                 (PResponse 200
                    (PDict [ (py "success", PBool false);
                             (py "message", PStr message) ]))
                 status),
           reached betweenness_centrality rs)
        /\ (status = 400 \/ status = 500)).
Proof. apply add_relationship_cases, reached_wf. Qed.

(** X2. No request but the reset takes an entity or a relationship away:
    after an add, an upload, a query or a read of the graph data, every
    node of the graph is still a node and every edge still an edge. *)
Theorem requests_never_remove (rs : list request) (r : request) :
  r <> ClearGraph ->
  extends (reached betweenness_centrality rs)
          (snd (serve betweenness_centrality r (reached betweenness_centrality rs))).
Proof.
  intros Hr. pose proof (reached_wf rs) as W.
  destruct r as [rj|files|rj| |]; cbn [serve].
  - rewrite add_relationship_effect. now apply extends_apply_request.
  - rewrite upload_csv_effect.
    destruct (accepted_frame files) as [df|]; [|apply extends_refl].
    rewrite fold_rows_as_requests. now apply extends_fold_requests.
  - rewrite query_graph_read_only. apply extends_refl.
  - rewrite get_graph_data_read_only. apply extends_refl.
  - congruence.
Qed.

(** X3. What an accepted add-relationship request adds: one edge when the
    two entities were not joined in that direction and none when they
    were; one node for each of the two names that is new (one when both
    are the same new name); and the edge count the library reports is the
    length of the edge list. *)
Theorem add_relationship_counts (rs : list request) (d : dict pyval)
    (s1 s2 s3 : pystr) :
  text_field d "entity1" s1 ->
  text_field d "relationship" s2 ->
  text_field d "entity2" s3 ->
  strip s1 <> [] -> strip s2 <> [] -> strip s3 <> [] ->
  length (edges (snd (add_relationship (Ok (PDict d))
                        (reached betweenness_centrality rs))))
  = length (edges (reached betweenness_centrality rs))
    + match edge_label (reached betweenness_centrality rs) (strip s1) (strip s3) with
      | Some _ => 0
      | None => 1
      end
  /\ number_of_edges (snd (add_relationship (Ok (PDict d))
                             (reached betweenness_centrality rs)))
     = Ok (length (edges (snd (add_relationship (Ok (PDict d))
                                 (reached betweenness_centrality rs)))))
  /\ number_of_nodes (snd (add_relationship (Ok (PDict d))
                             (reached betweenness_centrality rs)))
     = number_of_nodes (reached betweenness_centrality rs)
       + (if contains (reached betweenness_centrality rs) (strip s1) then 0 else 1)
       + (if contains (reached betweenness_centrality rs) (strip s3)
             || str_eqb (strip s3) (strip s1)
          then 0 else 1).
Proof.
  intros H1 H2 H3 N1 N2 N3.
  rewrite add_relationship_effect. unfold apply_request.
  rewrite (requested_text d s1 s2 s3 H1 H2 H3 N1 N2 N3).
  split; [apply with_edge_edges, reached_wf|].
  split; [apply number_of_edges_tidy, tidy_with_edge, reached_tidy|].
  apply with_edge_node_count, reached_wf.
Qed.

(** X4. An upload the route turns down (no [file] part, an empty file
    name, a file pandas cannot read, a frame without one of the three
    columns) is answered 400 or 500 with [success = false], and the graph
    is left as it was, whatever graph that is. *)
Theorem upload_csv_rejected (files : dict FileStorage) (G : DiGraph) :
  accepted_frame files = None ->
  exists message status,
    upload_csv files G
    = (Ok (RespStatus
             (PResponse 200
                (PDict [ (py "success", PBool false);
                         (py "message", PStr message) ]))
             status),
       G)
    /\ (status = 400 \/ status = 500).
Proof.
  unfold accepted_frame, upload_csv. intros H.
  destruct (dict_get files (py "file")) as [file|];
    [|eexists _, 400; split; [reflexivity | now left]].
  destruct (is_empty (filename file));
    [eexists _, 400; split; [reflexivity | now left]|].
  unfold catch, mbind at 1, lift at 1.
  destruct (read_csv file) as [df|e];
    [|eexists _, 500; split; [reflexivity | now right]].
  unfold has_required_columns in H.
  destruct (forallb (fun col => existsb (str_eqb col) (columns df))
              required_columns); [discriminate|].
  eexists _, 400. split; [reflexivity | now left].
Qed.

(** X5. An upload the route accepts, of a frame in which every row has a
    cell for every column, is answered 200: [added_count] is the number of
    rows whose three cells are not blank once made text and trimmed,
    [errors] is null (no row can fail), and [graph_data] is the snapshot
    of the graph the upload leaves. *)
Theorem upload_csv_accepted (rs : list request) (files : dict FileStorage)
    (df : DataFrame) :
  accepted_frame files = Some df ->
  rectangular df ->
  fst (upload_csv files (reached betweenness_centrality rs))
  = Ok (Resp
          (PResponse 200
             (PDict [ (py "success", PBool true);
                      (py "message",
                       PStr (py "Successfully added "
                             ++ str_of_nat
                                  (length (filter (row_filled (columns df)) (rows df)))
                             ++ py " relationships from CSV"));
                      (py "added_count",
                       PInt (Z.of_nat
                               (length (filter (row_filled (columns df)) (rows df)))));
                      (py "errors", PNone);
                      (py "graph_data",
                       PDict (snapshot
                                (snd (upload_csv files
                                        (reached betweenness_centrality rs))))) ]))).
Proof.
  intros Ha Hr.
  rewrite (upload_csv_run files df _ (reached_wf rs) Ha Hr). reflexivity.
Qed.

(** X6. An upload the route accepts leaves the graph that the rows leave
    when each is sent, in order, as an add-relationship request with the
    text of its three cells; this holds from any graph. *)
Theorem upload_csv_is_repeated_add (files : dict FileStorage) (df : DataFrame)
    (G : DiGraph) :
  accepted_frame files = Some df ->
  snd (upload_csv files G)
  = fold_left
      (fun G row => snd (add_relationship (row_request (columns df) row) G))
      (rows df) G.
Proof.
  intros Ha. rewrite upload_csv_effect, Ha.
  apply fold_left_ext. intros a b. now rewrite add_relationship_effect.
Qed.

(** X7. In every graph the service reaches, the name of every node is not
    empty and has no space around it, and so has the label of every
    edge. *)
Theorem graph_names_clean (rs : list request) :
  (forall n, contains (reached betweenness_centrality rs) n = true ->
             n <> [] /\ strip n = n)
  /\ (forall u v r, edge_label (reached betweenness_centrality rs) u v = Some r ->
                    r <> [] /\ strip r = r).
Proof.
  split.
  - intros n Hn. apply (built_named _ (reached_built rs)).
    now apply dict_contains_In.
  - intros u v r H. unfold edge_label in H.
    destruct (adj_get (g_succ (reached betweenness_centrality rs)) u v)
      as [dd|] eqn:E; [|discriminate].
    destruct (built_labelled _ (reached_built rs) u v dd E) as (r' & Er & Hc).
    cbn [option_map] in H. injection H as <-.
    unfold relationship_of, dict_get_default. rewrite Er. exact Hc.
Qed.

(** X8. GET /api/graph_data, in every graph the service reaches, is
    answered 200 with one entry for each node and each edge; the two
    totals are the lengths of the two lists; no node is listed twice and
    no ordered pair of nodes has two edges; both ends of every edge are
    listed nodes. *)
Theorem graph_data_consistent (rs : list request) :
  get_graph_data (reached betweenness_centrality rs)
  = (Ok (Resp
           (PResponse 200
              (PDict
                 [ (py "success", PBool true);
                   (py "nodes",
                    PList (List.map node_entry
                             (nodes (reached betweenness_centrality rs))));
                   (py "edges",
                    PList (List.map edge_entry
                             (edges (reached betweenness_centrality rs))));
                   (py "stats",
                    PDict [ (py "total_nodes",
                             PInt (Z.of_nat
                                     (length (nodes (reached betweenness_centrality rs)))));
                            (py "total_edges",
                             PInt (Z.of_nat
                                     (length (edges (reached betweenness_centrality rs)))))
                          ]) ]))),
     reached betweenness_centrality rs)
  /\ NoDup (nodes (reached betweenness_centrality rs))
  /\ NoDup (edge_pairs (reached betweenness_centrality rs))
  /\ (forall u v dd,
        In (u, v, dd) (edges (reached betweenness_centrality rs)) ->
        In u (nodes (reached betweenness_centrality rs))
        /\ In v (nodes (reached betweenness_centrality rs))).
Proof.
  pose proof (reached_tidy rs) as T. split; [|split; [|split]].
  - rewrite (get_graph_data_ok _ (reached_wf rs)). unfold snapshot.
    rewrite (edge_count_tidy _ T).
    unfold number_of_nodes, nodes, dict_keys. now rewrite length_map.
  - apply T.
  - now apply edge_pairs_NoDup.
  - intros u v dd. now apply edges_endpoints.
Qed.

(** X9. The three reading routes never write: POST /api/query,
    GET /api/graph_data and GET /api/graph_stats leave any graph as it
    was, whatever they answer. *)
Theorem reading_routes_never_write (request_json : result pyval) (G : DiGraph) :
  snd (query_graph betweenness_centrality request_json G) = G
  /\ snd (get_graph_data G) = G
  /\ snd (get_graph_stats is_weakly_connected G) = G.
Proof.
  split; [apply query_graph_read_only|].
  split; [apply get_graph_data_read_only | apply get_graph_stats_read_only].
Qed.

(** X10. A neighbours query for an entity of the graph lists under
    [outgoing] exactly the edges out of the entity and under [incoming]
    exactly the edges into it, each with its label, and as many entries as
    the entity has edges out and in. *)
Theorem neighbors_query_exact (rs : list request) (d : dict pyval) (s : pystr) :
  text_field d "entity" s ->
  dict_get_default d (py "query_type") (PStr []) = PStr (py "neighbors") ->
  strip s <> [] ->
  contains (reached betweenness_centrality rs) (strip s) = true ->
  exists inc out,
    query_graph betweenness_centrality (Ok (PDict d))
      (reached betweenness_centrality rs)
    = (Ok (Resp
             (PResponse 200
                (PDict [ (py "success", PBool true);
                         (py "entity", PStr (strip s));
                         (py "query_type", PStr (py "neighbors"));
                         (py "results",
                          PDict [ (py "neighbors",
                                   PDict [ (py "incoming", PList inc);
                                           (py "outgoing", PList out) ]) ]) ]))),
       reached betweenness_centrality rs)
    /\ (forall v r, In (neighbor_entry v r) out
                    <-> edge_label (reached betweenness_centrality rs) (strip s) v
                        = Some r)
    /\ (forall u r, In (neighbor_entry u r) inc
                    <-> edge_label (reached betweenness_centrality rs) u (strip s)
                        = Some r)
    /\ length out = out_degree (reached betweenness_centrality rs) (strip s)
    /\ length inc = in_degree (reached betweenness_centrality rs) (strip s).
Proof.
  intros He Ht Hne Hc. pose proof (reached_wf rs) as W.
  destruct (neighbors_ok betweenness_centrality (reached betweenness_centrality rs) (strip s) W Hc)
    as (inc & out & En & _ & _ & Ho & Hi).
  destruct (neighbors_length _ _ _ _ En) as [Li Lo].
  exists inc, out. split; [|repeat split; try assumption; try apply Ho; try apply Hi].
  destruct (query_graph_found betweenness_centrality (reached betweenness_centrality rs) d s) as (results & Er & Eq);
    try assumption; [now rewrite Ht|].
  destruct (query_results_blocks betweenness_centrality (reached betweenness_centrality rs) (strip s) W Hc)
    as (n & p & c & En' & _ & _ & Hb).
  rewrite Hb, Ht in Er. rewrite En in En'. injection En' as <-.
  rewrite Eq, Ht. injection Er as <-. reflexivity.
Qed.

(** X11. A shortest-path query for an entity of the graph lists a path
    for every other entity that can be reached from it along edges, and
    for no other; each listed path is a directed path from the entity to
    its key, and no directed path between the two has fewer nodes. *)
Theorem shortest_paths_query_exact (rs : list request) (d : dict pyval)
    (s : pystr) :
  text_field d "entity" s ->
  dict_get_default d (py "query_type") (PStr []) = PStr (py "shortest_path") ->
  strip s <> [] ->
  contains (reached betweenness_centrality rs) (strip s) = true ->
  exists paths,
    query_graph betweenness_centrality (Ok (PDict d))
      (reached betweenness_centrality rs)
    = (Ok (Resp
             (PResponse 200
                (PDict [ (py "success", PBool true);
                         (py "entity", PStr (strip s));
                         (py "query_type", PStr (py "shortest_path"));
                         (py "results",
                          PDict [ (py "shortest_paths", paths_value paths) ]) ]))),
       reached betweenness_centrality rs)
    /\ (forall t, dict_contains paths t = true
                  <-> t <> strip s
                      /\ reachable (reached betweenness_centrality rs) (strip s) t)
    /\ (forall t p,
          dict_get paths t = Some p ->
          path_between (reached betweenness_centrality rs) (strip s) t p
          /\ forall q,
               path_between (reached betweenness_centrality rs) (strip s) t q ->
               length p <= length q).
Proof.
  intros He Ht Hne Hc. pose proof (reached_wf rs) as W.
  destruct (shortest_paths_exact (reached betweenness_centrality rs) (strip s) W Hc) as (paths & Ep & Hp & Hk).
  exists paths. split; [|split; [exact Hk | exact Hp]].
  destruct (query_graph_found betweenness_centrality (reached betweenness_centrality rs) d s) as (results & Er & Eq);
    try assumption; [now rewrite Ht|].
  destruct (query_results_blocks betweenness_centrality (reached betweenness_centrality rs) (strip s) W Hc)
    as (n & p & c & _ & Ep' & _ & Hb).
  rewrite Hb, Ht in Er. rewrite Ep in Ep'. injection Ep' as <-.
  assert (L : (1 <? length (nodes (reached betweenness_centrality rs))) = true).
  { apply Nat.ltb_lt.
    destruct (built_edge_total _ (reached_built rs)) as [_ L].
    unfold number_of_nodes in L. unfold nodes, dict_keys. rewrite length_map. lia. }
  rewrite L in Er. rewrite Eq, Ht. injection Er as <-. reflexivity.
Qed.

(** X12. The results of a query of type [all] are the results of the
    three single queries for the same entity, put together in the order
    neighbours, shortest paths, centrality. *)
Theorem query_all_merges (rs : list request) (entity : pystr) :
  strip entity <> [] ->
  contains (reached betweenness_centrality rs) (strip entity) = true ->
  exists rn rp rc,
    reported_results
      (fst (query_graph betweenness_centrality
              (query_request entity (py "neighbors"))
              (reached betweenness_centrality rs))) = Some rn
    /\ reported_results
         (fst (query_graph betweenness_centrality
                 (query_request entity (py "shortest_path"))
                 (reached betweenness_centrality rs))) = Some rp
    /\ reported_results
         (fst (query_graph betweenness_centrality
                 (query_request entity (py "centrality"))
                 (reached betweenness_centrality rs))) = Some rc
    /\ reported_results
         (fst (query_graph betweenness_centrality
                 (query_request entity (py "all"))
                 (reached betweenness_centrality rs))) = Some (rn ++ rp ++ rc).
Proof.
  intros Hne Hc. pose proof (reached_wf rs) as W.
  destruct (query_results_blocks betweenness_centrality (reached betweenness_centrality rs) (strip entity) W Hc)
    as (n & p & c & _ & _ & _ & Hb).
  assert (R : forall query_type,
             reported_results
               (fst (query_graph betweenness_centrality
                       (query_request entity query_type)
                       (reached betweenness_centrality rs)))
             = match query_results betweenness_centrality
                       (reached betweenness_centrality rs)
                       (PStr query_type) (strip entity) with
               | Ok results => Some results
               | Raise _ => None
               end).
  { intros query_type. unfold query_request.
    destruct (query_graph_found betweenness_centrality
                (reached betweenness_centrality rs)
                [ (py "entity", PStr entity); (py "query_type", PStr query_type) ]
                entity) as (results & Er & Eq);
      try assumption; try reflexivity.
    change (dict_get_default
              [ (py "entity", PStr entity); (py "query_type", PStr query_type) ]
              (py "query_type") (PStr [])) with (PStr query_type) in Er, Eq.
    rewrite Eq, Er. reflexivity. }
  assert (L : (1 <? length (nodes (reached betweenness_centrality rs))) = true).
  { apply Nat.ltb_lt.
    destruct (built_edge_total _ (reached_built rs)) as [_ L].
    unfold number_of_nodes in L. unfold nodes, dict_keys. rewrite length_map. lia. }
  eexists _, _, _. rewrite !R, !Hb, L.
  repeat split; reflexivity.
Qed.

(** X13. The status of the answer to a query whose [entity] field is text
    is decided by the trimmed name alone: 400 when it is empty, 404 when
    it is no node of the graph, 200 when it is one; never 500, whatever
    the query type. *)
Theorem query_status (rs : list request) (d : dict pyval) (s : pystr) :
  json_serializable (PDict d) = true ->
  text_field d "entity" s ->
  status_of (fst (query_graph betweenness_centrality (Ok (PDict d))
                    (reached betweenness_centrality rs)))
  = Some (if is_empty (strip s) then 400
          else if contains (reached betweenness_centrality rs) (strip s) then 200
          else 404).
Proof.
  intros Hj He.
  destruct (is_empty (strip s)) eqn:Eb.
  - apply is_empty_nil in Eb.
    now rewrite (query_blank_entity betweenness_centrality (reached betweenness_centrality rs) d s He Eb).
  - apply is_empty_false in Eb.
    destruct (contains (reached betweenness_centrality rs) (strip s)) eqn:Ec.
    + destruct (query_graph_found betweenness_centrality (reached betweenness_centrality rs) d s)
        as (results & _ & Eq); try assumption;
        [now apply get_default_serializable | apply reached_wf|].
      now rewrite Eq.
    + now rewrite (query_graph_absent betweenness_centrality (reached betweenness_centrality rs) d s He Eb Ec).
Qed.

(** X14. GET /api/graph_stats, in every graph the service reaches and
    when the library can tell whether the graph is weakly connected, is
    answered 200 with the number of nodes [n], the number of edges [m],
    the library's verdict, the density [m / (n (n - 1))] and the average
    degree [2 m / n]. *)
Theorem graph_stats_values (rs : list request) (b : bool) :
  is_weakly_connected (reached betweenness_centrality rs) = Ok b ->
  get_graph_stats is_weakly_connected (reached betweenness_centrality rs)
  = (Ok (Resp
           (PResponse 200
              (PDict
                 [ (py "success", PBool true);
                   (py "stats",
                    PDict
                      [ (py "total_nodes",
                         PInt (Z.of_nat
                                 (number_of_nodes (reached betweenness_centrality rs))));
                        (py "total_edges",
                         PInt (Z.of_nat
                                 (length (edges (reached betweenness_centrality rs)))));
                        (py "is_connected", PBool b);
                        (py "density",
                         PFloat
                           (inject_Z
                              (Z.of_nat
                                 (length (edges (reached betweenness_centrality rs))))
                            / inject_Z
                                (Z.of_nat
                                   (number_of_nodes (reached betweenness_centrality rs)
                                    * (number_of_nodes
                                         (reached betweenness_centrality rs) - 1))))%Q);
                        (py "average_degree",
                         PFloat
                           (inject_Z
                              (Z.of_nat
                                 (2 * length (edges (reached betweenness_centrality rs))))
                            / inject_Z
                                (Z.of_nat
                                   (number_of_nodes
                                      (reached betweenness_centrality rs))))%Q)
                      ]) ]))),
     reached betweenness_centrality rs).
Proof.
  intros Hb. destruct (built_edge_total _ (reached_built rs)) as [Lm Ln].
  apply get_graph_stats_run; [apply reached_tidy | lia | lia | exact Hb].
Qed.

(** X16. The sample data is never lost: in every graph the service
    reaches, the two entities of each sample relationship are nodes and
    are joined by an edge in the sample's direction; so there are at least
    nine nodes and thirteen edges. *)
Theorem sample_never_lost (rs : list request) :
  (forall u r v,
      In (u, r, v) sample_relationships ->
      contains (reached betweenness_centrality rs) u = true
      /\ contains (reached betweenness_centrality rs) v = true
      /\ has_edge (reached betweenness_centrality rs) u v)
  /\ 9 <= number_of_nodes (reached betweenness_centrality rs)
  /\ 13 <= length (edges (reached betweenness_centrality rs)).
Proof.
  destruct (built_extends_seed _ (reached_built rs)) as [Hn He].
  destruct (built_edge_total _ (reached_built rs)) as [Lm Ln].
  split; [|split; assumption].
  intros u r v Hin. apply sample_edges in Hin.
  assert (H : has_edge knowledge_graph u v).
  { unfold has_edge. unfold edge_label in Hin.
    destruct (adj_get (g_succ knowledge_graph) u v); [discriminate | discriminate]. }
  split; [|split; [|now apply He]].
  - apply Hn. rewrite <- (wf_contains_succ _ u wf_knowledge_graph).
    unfold has_edge, adj_get in H. unfold dict_contains.
    destruct (dict_get (g_succ knowledge_graph) u); [reflexivity | congruence].
  - apply Hn. rewrite <- (wf_contains_succ _ v wf_knowledge_graph).
    exact (wf_closed_succ _ wf_knowledge_graph u v H).
Qed.

(** X17. Sending the same add-relationship request a second time changes
    nothing: the graph after the second is the graph after the first. *)
Theorem add_relationship_repeat (rs : list request) (request_json : result pyval) :
  snd (add_relationship request_json
         (snd (add_relationship request_json (reached betweenness_centrality rs))))
  = snd (add_relationship request_json (reached betweenness_centrality rs)).
Proof.
  rewrite !add_relationship_effect. apply apply_request_twice, reached_wf.
Qed.


(** X19. A query that carries no text to look up (the body is no JSON, is
    no object, or its [entity] is not a string) is answered 500 with
    [success = false], from any graph, which is left as it was. *)
Theorem query_malformed (request_json : result pyval) (G : DiGraph) :
  entity_text request_json = None ->
  exists message,
    query_graph betweenness_centrality request_json G
    = (Ok (RespStatus
             (PResponse 200
                (PDict [ (py "success", PBool false);
                         (py "message", PStr message) ]))
             500),
       G).
Proof.
  unfold entity_text. intros H.
  destruct request_json as [data|e]; [|eexists; reflexivity].
  destruct data as [| | | | |l|d|st b]; try (eexists; reflexivity).
  destruct (dict_get_default d (py "entity") (PStr [])) as [| | | |s| | |] eqn:E;
    try discriminate;
    eexists; unfold query_graph; run_view; cbn [py_get]; rewrite E; reflexivity.
Qed.

(** X20. An accepted add-relationship request keeps the nodes in their
    order and puts the new names after them, the first entity before the
    second; a name the graph has is not listed again. *)
Theorem add_relationship_appends_nodes (rs : list request) (d : dict pyval)
    (s1 s2 s3 : pystr) :
  text_field d "entity1" s1 ->
  text_field d "relationship" s2 ->
  text_field d "entity2" s3 ->
  strip s1 <> [] -> strip s2 <> [] -> strip s3 <> [] ->
  nodes (snd (add_relationship (Ok (PDict d)) (reached betweenness_centrality rs)))
  = nodes (reached betweenness_centrality rs)
    ++ (if contains (reached betweenness_centrality rs) (strip s1)
        then [] else [strip s1])
    ++ (if contains (reached betweenness_centrality rs) (strip s3)
           || str_eqb (strip s3) (strip s1)
        then [] else [strip s3]).
Proof.
  intros H1 H2 H3 N1 N2 N3.
  rewrite add_relationship_effect. unfold apply_request.
  rewrite (requested_text d s1 s2 s3 H1 H2 H3 N1 N2 N3).
  apply with_edge_nodes, reached_wf.
Qed.

End Service.

(** ** The theorems above at work *)

Lemma requests_never_remove_witness :
  AddRelationship
    (Ok (PDict [ (py "entity1", PStr (py "Alice"));
                 (py "relationship", PStr (py "knows"));
                 (py "entity2", PStr (py "John Doe")) ]))
  <> ClearGraph
  /\ extends (reached (fun _ => []) [])
       (snd (serve (fun _ => [])
               (AddRelationship
                  (Ok (PDict [ (py "entity1", PStr (py "Alice"));
                               (py "relationship", PStr (py "knows"));
                               (py "entity2", PStr (py "John Doe")) ])))
               (reached (fun _ => []) []))).
Proof.
  assert (N : AddRelationship
                (Ok (PDict [ (py "entity1", PStr (py "Alice"));
                             (py "relationship", PStr (py "knows"));
                             (py "entity2", PStr (py "John Doe")) ]))
              <> ClearGraph) by discriminate.
  split; [exact N|].
  exact (requests_never_remove (fun _ => []) [] _ N).
Defined.

Lemma add_relationship_counts_witness :
  strip (py "Alice") <> [] /\ strip (py "knows") <> []
  /\ strip (py "John Doe") <> []
  /\ length (edges (snd (add_relationship
                           (Ok (PDict [ (py "entity1", PStr (py "Alice"));
                                        (py "relationship", PStr (py "knows"));
                                        (py "entity2", PStr (py "John Doe")) ]))
                           (reached (fun _ => []) []))))
     = length (edges (reached (fun _ => []) [])) + 1
  /\ number_of_nodes (snd (add_relationship
                             (Ok (PDict [ (py "entity1", PStr (py "Alice"));
                                          (py "relationship", PStr (py "knows"));
                                          (py "entity2", PStr (py "John Doe")) ]))
                             (reached (fun _ => []) [])))
     = number_of_nodes (reached (fun _ => []) []) + 1.
Proof.
  assert (N1 : strip (py "Alice") <> []) by (vm_compute; discriminate).
  assert (N2 : strip (py "knows") <> []) by (vm_compute; discriminate).
  assert (N3 : strip (py "John Doe") <> []) by (vm_compute; discriminate).
  repeat (split; [assumption|]).
  destruct (add_relationship_counts (fun _ => []) []
              [ (py "entity1", PStr (py "Alice"));
                (py "relationship", PStr (py "knows"));
                (py "entity2", PStr (py "John Doe")) ]
              (py "Alice") (py "knows") (py "John Doe")
              eq_refl eq_refl eq_refl N1 N2 N3) as (He & _ & Hn).
  split; [rewrite He | rewrite Hn]; vm_compute; reflexivity.
Defined.

Lemma upload_csv_rejected_witness :
  accepted_frame [] = None
  /\ exists message status,
       upload_csv [] knowledge_graph
       = (Ok (RespStatus
                (PResponse 200
                   (PDict [ (py "success", PBool false);
                            (py "message", PStr message) ]))
                status),
          knowledge_graph)
       /\ (status = 400 \/ status = 500).
Proof.
  split; [reflexivity|].
  exact (upload_csv_rejected [] knowledge_graph eq_refl).
Defined.

Lemma upload_csv_accepted_witness :
  exists df,
    accepted_frame [(py "file", example_csv)] = Some df
    /\ rectangular df
    /\ reported_import
         (fst (upload_csv [(py "file", example_csv)] (reached (fun _ => []) [])))
       = Some (PInt 2, PNone).
Proof.
  exists (read_csv_text
            [py "Entity1"; py "Relationship"; py "Entity2"]
            [ [py "X"; py "y"; py "Z"]; [[]; py "bad"; py "Q"] ]).
  assert (A : accepted_frame [(py "file", example_csv)]
              = Some (read_csv_text
                        [py "Entity1"; py "Relationship"; py "Entity2"]
                        [ [py "X"; py "y"; py "Z"]; [[]; py "bad"; py "Q"] ]))
    by (vm_compute; reflexivity).
  assert (R : rectangular
                (read_csv_text
                   [py "Entity1"; py "Relationship"; py "Entity2"]
                   [ [py "X"; py "y"; py "Z"]; [[]; py "bad"; py "Q"] ])).
  { intros row Hin. vm_compute in Hin.
    destruct Hin as [<-|[<-|[]]]; reflexivity. }
  split; [exact A|]. split; [exact R|].
  rewrite (upload_csv_accepted (fun _ => []) [] _ _ A R).
  vm_compute. reflexivity.
Defined.

Lemma upload_csv_is_repeated_add_witness :
  exists df,
    accepted_frame [(py "file", example_csv)] = Some df
    /\ snd (upload_csv [(py "file", example_csv)] knowledge_graph)
       = fold_left
           (fun G row => snd (add_relationship (row_request (columns df) row) G))
           (rows df) knowledge_graph.
Proof.
  exists (read_csv_text
            [py "Entity1"; py "Relationship"; py "Entity2"]
            [ [py "X"; py "y"; py "Z"]; [[]; py "bad"; py "Q"] ]).
  assert (A : accepted_frame [(py "file", example_csv)]
              = Some (read_csv_text
                        [py "Entity1"; py "Relationship"; py "Entity2"]
                        [ [py "X"; py "y"; py "Z"]; [[]; py "bad"; py "Q"] ]))
    by (vm_compute; reflexivity).
  split; [exact A|].
  exact (upload_csv_is_repeated_add _ _ knowledge_graph A).
Defined.

Lemma neighbors_query_exact_witness :
  strip (py "John Doe") <> []
  /\ contains (reached (fun _ => []) []) (strip (py "John Doe")) = true
  /\ exists out,
       reported_outgoing
         (fst (query_graph (fun _ => [])
                 (query_request (py "John Doe") (py "neighbors"))
                 (reached (fun _ => []) [])))
       = Some out
       /\ length out = out_degree (reached (fun _ => []) []) (strip (py "John Doe")).
Proof.
  assert (N : strip (py "John Doe") <> []) by (vm_compute; discriminate).
  assert (C : contains (reached (fun _ => []) []) (strip (py "John Doe")) = true)
    by (vm_compute; reflexivity).
  split; [exact N|]. split; [exact C|].
  destruct (neighbors_query_exact (fun _ => []) []
              [ (py "entity", PStr (py "John Doe"));
                (py "query_type", PStr (py "neighbors")) ]
              (py "John Doe") eq_refl eq_refl N C)
    as (inc & out & E & _ & _ & Lo & _).
  exists out. unfold query_request. rewrite E. split; [reflexivity | exact Lo].
Defined.

Lemma shortest_paths_query_exact_witness :
  strip (py "John Doe") <> []
  /\ contains (reached (fun _ => []) []) (strip (py "John Doe")) = true
  /\ exists paths,
       reported_results
         (fst (query_graph (fun _ => [])
                 (query_request (py "John Doe") (py "shortest_path"))
                 (reached (fun _ => []) [])))
       = Some [ (py "shortest_paths", paths_value paths) ]
       /\ (forall t, dict_contains paths t = true
                     <-> t <> strip (py "John Doe")
                         /\ reachable (reached (fun _ => []) [])
                              (strip (py "John Doe")) t).
Proof.
  assert (N : strip (py "John Doe") <> []) by (vm_compute; discriminate).
  assert (C : contains (reached (fun _ => []) []) (strip (py "John Doe")) = true)
    by (vm_compute; reflexivity).
  split; [exact N|]. split; [exact C|].
  destruct (shortest_paths_query_exact (fun _ => []) []
              [ (py "entity", PStr (py "John Doe"));
                (py "query_type", PStr (py "shortest_path")) ]
              (py "John Doe") eq_refl eq_refl N C)
    as (paths & E & Hk & _).
  exists paths. unfold query_request. rewrite E. split; [reflexivity | exact Hk].
Defined.

Lemma query_all_merges_witness :
  strip (py "John Doe") <> []
  /\ contains (reached (fun _ => []) []) (strip (py "John Doe")) = true
  /\ exists rn rp rc,
       reported_results
         (fst (query_graph (fun _ => [])
                 (query_request (py "John Doe") (py "neighbors"))
                 (reached (fun _ => []) []))) = Some rn
       /\ reported_results
            (fst (query_graph (fun _ => [])
                    (query_request (py "John Doe") (py "shortest_path"))
                    (reached (fun _ => []) []))) = Some rp
       /\ reported_results
            (fst (query_graph (fun _ => [])
                    (query_request (py "John Doe") (py "centrality"))
                    (reached (fun _ => []) []))) = Some rc
       /\ reported_results
            (fst (query_graph (fun _ => [])
                    (query_request (py "John Doe") (py "all"))
                    (reached (fun _ => []) []))) = Some (rn ++ rp ++ rc).
Proof.
  assert (N : strip (py "John Doe") <> []) by (vm_compute; discriminate).
  assert (C : contains (reached (fun _ => []) []) (strip (py "John Doe")) = true)
    by (vm_compute; reflexivity).
  split; [exact N|]. split; [exact C|].
  exact (query_all_merges (fun _ => []) [] (py "John Doe") N C).
Defined.

Lemma query_status_witness :
  json_serializable (PDict [ (py "entity", PStr (py " Nobody ")) ]) = true
  /\ status_of (fst (query_graph (fun _ => [])
                       (Ok (PDict [ (py "entity", PStr (py " Nobody ")) ]))
                       (reached (fun _ => []) [])))
     = Some 404.
Proof.
  split; [reflexivity|].
  rewrite (query_status (fun _ => []) []
             [ (py "entity", PStr (py " Nobody ")) ] (py " Nobody ")
             eq_refl eq_refl).
  vm_compute. reflexivity.
Defined.

Lemma graph_stats_values_witness :
  status_of (fst (get_graph_stats (fun _ => Ok true) (reached (fun _ => []) [])))
  = Some 200.
Proof.
  rewrite (graph_stats_values (fun _ => []) (fun _ => Ok true) [] true eq_refl).
  reflexivity.
Defined.


Lemma query_malformed_witness :
  entity_text (Ok (PDict [ (py "entity", PNone) ])) = None
  /\ exists message,
       query_graph (fun _ => []) (Ok (PDict [ (py "entity", PNone) ]))
         knowledge_graph
       = (Ok (RespStatus
                (PResponse 200
                   (PDict [ (py "success", PBool false);
                            (py "message", PStr message) ]))
                500),
          knowledge_graph).
Proof.
  split; [reflexivity|].
  exact (query_malformed (fun _ => []) (Ok (PDict [ (py "entity", PNone) ]))
           knowledge_graph eq_refl).
Defined.

Lemma add_relationship_appends_nodes_witness :
  strip (py "Alice") <> [] /\ strip (py "knows") <> []
  /\ strip (py " Bob ") <> []
  /\ nodes (snd (add_relationship
                   (Ok (PDict [ (py "entity1", PStr (py "Alice"));
                                (py "relationship", PStr (py "knows"));
                                (py "entity2", PStr (py " Bob ")) ]))
                   (reached (fun _ => []) [])))
     = nodes (reached (fun _ => []) []) ++ [py "Alice"; py "Bob"].
Proof.
  assert (N1 : strip (py "Alice") <> []) by (vm_compute; discriminate).
  assert (N2 : strip (py "knows") <> []) by (vm_compute; discriminate).
  assert (N3 : strip (py " Bob ") <> []) by (vm_compute; discriminate).
  repeat (split; [assumption|]).
  rewrite (add_relationship_appends_nodes (fun _ => []) []
             [ (py "entity1", PStr (py "Alice"));
               (py "relationship", PStr (py "knows"));
               (py "entity2", PStr (py " Bob ")) ]
             (py "Alice") (py "knows") (py " Bob ")
             eq_refl eq_refl eq_refl N1 N2 N3).
  vm_compute. reflexivity.
Defined.

End ExtFacts.
